(** * email-onedrive-mcp: a shallow embedding of the tool server

    The development follows the Python sources module by module
    ([config], [file_compressor], [onedrive_handler], [email_processor],
    [server]).  Python code that touches the file system or a remote service
    is written in a state-and-exception monad [py] over a [world] holding the
    file system and the log of external calls; what the remote services and
    the Python run time answer is collected in a record [Env] over which every
    statement is quantified. *)

From Stdlib Require Import ZArith Ascii.
From stdpp Require Import base strings list gmap fin_maps pretty sorting.

Local Open Scope Z_scope.

(** ** Strings and POSIX paths ([posixpath]) *)

Definition sep : ascii := "/"%char.
Definition extsep : ascii := "."%char.
Definition backslash : ascii := ascii_of_nat 92.

Definition str_empty (s : string) : bool :=
  match s with EmptyString => true | String _ _ => false end.

(** [s.startswith(t)] and [s.endswith(t)]. *)
Fixpoint startswith (s t : string) {struct t} : bool :=
  match t with
  | EmptyString => true
  | String b t' =>
      match s with
      | EmptyString => false
      | String a s' => Ascii.eqb a b && startswith s' t'
      end
  end.
Fixpoint endswith (s t : string) : bool :=
  String.eqb s t ||
  match s with
  | EmptyString => false
  | String _ r => endswith r t
  end.

(** [s.replace(a, b)] for single characters. *)
Fixpoint replace_char (a b : ascii) (s : string) : string :=
  match s with
  | EmptyString => EmptyString
  | String c r => String (if Ascii.eqb c a then b else c) (replace_char a b r)
  end.

(** [os.path.isabs]. *)
Definition isabs (p : string) : bool :=
  match p with
  | String c _ => Ascii.eqb c sep
  | EmptyString => false
  end.

(** [os.path.join] for two components. *)
Definition dir_prefix (a : string) : string :=
  if endswith a "/" then a else a +:+ "/".

Definition path_join (a b : string) : string :=
  if isabs b then b
  else if str_empty a then b
  else dir_prefix a +:+ b.

(** [p] cut after its last separator: [(p[:i], p[i:])] with
    [i = p.rfind("/") + 1], as [os.path.split] starts. *)
Fixpoint split_last_sep (p : string) : string * string :=
  match p with
  | EmptyString => (EmptyString, EmptyString)
  | String c r =>
      let '(h, t) := split_last_sep r in
      match h with
      | EmptyString =>
          if Ascii.eqb c sep then (String c EmptyString, r)
          else (EmptyString, String c r)
      | _ => (String c h, t)
      end
  end.

Fixpoint all_char (a : ascii) (s : string) : bool :=
  match s with
  | EmptyString => true
  | String c r => Ascii.eqb c a && all_char a r
  end.

(** [s.rstrip("/")]. *)
Fixpoint rstrip_sep (s : string) : string :=
  match s with
  | EmptyString => EmptyString
  | String c r =>
      if all_char sep (String c r) then EmptyString else String c (rstrip_sep r)
  end.

Definition basename (p : string) : string := snd (split_last_sep p).

Definition dirname (p : string) : string :=
  let h := fst (split_last_sep p) in
  if all_char sep h then h else rstrip_sep h.

(** A file name cut before its last dot: [(name[:j], name[j:])] with
    [j = name.rfind(".")], and [(name, "")] when there is no dot. *)
Fixpoint split_last_dot (t : string) : string * string :=
  match t with
  | EmptyString => (EmptyString, EmptyString)
  | String c r =>
      let '(pre, ext) := split_last_dot r in
      match ext with
      | EmptyString =>
          if Ascii.eqb c extsep then (EmptyString, String c r)
          else (String c r, EmptyString)
      | _ => (String c pre, ext)
      end
  end.

(** [os.path.splitext]: the extension starts at the last dot of the last
    component, unless only dots precede it there. *)
Definition splitext (p : string) : string * string :=
  let '(h, t) := split_last_sep p in
  let '(pre, ext) := split_last_dot t in
  if str_empty ext || all_char extsep pre then (p, EmptyString)
  else (h +:+ pre, ext).

(** ** JSON values: tool inputs, payloads and provider answers *)

#[warnings="-register-all"]
Inductive json : Type :=
  | JNull
  | JBool (b : bool)
  | JInt (z : Z)
  | JStr (s : string)
  | JList (l : list json)
  | JObj (o : list (string * json)).

(** A Python [dict] whose key order is visible in the answer. *)
Definition dict := list (string * json).

Fixpoint dict_get (k : string) (d : dict) : option json :=
  match d with
  | [] => None
  | (k', v) :: r => if String.eqb k k' then Some v else dict_get k r
  end.

Definition dict_has (k : string) (d : dict) : bool :=
  match dict_get k d with Some _ => true | None => false end.

(** Python truth value of a JSON value ([if x:]). *)
Definition truthy (v : json) : bool :=
  match v with
  | JNull => false
  | JBool b => b
  | JInt z => negb (z =? 0)
  | JStr s => negb (str_empty s)
  | JList l => match l with [] => false | _ => true end
  | JObj o => match o with [] => false | _ => true end
  end.

(** ** Exceptions *)

Inductive exn : Type :=
  | HTTPException (status_code : Z) (detail : string)
  | FileNotFoundError (msg : string)
  | RuntimeError (msg : string)
  | HttpError (msg : string)
  | OtherError (cls : string) (msg : string).

Inductive outcome (A : Type) : Type :=
  | Return (a : A)
  | Raise (e : exn).
Arguments Return {A} a.
Arguments Raise {A} e.

(** ** The world: file system and log of external calls *)

Inductive node : Type :=
  | Dir
  | File (data : string).

Inductive event : Type :=
  | EvMkdtemp (path : string)
  | EvRmtree (path : string)
  | EvOAuthRefresh
  | EvOAuthLocalFlow
  | EvGmailList (q : string) (max_results : Z)
  | EvGmailGet (id : string)
  | EvGmailAttachment (message_id attachment_id : string)
  | EvGmailSend (to subject : string) (file_path : string)
  | EvMsalSilent
  | EvMsalClientCredentials
  | EvMsalDeviceInit
  | EvMsalDeviceAcquire
  | EvGraphPut (url : string)
  | EvZipOpen (path : string)
  | EvZipWrite (path arcname : string).

Record world : Type := World {
  fs : gmap string node;
  trace : list event
}.

(** Calls that leave the process for a remote service. *)
Definition is_network (ev : event) : bool :=
  match ev with
  | EvOAuthRefresh | EvOAuthLocalFlow
  | EvGmailList _ _ | EvGmailGet _ | EvGmailAttachment _ _ | EvGmailSend _ _ _
  | EvMsalSilent | EvMsalClientCredentials | EvMsalDeviceInit
  | EvMsalDeviceAcquire | EvGraphPut _ => true
  | _ => false
  end.

(** Token acquisition for the storage provider. *)
Definition is_token_acquisition (ev : event) : bool :=
  match ev with
  | EvMsalSilent | EvMsalClientCredentials | EvMsalDeviceInit
  | EvMsalDeviceAcquire => true
  | _ => false
  end.

Definition is_storage_upload (ev : event) : bool :=
  match ev with EvGraphPut _ => true | _ => false end.

Definition is_archive (ev : event) : bool :=
  match ev with EvZipOpen _ | EvZipWrite _ _ => true | _ => false end.

Definition is_send (ev : event) : bool :=
  match ev with EvGmailSend _ _ _ => true | _ => false end.

(** ** The monad of Python computations *)

Definition py (A : Type) : Type := world → outcome A * world.

Definition ret {A} (a : A) : py A := λ w, (Return a, w).
Definition raise {A} (e : exn) : py A := λ w, (Raise e, w).
Definition bind {A B} (c : py A) (k : A → py B) : py B :=
  λ w, match c w with
       | (Return a, w') => k a w'
       | (Raise e, w') => (Raise e, w')
       end.

Notation "x <- c ;; k" := (bind c (λ x, k))
  (at level 100, c at next level, right associativity).
Notation "c ;;; k" := (bind c (λ _, k))
  (at level 100, right associativity).

(** [try: c  except Exception as e: h e]. *)
Definition try_except {A} (c : py A) (h : exn → py A) : py A :=
  λ w, match c w with
       | (Return a, w') => (Return a, w')
       | (Raise e, w') => h e w'
       end.

(** [try: c  finally: f], for an [f] that swallows its own errors. *)
Definition try_finally {A} (c : py A) (f : world → world) : py A :=
  λ w, let '(r, w') := c w in (r, f w').

Definition lift {A} (o : outcome A) : py A := λ w, (o, w).
Definition log (ev : event) : py unit :=
  λ w, (Return tt, World (fs w) (trace w ++ [ev])).
Definition get_fs : py (gmap string node) := λ w, (Return (fs w), w).
Definition put_fs (m : gmap string node) : py unit :=
  λ w, (Return tt, World m (trace w)).

(** ** File-system primitives

    A key of the map is a path as the program spells it, and [m !! p] is
    what the spelling [p] leads to.  The map does not know that two spellings
    can lead to one place: it follows the code on paths spelled without "."
    and ".." components, and what is proved of other spellings is only what
    does not depend on where they lead.  Where a spelling leads is worked out
    on its text by [resolved] and [inside] further down.  Links are not
    modelled. *)

(** [os.path.exists]. *)
Definition exists_in (m : gmap string node) (p : string) : bool :=
  bool_decide (is_Some (m !! p)).
Definition path_exists (p : string) : py bool :=
  m <- get_fs ;; ret (exists_in m p).

Definition is_dir_in (m : gmap string node) (p : string) : bool :=
  match m !! p with Some Dir => true | _ => false end.

(** The directory a new entry goes into must be there; the current
    directory and the root always are. *)
Definition parent_ok (m : gmap string node) (p : string) : bool :=
  let d := dirname p in
  str_empty d || all_char sep d || is_dir_in m d.

Definition errno_msg (what p : string) : string :=
  what +:+ ": '" +:+ p +:+ "'".

(** [open(p, "w")] followed by one [write] and the close.  A spelling that
    ends in "." or ".." leads to a directory when its parent is there, and to
    nothing otherwise. *)
Definition open_write (p data : string) : py unit :=
  m <- get_fs ;;
  if is_dir_in m p || str_empty (basename p) then
    raise (OtherError "IsADirectoryError" (errno_msg "[Errno 21] Is a directory" p))
  else if negb (parent_ok m p) then
    raise (FileNotFoundError (errno_msg "[Errno 2] No such file or directory" p))
  else if String.eqb (basename p) "." || String.eqb (basename p) ".." then
    raise (OtherError "IsADirectoryError" (errno_msg "[Errno 21] Is a directory" p))
  else put_fs (<[p := File data]> m).

(** [open(p, "r").read()]. *)
Definition open_read (p : string) : py string :=
  m <- get_fs ;;
  match m !! p with
  | Some (File data) => ret data
  | Some Dir =>
      raise (OtherError "IsADirectoryError" (errno_msg "[Errno 21] Is a directory" p))
  | None =>
      raise (FileNotFoundError (errno_msg "[Errno 2] No such file or directory" p))
  end.

(** The directories [os.makedirs] walks through: every prefix of the
    path that stops before a separator, and the path itself. *)
Fixpoint ancestors_go (pre p : string) : list string :=
  let here := if str_empty pre || endswith pre "/" then [] else [pre] in
  match p with
  | EmptyString => here
  | String c r =>
      if Ascii.eqb c sep then here ++ ancestors_go (pre +:+ "/") r
      else ancestors_go (pre +:+ String c EmptyString) r
  end.
Definition ancestors (p : string) : list string := ancestors_go EmptyString p.

(** [os.makedirs(d, exist_ok=True)]. *)
Fixpoint makedirs_go (ds : list string) : py unit :=
  match ds with
  | [] => ret tt
  | d :: r =>
      m <- get_fs ;;
      match m !! d with
      | Some (File _) =>
          raise (OtherError "FileExistsError" (errno_msg "[Errno 17] File exists" d))
      | Some Dir => makedirs_go r
      | None => put_fs (<[d := Dir]> m) ;;; makedirs_go r
      end
  end.
Definition makedirs (d : string) : py unit :=
  if str_empty d then
    raise (FileNotFoundError (errno_msg "[Errno 2] No such file or directory" d))
  else makedirs_go (ancestors d).

(** [p] is the spelling [d] or continues it after a separator: a test on
    the text of the two paths, which is how [rmtree_quiet] picks the keys that
    go.  Whether [p] leads into [d] is the business of [inside] below. *)
Definition under (d p : string) : bool :=
  String.eqb p d || startswith p (dir_prefix d).

(** [shutil.rmtree(d)] inside [try: ... except Exception: pass]: a directory
    goes with everything below it; on anything else the call raises, the
    error is swallowed and nothing is removed.  Once [d] is gone, no spelling
    that passes through [d] leads anywhere, also one that goes on with "..":
    what was written through such a spelling stays where it is, out of sight
    of a map that knows it by that spelling only. *)
Definition rmtree_quiet (d : string) (w : world) : world :=
  World (if is_dir_in (fs w) d
         then filter (λ kv, under d kv.1 = false) (fs w)
         else fs w)
        (trace w ++ [EvRmtree d]).

(** *** Where a path leads

    The components of a path are the pieces between its separators. *)
Fixpoint components (p : string) : list string :=
  match p with
  | EmptyString => [EmptyString]
  | String c r =>
      if Ascii.eqb c sep then EmptyString :: components r
      else match components r with
           | h :: t => String c h :: t
           | [] => [String c EmptyString]
           end
  end.

(** Walking a path one component further, as the operating system does on a
    file system without links: an empty component and "." stay where they
    are, ".." goes up one directory, to nothing above the root and to ".."
    above the start of a relative path, and any other name goes down into it.
    The directories walked through so far are kept innermost first. *)
Definition resolve_step (absolute : bool) (up : list string) (c : string)
    : list string :=
  if str_empty c || String.eqb c "." then up
  else if String.eqb c ".." then
    match up with
    | [] => if absolute then [] else [c]
    | u :: up' => if String.eqb u ".." then c :: up else up'
    end
  else c :: up.

(** The way to where [p] leads, outermost first, from the root when [p] is
    absolute and from the current directory otherwise: the steps up above the
    current directory, if any, and then the names to go down through. *)
Definition resolved (p : string) : list string :=
  rev (fold_left (resolve_step (isabs p)) (components p) []).

Definition is_up (c : string) : bool := String.eqb c "..".

(** [p] leads to the directory [d] or into it, wherever the current directory
    is: both start from the same place, and either the way to [p] goes on from
    the way to [d] without stepping up, or [d] is some levels above the
    current directory and [p] stays fewer levels above it. *)
Definition inside (d p : string) : bool :=
  let rd := resolved d in
  let rp := resolved p in
  bool_decide (isabs d = isabs p) &&
  (bool_decide (rd `prefix_of` rp) && forallb (λ c, negb (is_up c)) (drop (length rd) rp)
   || forallb is_up rd && (length (filter (λ c, is_up c = true) rp) <? length rd)%nat).

(** No component of [p] is "..". *)
Definition no_dotdot (p : string) : bool :=
  forallb (λ c, negb (is_up c)) (components p).

(** [p] has no separator in it. *)
Fixpoint no_sep (p : string) : bool :=
  match p with
  | EmptyString => true
  | String c r => negb (Ascii.eqb c sep) && no_sep r
  end.


(** ** Provider data *)

(** google.oauth2 [Credentials]: the attributes [build_gmail_service] reads. *)
Record Credentials : Type := {
  token : string;
  valid : bool;
  expired : bool;
  refresh_token : option string
}.

(** The object returned by [googleapiclient.discovery.build]. *)
Record Service : Type := { credentials : option Credentials }.

(** A message part: [part.get("filename")], with [None] read as the empty
    name, and [part.get("body", {})] seen through its [attachmentId] key. *)
Record Part : Type := {
  filename : string;
  attachmentId : option string
}.

Record Payload : Type := { parts : option (list Part) }.

(** A full message resource: [msg["id"]] and, when present, [msg["payload"]]. *)
Record Message : Type := {
  msg_id : string;
  payload : option Payload
}.

(** A [requests] response. *)
Record Response : Type := {
  status_code : Z;
  text : string;
  json_body : outcome json
}.

(** ** config.py *)

Module config.

Record Settings : Type := {
  GOOGLE_CREDENTIALS_FILE : string;
  GOOGLE_TOKEN_FILE : string;
  MSFT_CLIENT_ID : string;
  MSFT_CLIENT_SECRET : string;
  MSFT_TENANT_ID : string;
  MSAL_TOKEN_FILE : string
}.

Definition MSFT_SCOPES (s : Settings) : list string :=
  if negb (str_empty (MSFT_CLIENT_SECRET s))
  then ["https://graph.microsoft.com/.default"]
  else ["Files.ReadWrite.All"; "offline_access"; "User.Read"].

End config.

(** ** The environment: what the run time and the two providers answer *)

Record Env : Type := {
  settings : config.Settings;
  (* Python run time *)
  abspath : string → string;
  gettempdir : string;
  mkdtemp_name : string + string;
  int_of_str : string → option Z;
  str_of_HTTPException : Z → string → string;
  repr_dict : dict → string;
  (* google-auth and the Gmail API *)
  from_authorized_user_info : string → outcome Credentials;
  refresh : Credentials → outcome Credentials;
  from_client_config : string → outcome string;
  run_local_server : string → outcome Credentials;
  to_json : Credentials → string;
  messages_list : Service → string → Z → outcome (list string);
  messages_get : Service → string → outcome Message;
  attachments_get : Service → string → string → outcome string;
  mime_head : string → string → string → outcome unit;
  mime_raw : string → string → string → string → string → outcome string;
  messages_send : Service → string → outcome dict;
  (* MSAL and Microsoft Graph *)
  get_accounts : list json;
  acquire_token_silent : outcome (option dict);
  acquire_token_for_client : outcome dict;
  initiate_device_flow : outcome dict;
  acquire_token_by_device_flow : dict → outcome dict;
  requests_put : string → json → string → outcome Response;
  (* zipfile *)
  zip_encode : list (string * string) → string
}.

(** [str(e)]. *)
Definition py_str (E : Env) (e : exn) : string :=
  match e with
  | HTTPException s d => str_of_HTTPException E s d
  | FileNotFoundError m => m
  | RuntimeError m => m
  | HttpError m => m
  | OtherError _ m => m
  end.

Definition type_error {A} (what : string) : py A :=
  raise (OtherError "TypeError" what).

(** Values used where the code needs a [str] or walks a list. *)
Definition as_str (v : json) : py string :=
  match v with JStr s => ret s | _ => type_error "expected str" end.

Definition as_list (v : json) : py (list json) :=
  match v with JList l => ret l | _ => type_error "object is not iterable" end.

Fixpoint as_str_list_go (l : list json) : py (list string) :=
  match l with
  | [] => ret []
  | v :: r => s <- as_str v ;; ss <- as_str_list_go r ;; ret (s :: ss)
  end.
Definition as_str_list (v : json) : py (list string) :=
  l <- as_list v ;; as_str_list_go l.

(** [int(v)]. *)
Definition py_int (E : Env) (v : json) : py Z :=
  match v with
  | JInt z => ret z
  | JBool b => ret (if b then 1 else 0)
  | JStr s =>
      match int_of_str E s with
      | Some z => ret z
      | None => raise (OtherError "ValueError" "invalid literal for int()")
      end
  | _ => type_error "int() argument must be a string or a number"
  end.

(** [data[k]]. *)
Definition getitem (data : gmap string json) (k : string) : py json :=
  match data !! k with
  | Some v => ret v
  | None => raise (OtherError "KeyError" k)
  end.

(** [tempfile.mkdtemp(prefix=...)]: the run time supplies the random part of
    the name, or the text of the [OSError] it gives up with. *)
Definition mkdtemp (E : Env) (prefix : string) : py string :=
  name <- (match mkdtemp_name E with
           | inl name => ret name
           | inr msg => raise (OtherError "OSError" msg)
           end) ;;
  let file := path_join (gettempdir E) (prefix +:+ name) in
  m <- get_fs ;;
  put_fs (<[file := Dir]> m) ;;;
  log (EvMkdtemp file) ;;;
  ret file.

(** ** zipfile: an archive open for writing

    The file at the archive's path holds the encoding of the entries written
    so far; closing the archive, on either exit of the [with] block, leaves
    exactly that. *)

Definition ZipFile_open (E : Env) (path : string) : py (list (string * string)) :=
  log (EvZipOpen path) ;;;
  open_write path (zip_encode E []) ;;;
  ret [].

Definition zf_write (E : Env) (path : string) (entries : list (string * string))
    (f arcname : string) : py (list (string * string)) :=
  log (EvZipWrite f arcname) ;;;
  m <- get_fs ;;
  match m !! f with
  | None =>
      raise (FileNotFoundError (errno_msg "[Errno 2] No such file or directory" f))
  | Some nd =>
      let entry := match nd with
                   | File data => (arcname, data)
                   | Dir => (arcname +:+ "/", EmptyString)
                   end in
      let entries' := entries ++ [entry] in
      put_fs (<[path := File (zip_encode E entries')]> m) ;;;
      ret entries'
  end.

(** ** file_compressor.py *)

Module file_compressor.
Section with_env.
Context (E : Env).

(** The [for f in file_paths] loop inside the [with] block. *)
Fixpoint write_files (output_zip : string) (file_paths : list string)
    (zf : list (string * string)) : py unit :=
  match file_paths with
  | [] => ret tt
  | f :: rest =>
      ex <- path_exists f ;;
      if negb ex then raise (FileNotFoundError ("File does not exist: " +:+ f))
      else
        let arcname := basename f in
        zf' <- zf_write E output_zip zf f arcname ;;
        write_files output_zip rest zf'
  end.

Definition compress_files (file_paths : list string) (output_zip : string) : py unit :=
  makedirs (let d := dirname output_zip in if str_empty d then "." else d) ;;;
  zf <- ZipFile_open E output_zip ;;
  write_files output_zip file_paths zf.

End with_env.
End file_compressor.

(** ** onedrive_handler.py *)

Module onedrive_handler.
Section with_env.
Context (E : Env).

Definition MSAL_TOKEN_PATH : string := config.MSAL_TOKEN_FILE (settings E).

Inductive msal_app : Type :=
  | ConfidentialClientApplication
  | PublicClientApplication.

Definition _load_msal_app : msal_app :=
  if negb (str_empty (config.MSFT_CLIENT_SECRET (settings E)))
  then ConfidentialClientApplication
  else PublicClientApplication.

(** [not result] for a token answer: [None] and the empty dict are false. *)
Definition result_falsy (result : option dict) : bool :=
  match result with
  | None => true
  | Some [] => true
  | Some _ => false
  end.

Definition dict_of (result : option dict) : py dict :=
  match result with
  | Some d => ret d
  | None => type_error "argument of type 'NoneType' is not iterable"
  end.

Definition get_onedrive_access_token : py dict :=
  let app := _load_msal_app in
  let accounts := get_accounts E in
  result <- (match accounts with
             | _ :: _ => log EvMsalSilent ;;; lift (acquire_token_silent E)
             | [] => ret None
             end) ;;
  result <- (if result_falsy result then
               if negb (str_empty (config.MSFT_CLIENT_SECRET (settings E))) then
                 log EvMsalClientCredentials ;;;
                 r <- lift (acquire_token_for_client E) ;; ret (Some r)
               else
                 log EvMsalDeviceInit ;;;
                 flow <- lift (initiate_device_flow E) ;;
                 if negb (dict_has "user_code" flow) then
                   raise (RuntimeError
                     "Failed to create device flow. Check MSAL configuration.")
                 else
                   match dict_get "verification_uri" flow with
                   | None => raise (OtherError "KeyError" "'verification_uri'")
                   | Some _ =>
                       log EvMsalDeviceAcquire ;;;
                       r <- lift (acquire_token_by_device_flow E flow) ;;
                       ret (Some r)
                   end
             else ret result) ;;
  result <- dict_of result ;;
  if negb (dict_has "access_token" result) then
    raise (RuntimeError ("Could not obtain access token: " +:+ repr_dict E result))
  else ret result.

Definition upload_file_to_onedrive_path (token_response : dict)
    (local_path remote_path : string) : py json :=
  let access_token := default JNull (dict_get "access_token" token_response) in
  if negb (truthy access_token) then raise (RuntimeError "Missing access token")
  else
    let url := "https://graph.microsoft.com/v1.0/me/drive/root:/" +:+ remote_path
               +:+ ":/content" in
    data <- open_read local_path ;;
    log (EvGraphPut url) ;;;
    resp <- lift (requests_put E url access_token data) ;;
    if negb (bool_decide (status_code resp = 200) || bool_decide (status_code resp = 201))
    then raise (RuntimeError ("OneDrive upload failed: " +:+ pretty (status_code resp)
                              +:+ " - " +:+ text resp))
    else lift (json_body resp).

End with_env.
End onedrive_handler.

(** ** email_processor.py *)

Module email_processor.
Section with_env.
Context (E : Env).

Definition SCOPES : list string :=
  ["https://www.googleapis.com/auth/gmail.readonly";
   "https://www.googleapis.com/auth/gmail.send"].

(** The module never imports [Request]: evaluating the name raises
    [NameError]. *)
Definition Request : py unit :=
  raise (OtherError "NameError" "name 'Request' is not defined").

Definition from_authorized_user_file (token_path : string) : py Credentials :=
  info <- open_read token_path ;;
  lift (from_authorized_user_info E info).

Definition from_client_secrets_file (cred_path : string) : py string :=
  cfg <- open_read cred_path ;;
  lift (from_client_config E cfg).

Definition creds_valid (creds : option Credentials) : bool :=
  match creds with Some c => valid c | None => false end.

Definition build_gmail_service : py Service :=
  let token_path := config.GOOGLE_TOKEN_FILE (settings E) in
  let cred_path := config.GOOGLE_CREDENTIALS_FILE (settings E) in
  ex <- path_exists token_path ;;
  creds <- (if ex then c <- from_authorized_user_file token_path ;; ret (Some c)
            else ret None) ;;
  creds <- (if negb (creds_valid creds) then
      creds <- (match creds with
                | Some c =>
                    if expired c && bool_decide (is_Some (refresh_token c)) then
                      try_except
                        (rq <- Request ;;
                         log EvOAuthRefresh ;;;
                         c' <- lift (refresh E c) ;;
                         ret (Some c'))
                        (λ _, ret None)
                    else ret (Some c)
                | None => ret None
                end) ;;
      match creds with
      | None =>
          exc <- path_exists cred_path ;;
          if negb exc then
            raise (FileNotFoundError
              "Google credentials file not found. See README to create credentials.json.")
          else
            flow <- from_client_secrets_file cred_path ;;
            log EvOAuthLocalFlow ;;;
            c <- lift (run_local_server E flow) ;;
            open_write token_path (to_json E c) ;;;
            ret (Some c)
      | Some c => ret (Some c)
      end
    else ret creds) ;;
  ret {| credentials := creds |}.

(** [any(p.get("filename") for p in parts)]. *)
Definition has_attachment (ps : list Part) : bool :=
  existsb (λ p, negb (str_empty (filename p))) ps.

(** The [for m in messages] loop of the search. *)
Fixpoint collect_found (service : Service) (messages : list string)
    (found : list Message) : py (list Message) :=
  match messages with
  | [] => ret found
  | m :: rest =>
      log (EvGmailGet m) ;;;
      msg <- lift (messages_get E service m) ;;
      let found' :=
        match payload msg with
        | Some pl =>
            match parts pl with
            | Some ps => if has_attachment ps then found ++ [msg] else found
            | None => found
            end
        | None => found
        end in
      collect_found service rest found'
  end.

Definition search_messages_with_attachments (service : Service) (query : string)
    (max_results : Z) : py (list Message) :=
  try_except
    (log (EvGmailList query max_results) ;;;
     messages <- lift (messages_list E service query max_results) ;;
     collect_found service messages [])
    (λ e, match e with
          | HttpError m => raise (RuntimeError ("Gmail API error during search: " +:+ m))
          | _ => raise e
          end).

(** The [while os.path.exists(save_path)] loop; [fuel] bounds the number of
    tests of the condition. *)
Fixpoint unique_loop (fuel : nat) (m : gmap string node) (base ext save_path : string)
    (i : nat) : option string :=
  match fuel with
  | O => None
  | S fuel' =>
      if exists_in m save_path
      then unique_loop fuel' m base ext (base +:+ "_" +:+ pretty i +:+ ext) (S i)
      else Some save_path
  end.

(** "Ensure unique filename": a directory holding [size m] entries cannot
    make the loop test more than [size m + 1] candidates. *)
Definition unique_path (m : gmap string node) (save_path : string) : string :=
  let '(base, ext) := splitext save_path in
  default save_path (unique_loop (2 + size m) m base ext save_path 1).

(** One turn of [for part in parts]. *)
Definition save_part (service : Service) (msg_id : string) (download_folder : string)
    (part : Part) (saved_files : list string) : py (list string) :=
  if negb (str_empty (filename part)) then
    match attachmentId part with
    | Some attach_id =>
        log (EvGmailAttachment msg_id attach_id) ;;;
        file_data <- lift (attachments_get E service msg_id attach_id) ;;
        let save_path := path_join download_folder (filename part) in
        m <- get_fs ;;
        let save_path := unique_path m save_path in
        open_write save_path file_data ;;;
        ret (saved_files ++ [save_path])
    | None => ret saved_files
    end
  else ret saved_files.

Fixpoint save_parts (service : Service) (msg_id : string) (download_folder : string)
    (ps : list Part) (saved_files : list string) : py (list string) :=
  match ps with
  | [] => ret saved_files
  | part :: rest =>
      saved_files' <- save_part service msg_id download_folder part saved_files ;;
      save_parts service msg_id download_folder rest saved_files'
  end.

(** The [for msg in messages] loop of the download. *)
Fixpoint save_messages (service : Service) (download_folder : string)
    (messages : list Message) (saved_files : list string) : py (list string) :=
  match messages with
  | [] => ret saved_files
  | msg :: rest =>
      match payload msg with
      | None => raise (OtherError "KeyError" "'payload'")
      | Some pl =>
          saved_files' <- save_parts service (msg_id msg) download_folder
                            (default [] (parts pl)) saved_files ;;
          save_messages service download_folder rest saved_files'
      end
  end.

Definition download_attachments_from_messages (service : Service)
    (messages : list Message) (download_folder : string) : py (list string) :=
  makedirs download_folder ;;;
  save_messages service download_folder messages [].

(** The message is put together between the existence test and the [try]
    block, so what its construction raises leaves as it is.  [mime_head] is
    what comes before the file is opened: [MIMEMultipart()], the two headers
    and the text part, with [()] when they can be made.  [mime_raw] is what
    comes after the file is read: the attachment part, [message.as_bytes()]
    and its base64 text. *)
Definition send_message_with_attachment (service : Service)
    (to subject body_text file_path : string) : py dict :=
  ex <- path_exists file_path ;;
  if negb ex then raise (FileNotFoundError ("Attachment not found: " +:+ file_path))
  else
    lift (mime_head E to subject body_text) ;;;
    content <- open_read file_path ;;
    raw <- lift (mime_raw E to subject body_text (basename file_path) content) ;;
    try_except
      (log (EvGmailSend to subject file_path) ;;;
       sent <- lift (messages_send E service raw) ;;
       ret [("id", default JNull (dict_get "id" sent))])
      (λ e, raise (RuntimeError ("Failed to send message: " +:+ py_str E e))).

End with_env.
End email_processor.

(** ** server.py *)

Module server.

(** [TOOL_DEFINITIONS], each tool with the [required] list of its schema. *)
Definition TOOL_DEFINITIONS : list (string * list string) :=
  [("search_and_download_attachments", ["query"; "max_results"]);
   ("upload_to_onedrive", ["local_paths"; "remote_folder_path"]);
   ("compress_files", ["local_paths"; "output_zip"]);
   ("send_zip_via_email", ["to"; "subject"; "body"; "zip_path"]);
   ("orchestrate_full_pipeline",
      ["query"; "max_results"; "onedrive_folder"; "recipient_email"; "zip_name"])].

Fixpoint tool_required (tool : string) (defs : list (string * list string))
    : option (list string) :=
  match defs with
  | [] => None
  | (name, required) :: r =>
      if String.eqb tool name then Some required else tool_required tool r
  end.

Record RunRequest : Type := {
  tool : string;
  input : gmap string json
}.

(** "Validate required fields quickly": the [for r in required] loop. *)
Fixpoint validate_required (required : list string) (data : gmap string json)
    : py unit :=
  match required with
  | [] => ret tt
  | r :: rest =>
      match data !! r with
      | None => raise (HTTPException 400 ("Missing required input: " +:+ r))
      | Some _ => validate_required rest data
      end
  end.

Section with_env.
Context (E : Env).

Definition remote_path_of (folder path : string) : string :=
  replace_char backslash sep (path_join folder (basename path)).

(** The [for lp in local_paths] loop of [upload_to_onedrive]. *)
Fixpoint upload_local_paths (token : dict) (remote_folder : json)
    (local_paths : list json) (uploaded : list json) : py (list json) :=
  match local_paths with
  | [] => ret uploaded
  | lp :: rest =>
      lp <- as_str lp ;;
      let lp := if negb (isabs lp) then abspath E lp else lp in
      ex <- path_exists lp ;;
      if negb ex then raise (HTTPException 400 ("Local file not found: " +:+ lp))
      else
        folder <- as_str remote_folder ;;
        let remote_path := remote_path_of folder lp in
        res <- onedrive_handler.upload_file_to_onedrive_path E token lp remote_path ;;
        upload_local_paths token remote_folder rest (uploaded ++ [res])
  end.

(** The [for fpath in files] loop of the full pipeline. *)
Fixpoint upload_files (token : dict) (onedrive_folder : json)
    (files : list string) (uploaded : list json) : py (list json) :=
  match files with
  | [] => ret uploaded
  | fpath :: rest =>
      folder <- as_str onedrive_folder ;;
      let remote_path := remote_path_of folder fpath in
      res <- onedrive_handler.upload_file_to_onedrive_path E token fpath remote_path ;;
      upload_files token onedrive_folder rest (uploaded ++ [res])
  end.

Definition paths_json (files : list string) : json := JList (JStr <$> files).

(** The body of the [try] block. *)
Definition tool_body (tool : string) (data : gmap string json) (work_dir : string)
    : py dict :=
  if String.eqb tool "search_and_download_attachments" then
    query <- getitem data "query" ;;
    mr <- getitem data "max_results" ;;
    max_results <- py_int E mr ;;
    service <- email_processor.build_gmail_service E ;;
    query <- as_str query ;;
    messages <- email_processor.search_messages_with_attachments E service query max_results ;;
    match messages with
    | [] => ret [("downloaded_files", JList [])]
    | _ =>
        files <- email_processor.download_attachments_from_messages E service messages work_dir ;;
        ret [("downloaded_files", paths_json files)]
    end
  else if String.eqb tool "upload_to_onedrive" then
    local_paths <- getitem data "local_paths" ;;
    remote_folder <- getitem data "remote_folder_path" ;;
    token <- onedrive_handler.get_onedrive_access_token E ;;
    local_paths <- as_list local_paths ;;
    uploaded <- upload_local_paths token remote_folder local_paths [] ;;
    ret [("uploaded", JList uploaded)]
  else if String.eqb tool "compress_files" then
    local_paths <- getitem data "local_paths" ;;
    output_zip <- getitem data "output_zip" ;;
    output_zip <- as_str output_zip ;;
    let output_zip := if negb (isabs output_zip) then path_join work_dir output_zip
                      else output_zip in
    local_paths <- as_str_list local_paths ;;
    file_compressor.compress_files E local_paths output_zip ;;;
    ret [("zip_path", JStr output_zip)]
  else if String.eqb tool "send_zip_via_email" then
    to <- getitem data "to" ;;
    subject <- getitem data "subject" ;;
    body <- getitem data "body" ;;
    zip_path <- getitem data "zip_path" ;;
    service <- email_processor.build_gmail_service E ;;
    to <- as_str to ;;
    subject <- as_str subject ;;
    body <- as_str body ;;
    zip_path <- as_str zip_path ;;
    res <- email_processor.send_message_with_attachment E service to subject body zip_path ;;
    ret [("result", JObj res)]
  else if String.eqb tool "orchestrate_full_pipeline" then
    query <- getitem data "query" ;;
    mr <- getitem data "max_results" ;;
    max_results <- py_int E mr ;;
    onedrive_folder <- getitem data "onedrive_folder" ;;
    recipient <- getitem data "recipient_email" ;;
    zip_name <- getitem data "zip_name" ;;
    (* 1) Search & download *)
    service <- email_processor.build_gmail_service E ;;
    query <- as_str query ;;
    messages <- email_processor.search_messages_with_attachments E service query max_results ;;
    match messages with
    | [] => ret [("status", JStr "no_messages_found"); ("downloaded_files", JList [])]
    | _ =>
        files <- email_processor.download_attachments_from_messages E service messages work_dir ;;
        (* 2) Upload attachments to OneDrive *)
        token <- onedrive_handler.get_onedrive_access_token E ;;
        uploaded <- upload_files token onedrive_folder files [] ;;
        (* 3) Compress files *)
        zip_name <- as_str zip_name ;;
        let zip_path := path_join work_dir
              (if endswith zip_name ".zip" then zip_name else zip_name +:+ ".zip") in
        file_compressor.compress_files E files zip_path ;;;
        (* 4) Send zip via Gmail *)
        recipient <- as_str recipient ;;
        send_res <- email_processor.send_message_with_attachment E service recipient
                      ("Files: " +:+ zip_name) "See attached zip." zip_path ;;
        ret [("downloaded_files", paths_json files);
             ("uploaded", JList uploaded);
             ("zip_path", JStr zip_path);
             ("send_result", JObj send_res)]
    end
  else raise (HTTPException 400 "Unhandled tool").

Definition run_tool (req : RunRequest) : py dict :=
  let tool := tool req in
  let data := input req in
  match tool_required tool TOOL_DEFINITIONS with
  | None => raise (HTTPException 400 ("Unknown tool: " +:+ tool))
  | Some required =>
      validate_required required data ;;;
      (* Temporary working dir for operations *)
      work_dir <- mkdtemp E "mcp_work_" ;;
      try_finally
        (try_except (tool_body tool data work_dir)
           (λ e, raise (HTTPException 500 ("Tool execution error: " +:+ py_str E e))))
        (rmtree_quiet work_dir)
  end.

End with_env.
End server.

(** ** Frame conditions

    What a computation may do to the world, whatever its outcome. *)

Definition preserves {A} (R : relation world) (c : py A) : Prop :=
  ∀ w r w', c w = (r, w') → R w w'.

(** The file system is left as it was. *)
Definition same_fs : relation world := λ w w', fs w' = fs w.

(** Every entry of the file system is still there, unchanged. *)
Definition keeps_fs : relation world := λ w w', fs w ⊆ fs w'.

(** Every path that existed still exists. *)
Definition keeps_paths : relation world :=
  λ w w', ∀ p, exists_in (fs w) p = true → exists_in (fs w') p = true.

(** The log grew by events that all satisfy [P]. *)
Definition appends (P : event → Prop) : relation world :=
  λ w w', ∃ evs, trace w' = trace w ++ evs ∧ Forall P evs.

(** No call to the storage provider, the archive writer or the mail sender. *)
Definition mail_read_only (ev : event) : Prop :=
  is_token_acquisition ev = false ∧ is_storage_upload ev = false ∧
  is_archive ev = false ∧ is_send ev = false.

(** ** Stages of the pipeline, as the specification names them *)

Inductive stage : Type := Search | Download | Upload | Archive | Send.

Definition stage_name (s : stage) : string :=
  match s with
  | Search => "search"
  | Download => "download"
  | Upload => "upload"
  | Archive => "archive"
  | Send => "send"
  end.

(** [sub in s]. *)
Fixpoint contains (s sub : string) : bool :=
  startswith s sub ||
  match s with
  | EmptyString => false
  | String _ r => contains r sub
  end.

(** A detail "wrapped with the failing stage's name" would mention it. *)
Definition wrapped_with_stage (s : stage) (r : outcome dict) : Prop :=
  ∃ status detail,
    r = Raise (HTTPException status detail) ∧ contains detail (stage_name s) = true.

(** The attachment parts the download loop acts on, in order: message id,
    attachment id and file name of every named part that has an
    [attachmentId]. *)
Definition attachments_of_parts (mid : string) (ps : list Part)
    : list (string * string * string) :=
  flat_map (λ p, if negb (str_empty (filename p)) then
                   match attachmentId p with
                   | Some aid => [(mid, aid, filename p)]
                   | None => []
                   end
                 else []) ps.

Definition attachments_of (messages : list Message) : list (string * string * string) :=
  flat_map (λ msg, match payload msg with
                   | Some pl => attachments_of_parts (msg_id msg) (default [] (parts pl))
                   | None => []
                   end) messages.

(** The named parts of a list of messages. *)
Definition named_parts (messages : list Message) : list Part :=
  flat_map (λ msg, match payload msg with
                   | Some pl => filter (λ p, str_empty (filename p) = false)
                                  (default [] (parts pl))
                   | None => []
                   end) messages.

(** The [i]-th numbered variant of a path. *)
Definition numbered (save_path : string) (i : nat) : string :=
  let '(base, ext) := splitext save_path in base +:+ "_" +:+ pretty i +:+ ext.

(** [path] is where the download put the attachment [att], between the
    worlds [w] and [w']: its payload is in the file at [path], and [path] is
    what the uniqueness loop chose in a directory state [m] of the invocation
    in which [path] was still free. *)
Definition saved_as (E : Env) (service : Service) (download_folder : string)
    (w w' : world) (path : string) (att : string * string * string) : Prop :=
  let '(mid, aid, name) := att in
  ∃ data m,
    attachments_get E service mid aid = Return data ∧
    fs w' !! path = Some (File data) ∧
    fs w ⊆ m ∧ m ⊆ fs w' ∧ m !! path = None ∧
    path = email_processor.unique_path m (path_join download_folder name).

(** ** Notions the further properties speak of *)

(** The test the search applies to a fetched message: a payload with a
    parts list in which some part is named. *)
Definition search_keeps (msg : Message) : bool :=
  match payload msg with
  | Some pl =>
      match parts pl with
      | Some ps => email_processor.has_attachment ps
      | None => false
      end
  | None => false
  end.

(** The fetches the download makes for a list of attachment parts. *)
Definition fetch_events (atts : list (string * string * string)) : list event :=
  (λ att, EvGmailAttachment att.1.1 att.1.2) <$> atts.

(** Every directory is still a directory. *)
Definition keeps_dirs : relation world :=
  λ w w', ∀ p, fs w !! p = Some Dir → fs w' !! p = Some Dir.

(** The stage of the pipeline a call belongs to, in the order of the code:
    reading the mailbox, fetching attachments, getting the storage token,
    uploading, archiving, sending; the working directory comes around them. *)
Definition stage_rank (ev : event) : nat :=
  match ev with
  | EvOAuthRefresh | EvOAuthLocalFlow | EvGmailList _ _ | EvGmailGet _ => 0
  | EvGmailAttachment _ _ => 1
  | EvMsalSilent | EvMsalClientCredentials | EvMsalDeviceInit | EvMsalDeviceAcquire => 2
  | EvGraphPut _ => 3
  | EvZipOpen _ | EvZipWrite _ _ => 4
  | EvGmailSend _ _ _ => 5
  | EvMkdtemp _ | EvRmtree _ => 6
  end.

(** The log grew by calls in the order of their stages, none of them
    before stage [n]. *)
Definition from_stage (n : nat) : relation world :=
  λ w w', ∃ evs, trace w' = trace w ++ evs ∧
    StronglySorted (λ a b, stage_rank a ≤ stage_rank b)%nat evs ∧
    Forall (λ ev, n ≤ stage_rank ev)%nat evs.

(** The Graph address of a remote path. *)
Definition graph_url (remote_path : string) : string :=
  "https://graph.microsoft.com/v1.0/me/drive/root:/" +:+ remote_path +:+ ":/content".

(** A local path as the upload tool uses it: made absolute when relative. *)
Definition absolute (E : Env) (lp : string) : string :=
  if negb (isabs lp) then abspath E lp else lp.

(** The archive entry made of a regular file. *)
Definition file_entry (m : gmap string node) (f : string) : string * string :=
  (basename f, match m !! f with Some (File data) => data | _ => EmptyString end).

(** ** A small deployment used to run the model *)

Module demo.

Definition the_settings : config.Settings := {|
  config.GOOGLE_CREDENTIALS_FILE := "credentials.json";
  config.GOOGLE_TOKEN_FILE := "token.json";
  config.MSFT_CLIENT_ID := "client-id";
  config.MSFT_CLIENT_SECRET := "s3cret";
  config.MSFT_TENANT_ID := "common";
  config.MSAL_TOKEN_FILE := "msal_token.json"
|}.

Definition creds : Credentials := {|
  token := "ya29.demo";
  valid := true;
  expired := false;
  refresh_token := Some "1//demo"
|}.

Fixpoint find_message (mailbox : list Message) (i : string) : outcome Message :=
  match mailbox with
  | [] => Raise (HttpError "404 Not Found")
  | m :: r => if String.eqb (msg_id m) i then Return m else find_message r i
  end.

Definition line_feed : string := String (ascii_of_nat 10) EmptyString.

(** An environment whose mailbox holds [mailbox], every message matching
    every query.  A message whose recipient or subject has a line feed in it
    cannot be serialized. *)
Definition env (mailbox : list Message) : Env := {|
  settings := the_settings;
  abspath := λ p, "/srv/app/" +:+ p;
  gettempdir := "/tmp";
  mkdtemp_name := inl "k3x9q2ab";
  int_of_str := λ _, None;
  str_of_HTTPException := λ s d, pretty s +:+ ": " +:+ d;
  repr_dict := λ _, "{...}";
  from_authorized_user_info := λ _, Return creds;
  refresh := λ c, Return c;
  from_client_config := λ cfg, Return cfg;
  run_local_server := λ _, Return creds;
  to_json := λ c, "{token: " +:+ token c +:+ "}";
  messages_list := λ _ _ _, Return (msg_id <$> mailbox);
  messages_get := λ _ i, find_message mailbox i;
  attachments_get := λ _ mid aid, Return ("payload of " +:+ mid +:+ "/" +:+ aid);
  mime_head := λ _ _ _, Return tt;
  mime_raw := λ to subject body name content,
    if contains to line_feed || contains subject line_feed then
      Raise (OtherError "HeaderWriteError"
               "folded header contains newline")
    else Return (to +:+ subject +:+ body +:+ name +:+ content);
  messages_send := λ _ _, Return [("id", JStr "sent-1")];
  get_accounts := [];
  acquire_token_silent := Return None;
  acquire_token_for_client := Return [("access_token", JStr "eyJ.demo")];
  initiate_device_flow := Return [];
  acquire_token_by_device_flow := λ _, Return [];
  requests_put := λ _ _ _,
    Return {| status_code := 201; text := ""; json_body := Return (JObj []) |};
  zip_encode := λ entries, "PK:" +:+ String.concat "," (fst <$> entries)
|}.

(** Token file present, nothing else. *)
Definition disk : gmap string node :=
  {[ "token.json" := File "{token: ya29.demo}"; "/tmp" := Dir ]}.

Definition start : world := World disk [].

Definition named (name aid : string) : Part :=
  {| filename := name; attachmentId := Some aid |}.
Definition inline (name : string) : Part :=
  {| filename := name; attachmentId := None |}.
Definition message (i : string) (ps : list Part) : Message :=
  {| msg_id := i; payload := Some {| parts := Some ps |} |}.

Definition request (t : string) (fields : list (string * json)) : server.RunRequest :=
  {| server.tool := t; server.input := list_to_map fields |}.

(** A compression request naming a file that is not there. *)
Definition compress_missing : server.RunRequest :=
  request "compress_files"
    [("local_paths", JList [JStr "missing.txt"]); ("output_zip", JStr "out.zip")].

(** An upload request naming a file that is not there. *)
Definition upload_missing : server.RunRequest :=
  request "upload_to_onedrive"
    [("local_paths", JList [JStr "/nope.txt"]); ("remote_folder_path", JStr "Docs")].

Definition pipeline : server.RunRequest :=
  request "orchestrate_full_pipeline"
    [("query", JStr "has:attachment from:a@example.com"); ("max_results", JInt 10);
     ("onedrive_folder", JStr "Docs"); ("recipient_email", JStr "b@example.com");
     ("zip_name", JStr "out")].

End demo.

(** ** Deployments whose providers answer as told *)

Module scenario.

Definition created : Response :=
  {| status_code := 201; text := ""; json_body := Return (JObj [("id", JStr "item-1")]) |}.

(** As [demo.env], with the answers of the message listing, of the mail
    submission and of the Graph upload, and the client secret, given. *)
Definition env (mailbox : list Message) (listing : outcome (list string))
    (sending : outcome dict) (putting : outcome Response) (secret : string) : Env := {|
  settings := {|
    config.GOOGLE_CREDENTIALS_FILE := "credentials.json";
    config.GOOGLE_TOKEN_FILE := "token.json";
    config.MSFT_CLIENT_ID := "client-id";
    config.MSFT_CLIENT_SECRET := secret;
    config.MSFT_TENANT_ID := "common";
    config.MSAL_TOKEN_FILE := "msal_token.json"
  |};
  abspath := abspath (demo.env mailbox);
  gettempdir := gettempdir (demo.env mailbox);
  mkdtemp_name := mkdtemp_name (demo.env mailbox);
  int_of_str := int_of_str (demo.env mailbox);
  str_of_HTTPException := str_of_HTTPException (demo.env mailbox);
  repr_dict := repr_dict (demo.env mailbox);
  from_authorized_user_info := from_authorized_user_info (demo.env mailbox);
  refresh := refresh (demo.env mailbox);
  from_client_config := from_client_config (demo.env mailbox);
  run_local_server := run_local_server (demo.env mailbox);
  to_json := to_json (demo.env mailbox);
  messages_list := λ _ _ _, listing;
  messages_get := messages_get (demo.env mailbox);
  attachments_get := attachments_get (demo.env mailbox);
  mime_head := mime_head (demo.env mailbox);
  mime_raw := mime_raw (demo.env mailbox);
  messages_send := λ _ _, sending;
  get_accounts := [];
  acquire_token_silent := Return None;
  acquire_token_for_client := Return [("access_token", JStr "eyJ.demo")];
  initiate_device_flow :=
    Return [("user_code", JStr "ABCD-1234");
            ("verification_uri", JStr "https://microsoft.com/devicelogin")];
  acquire_token_by_device_flow := λ _, Return [("access_token", JStr "eyJ.user")];
  requests_put := λ _ _ _, putting;
  zip_encode := zip_encode (demo.env mailbox)
|}.

(** [E] with a signed-in account whose silent acquisition answers [answer],
    and with [c] as what the token file parses to. *)
Definition signed_in (E : Env) (answer : option dict) (c : Credentials) : Env := {|
  settings := settings E;
  abspath := abspath E;
  gettempdir := gettempdir E;
  mkdtemp_name := mkdtemp_name E;
  int_of_str := int_of_str E;
  str_of_HTTPException := str_of_HTTPException E;
  repr_dict := repr_dict E;
  from_authorized_user_info := λ _, Return c;
  refresh := refresh E;
  from_client_config := from_client_config E;
  run_local_server := run_local_server E;
  to_json := to_json E;
  messages_list := messages_list E;
  messages_get := messages_get E;
  attachments_get := attachments_get E;
  mime_head := mime_head E;
  mime_raw := mime_raw E;
  messages_send := messages_send E;
  get_accounts := [JStr "user@example.com"];
  acquire_token_silent := Return answer;
  acquire_token_for_client := acquire_token_for_client E;
  initiate_device_flow := initiate_device_flow E;
  acquire_token_by_device_flow := acquire_token_by_device_flow E;
  requests_put := requests_put E;
  zip_encode := zip_encode E
|}.

(** Credentials that have run out and can be refreshed. *)
Definition stale : Credentials :=
  {| token := "ya29.old"; valid := false; expired := true;
     refresh_token := Some "1//demo" |}.

Definition with_secrets : world :=
  World {[ "credentials.json" := File "{installed: ...}" ]} [].
Definition token_and_secrets : world :=
  World {[ "token.json" := File "{token: ya29.old}";
           "credentials.json" := File "{installed: ...}" ]} [].

End scenario.

(** * Properties *)

(** ** The path functions on sample paths *)

Example splitext_ex1 : splitext "/tmp/w/report.pdf" = ("/tmp/w/report", ".pdf").
Proof. reflexivity. Qed.
Example splitext_ex2 : splitext "/tmp/w.d/.bashrc" = ("/tmp/w.d/.bashrc", "").
Proof. reflexivity. Qed.
Example splitext_ex3 : splitext "a.tar.gz" = ("a.tar", ".gz").
Proof. reflexivity. Qed.
Example splitext_ex4 : splitext "..a.b" = ("..a", ".b").
Proof. reflexivity. Qed.
Example dirname_ex1 : dirname "/tmp/w/sub/out.zip" = "/tmp/w/sub".
Proof. reflexivity. Qed.
Example dirname_ex2 : dirname "/out.zip" = "/".
Proof. reflexivity. Qed.
Example dirname_ex3 : dirname "out.zip" = "".
Proof. reflexivity. Qed.
Example basename_ex1 : basename "/tmp/w/sub/out.zip" = "out.zip".
Proof. reflexivity. Qed.
Example path_join_ex1 : path_join "/tmp/w" "out.zip" = "/tmp/w/out.zip".
Proof. reflexivity. Qed.
Example path_join_ex2 : path_join "/tmp/w" "/etc/x" = "/etc/x".
Proof. reflexivity. Qed.
Example ancestors_ex1 : ancestors "/tmp/w/sub" = ["/tmp"; "/tmp/w"; "/tmp/w/sub"].
Proof. reflexivity. Qed.
Example endswith_ex1 : endswith "files.zip" ".zip" = true.
Proof. reflexivity. Qed.

(** ** Running computations *)

Section monad_facts.
Context {A B : Type}.
Implicit Types (c : py A) (k : A → py B).

Lemma bind_Return c k w a w1 :
  c w = (Return a, w1) → bind c k w = k a w1.
Proof. unfold bind. by intros ->. Qed.

Lemma bind_Raise c k w e w1 :
  c w = (Raise e, w1) → bind c k w = (Raise e, w1).
Proof. unfold bind. by intros ->. Qed.

Lemma bind_inv c k w r w' :
  bind c k w = (r, w') →
  (∃ a w1, c w = (Return a, w1) ∧ k a w1 = (r, w')) ∨
  (∃ e, c w = (Raise e, w') ∧ r = Raise e).
Proof.
  unfold bind. destruct (c w) as [[a|e] w1]; intros H.
  - left. eauto.
  - right. exists e. by simplify_eq.
Qed.

Lemma bind_Return_inv c k w b w' :
  bind c k w = (Return b, w') →
  ∃ a w1, c w = (Return a, w1) ∧ k a w1 = (Return b, w').
Proof.
  intros [(a & w1 & ? & ?)|(e & ? & ?)]%bind_inv; [eauto | done].
Qed.

Lemma bind_ext c (k1 k2 : A → py B) w :
  (∀ a w1, k1 a w1 = k2 a w1) → bind c k1 w = bind c k2 w.
Proof. intros Hk. unfold bind. by destruct (c w) as [[a|e] w1]. Qed.

Lemma bind_assoc {C} c k (k' : B → py C) w :
  bind (bind c k) k' w = bind c (λ a, bind (k a) k') w.
Proof. unfold bind. by destruct (c w) as [[a|e] w1]. Qed.

End monad_facts.

(** ** C4: validation comes first *)


Lemma validate_required_first_absent pre r post data w :
  Forall (λ k, is_Some (data !! k)) pre →
  data !! r = None →
  server.validate_required (pre ++ r :: post) data w
  = (Raise (HTTPException 400 ("Missing required input: " +:+ r)), w).
Proof.
  intros Hpre Hr. induction Hpre as [|k pre [v Hv] _ IH]; simpl.
  - by rewrite Hr.
  - by rewrite Hv.
Qed.

Lemma validate_required_ok required data w :
  Forall (λ k, is_Some (data !! k)) required →
  server.validate_required required data w = (Return tt, w).
Proof.
  induction 1 as [|k rest [v Hv] _ IH]; simpl; [done | by rewrite Hv].
Qed.

(** The first absent field of a list of required fields. *)
Lemma first_absent_split (required : list string) (data : gmap string json) :
  Exists (λ k, data !! k = None) required →
  ∃ pre r post, required = pre ++ r :: post ∧
    Forall (λ k, is_Some (data !! k)) pre ∧ data !! r = None.
Proof.
  induction 1 as [k rest Hk|k rest _ (pre & r & post & -> & Hpre & Hr)].
  - exists [], k, rest. by repeat split.
  - destruct (data !! k) as [v|] eqn:Hk.
    + exists (k :: pre), r, post. repeat split; [|done].
      constructor; [by rewrite Hk | done].
    + exists [], k, (pre ++ r :: post). by repeat split.
Qed.

(** C4.  When some required input field of the requested tool is absent,
    [run_tool] raises the status-400 error "Missing required input: r" for the
    first absent field [r] of the tool's [required] list, and the world is
    left as it was: no external call is logged and no working directory is
    created. *)
Theorem missing_input_rejected_first (E : Env) (req : server.RunRequest)
    (required : list string) (w : world) :
  server.tool_required (server.tool req) server.TOOL_DEFINITIONS = Some required →
  Exists (λ k, server.input req !! k = None) required →
  ∃ pre r post,
    required = pre ++ r :: post ∧
    Forall (λ k, is_Some (server.input req !! k)) pre ∧
    server.input req !! r = None ∧
    server.run_tool E req w
    = (Raise (HTTPException 400 ("Missing required input: " +:+ r)), w).
Proof.
  intros Htool (pre & r & post & -> & Hpre & Hr)%first_absent_split.
  exists pre, r, post. repeat split; [done..|].
  unfold server.run_tool. rewrite Htool.
  erewrite bind_Raise; [done|].
  by apply validate_required_first_absent.
Qed.

Lemma missing_input_rejected_first_witness :
  let req := demo.request "send_zip_via_email"
               [("to", JStr "a@example.com"); ("subject", JStr "s");
                ("zip_path", JStr "z")] in
  ∃ pre r post,
    ["to"; "subject"; "body"; "zip_path"] = pre ++ r :: post ∧
    Forall (λ k, is_Some (server.input req !! k)) pre ∧
    server.input req !! r = None ∧
    server.run_tool (demo.env []) req demo.start
    = (Raise (HTTPException 400 ("Missing required input: " +:+ r)), demo.start).
Proof.
  intros req.
  apply (missing_input_rejected_first (demo.env []) req); [reflexivity|].
  do 2 apply Exists_cons_tl. apply Exists_cons_hd. vm_compute. reflexivity.
Defined.

(** ** C10 and C8: what the blanket handler returns *)

Lemma mkdtemp_inv E prefix w r w' :
  mkdtemp E prefix w = (r, w') →
  (∃ msg, mkdtemp_name E = inr msg ∧ r = Raise (OtherError "OSError" msg) ∧ w' = w) ∨
  (∃ name, mkdtemp_name E = inl name ∧
     r = Return (path_join (gettempdir E) (prefix +:+ name)) ∧
     w' = World (<[path_join (gettempdir E) (prefix +:+ name) := Dir]> (fs w))
            (trace w ++ [EvMkdtemp (path_join (gettempdir E) (prefix +:+ name))])).
Proof.
  unfold mkdtemp. destruct (mkdtemp_name E) as [name|msg]; intros H.
  - right. exists name. split; [done|]. by inversion H.
  - left. exists msg. by inversion H.
Qed.

(** Past validation: the handler and the cleanup around the body. *)
Lemma run_tool_past_validation E req required w work_dir w1 :
  server.tool_required (server.tool req) server.TOOL_DEFINITIONS = Some required →
  Forall (λ k, is_Some (server.input req !! k)) required →
  mkdtemp E "mcp_work_" w = (Return work_dir, w1) →
  server.run_tool E req w
  = match server.tool_body E (server.tool req) (server.input req) work_dir w1 with
    | (Return payload, w2) => (Return payload, rmtree_quiet work_dir w2)
    | (Raise e, w2) =>
        (Raise (HTTPException 500 ("Tool execution error: " +:+ py_str E e)),
         rmtree_quiet work_dir w2)
    end.
Proof.
  intros Htool Hreq Hmk. unfold server.run_tool. rewrite Htool.
  erewrite bind_Return; [|by apply validate_required_ok].
  erewrite bind_Return; [|done].
  unfold try_finally, try_except.
  by destruct (server.tool_body _ _ _ _ _) as [[payload|e] w2].
Qed.



(** C8, as the code has it.  When the body of a tool raises past input
    validation, the caller receives one error and no payload: a status-500
    [HTTPException] whose detail is the fixed text "Tool execution error: "
    followed by the message of the original exception.  The detail is built
    from the exception alone; no stage name is added.  The working directory
    is removed before the error leaves. *)
Theorem stage_failure_single_error (E : Env) (req : server.RunRequest)
    (required : list string) (w : world) (work_dir : string) (w1 : world)
    (e : exn) (w2 : world) :
  server.tool_required (server.tool req) server.TOOL_DEFINITIONS = Some required →
  Forall (λ k, is_Some (server.input req !! k)) required →
  mkdtemp E "mcp_work_" w = (Return work_dir, w1) →
  server.tool_body E (server.tool req) (server.input req) work_dir w1 = (Raise e, w2) →
  server.run_tool E req w
  = (Raise (HTTPException 500 ("Tool execution error: " +:+ py_str E e)),
     rmtree_quiet work_dir w2).
Proof.
  intros Htool Hreq Hmk Hbody.
  rewrite (run_tool_past_validation E req required w work_dir w1); [|done..].
  by rewrite Hbody.
Qed.


Lemma stage_failure_single_error_witness :
  ∃ w2,
    server.run_tool (demo.env []) demo.compress_missing demo.start
    = (Raise (HTTPException 500
                ("Tool execution error: " +:+
                 py_str (demo.env []) (FileNotFoundError "File does not exist: missing.txt"))),
       rmtree_quiet "/tmp/mcp_work_k3x9q2ab" w2).
Proof.
  eexists.
  eapply (stage_failure_single_error (demo.env []) demo.compress_missing
            ["local_paths"; "output_zip"] demo.start "/tmp/mcp_work_k3x9q2ab").
  - reflexivity.
  - repeat constructor; vm_compute; eauto.
  - vm_compute. reflexivity.
  - vm_compute. reflexivity.
Defined.

(** C8, as stated, fails: compressing a list that names a missing file fails
    in the archive stage, and the error the caller receives reads
    "Tool execution error: File does not exist: missing.txt", which names no
    stage. *)
Lemma stage_failure_names_no_stage :
  (server.run_tool (demo.env []) demo.compress_missing demo.start).1
  = Raise (HTTPException 500 "Tool execution error: File does not exist: missing.txt") ∧
  ¬ wrapped_with_stage Archive
      (server.run_tool (demo.env []) demo.compress_missing demo.start).1.
Proof.
  split; [vm_compute; reflexivity|].
  intros (status & detail & Hr & Hc).
  vm_compute in Hr. inversion Hr; subst. vm_compute in Hc. discriminate.
Qed.

(** ** Frame rules *)

Global Instance same_fs_preorder : PreOrder same_fs.
Proof. split; [done|]. intros w1 w2 w3. unfold same_fs. congruence. Qed.

Global Instance keeps_fs_preorder : PreOrder keeps_fs.
Proof.
  split; [intros w; unfold keeps_fs; reflexivity|].
  intros w1 w2 w3. unfold keeps_fs. intros ??. by etrans.
Qed.

Global Instance appends_preorder P : PreOrder (appends P).
Proof.
  split.
  - intros w. exists []. by rewrite app_nil_r.
  - intros w1 w2 w3 (e1 & H1 & F1) (e2 & H2 & F2). exists (e1 ++ e2).
    rewrite H2, H1, (assoc_L (++)). split; [done | by apply Forall_app].
Qed.

Section frame_rules.
Context (R : relation world) `{!PreOrder R}.

Lemma preserves_ret {A} (a : A) : preserves R (ret a).
Proof. intros w r w' H. by inversion H. Qed.

Lemma preserves_raise {A} e : preserves R (raise (A := A) e).
Proof. intros w r w' H. by inversion H. Qed.

Lemma preserves_lift {A} (o : outcome A) : preserves R (lift o).
Proof. intros w r w' H. by inversion H. Qed.

Lemma preserves_get_fs : preserves R get_fs.
Proof. intros w r w' H. by inversion H. Qed.

Lemma preserves_bind {A B} (c : py A) (k : A → py B) :
  preserves R c → (∀ a, preserves R (k a)) → preserves R (bind c k).
Proof.
  intros Hc Hk w r w' [(a & w1 & H1 & H2)|(e & H1 & _)]%bind_inv.
  - etrans; [by eapply Hc | by eapply Hk].
  - by eapply Hc.
Qed.

Lemma preserves_try_except {A} (c : py A) (h : exn → py A) :
  preserves R c → (∀ e, preserves R (h e)) → preserves R (try_except c h).
Proof.
  intros Hc Hh w r w'. unfold try_except.
  destruct (c w) as [[a|e] w1] eqn:H1; intros H2.
  - inversion H2; subst. by eapply Hc.
  - etrans; [by eapply Hc | by eapply Hh].
Qed.

Lemma preserves_type_error {A} what : preserves R (type_error (A := A) what).
Proof. apply preserves_raise. Qed.

End frame_rules.

Lemma same_fs_log ev : preserves same_fs (log ev).
Proof. intros w r w' H. by inversion H. Qed.

Lemma keeps_fs_log ev : preserves keeps_fs (log ev).
Proof. intros w r w' H. inversion H; subst. unfold keeps_fs. reflexivity. Qed.

Lemma appends_log (P : event → Prop) ev : P ev → preserves (appends P) (log ev).
Proof.
  intros HP w r w' H. inversion H; subst. exists [ev]. split; [done|].
  by constructor.
Qed.

Lemma appends_put_fs P m : preserves (appends P) (put_fs m).
Proof.
  intros w r w' H. inversion H; subst. exists []. by rewrite app_nil_r.
Qed.

Lemma keeps_fs_put_fresh p nd w :
  fs w !! p = None → keeps_fs w (World (<[p := nd]> (fs w)) (trace w)).
Proof. intros Hp. by apply insert_subseteq. Qed.

Create HintDb frame discriminated.
Global Hint Resolve preserves_ret preserves_raise preserves_lift preserves_get_fs
  preserves_type_error same_fs_log keeps_fs_log appends_put_fs : frame.
Global Hint Extern 1 (PreOrder _) => apply _ : frame.

(** Walks a computation built from [bind], handlers, conditionals and
    matches, leaving the leaves to the [frame] hints. *)
Ltac frame :=
  repeat first
    [ solve [eauto with frame]
    | apply preserves_bind; [apply _| |intros ?]
    | apply preserves_try_except; [apply _| |intros ?]
    | apply appends_log; solve [done | repeat split; done]
    | match goal with
      | |- preserves _ (match ?x with _ => _ end) => destruct x
      end ].

Lemma path_exists_frame R `{!PreOrder R} p : preserves R (path_exists p).
Proof. unfold path_exists. frame. Qed.

Lemma open_read_frame R `{!PreOrder R} p : preserves R (open_read p).
Proof. unfold open_read. intros w r w' H. unfold bind, get_fs in H.
  destruct (fs w !! p) as [[|data]|]; by inversion H.
Qed.

Lemma as_str_frame R `{!PreOrder R} v : preserves R (as_str v).
Proof. unfold as_str. frame. Qed.

Lemma as_list_frame R `{!PreOrder R} v : preserves R (as_list v).
Proof. unfold as_list. frame. Qed.

Lemma py_int_frame R `{!PreOrder R} E v : preserves R (py_int E v).
Proof. unfold py_int. frame. Qed.

Lemma getitem_frame R `{!PreOrder R} data k : preserves R (getitem data k).
Proof. unfold getitem. frame. Qed.

Global Hint Resolve path_exists_frame open_read_frame as_str_frame as_list_frame
  py_int_frame getitem_frame : frame.

Lemma open_write_appends P p data : preserves (appends P) (open_write p data).
Proof. unfold open_write. frame. Qed.
Global Hint Resolve open_write_appends : frame.

(** ** C7: the storage token is never written to disk *)

Lemma get_onedrive_access_token_same_fs E :
  preserves same_fs (onedrive_handler.get_onedrive_access_token E).
Proof. unfold onedrive_handler.get_onedrive_access_token, onedrive_handler.dict_of. frame. Qed.

(** C7, on the code.  Whenever [get_onedrive_access_token] returns a token,
    by the silent, the client-credentials or the device-code path, the file
    system is exactly as it was before the call: the token is handed to the
    caller without having been written to [MSAL_TOKEN_FILE] or anywhere
    else. *)
Theorem onedrive_token_not_persisted (E : Env) (w : world) (tok : dict) (w' : world) :
  onedrive_handler.get_onedrive_access_token E w = (Return tok, w') →
  fs w' = fs w.
Proof. apply get_onedrive_access_token_same_fs. Qed.

Lemma onedrive_token_not_persisted_witness :
  let E := demo.env [] in
  let res := onedrive_handler.get_onedrive_access_token E demo.start in
  res.1 = Return [("access_token", JStr "eyJ.demo")] ∧
  fs res.2 = fs demo.start ∧
  fs res.2 !! onedrive_handler.MSAL_TOKEN_PATH E = None.
Proof.
  intros E res.
  assert (fs res.2 = fs demo.start) as Hfs.
  { apply (onedrive_token_not_persisted E demo.start
             [("access_token", JStr "eyJ.demo")] res.2).
    vm_compute. reflexivity. }
  split; [vm_compute; reflexivity|]. split; [exact Hfs|].
  rewrite Hfs. vm_compute. reflexivity.
Defined.

(** The mail side does persist what its interactive flow obtains: a service
    is built either on credentials read from the token file, the world left
    untouched, or on credentials of a fresh local flow, which are then in the
    token file. *)
Lemma build_gmail_service_persists E w service w' :
  email_processor.build_gmail_service E w = (Return service, w') →
  ∃ c, credentials service = Some c ∧
    ((trace w' = trace w ∧ fs w' = fs w) ∨
     (trace w' = trace w ++ [EvOAuthLocalFlow] ∧
      fs w' = <[config.GOOGLE_TOKEN_FILE (settings E) := File (to_json E c)]> (fs w))).
Proof.
  unfold email_processor.build_gmail_service, email_processor.from_authorized_user_file,
    email_processor.from_client_secrets_file, email_processor.Request,
    path_exists, open_read, open_write, try_except,
    bind, ret, raise, lift, log, get_fs, put_fs.
  intros H.
  repeat (simplify_eq/=; try match goal with
    | H : context [match ?x with _ => _ end] |- _ => destruct x eqn:?
    end); simplify_eq/=; eauto 10.
Qed.

(** ** C1: the pipeline with no matching message *)

Lemma build_gmail_service_appends E :
  preserves (appends mail_read_only) (email_processor.build_gmail_service E).
Proof.
  unfold email_processor.build_gmail_service, email_processor.from_authorized_user_file,
    email_processor.from_client_secrets_file, email_processor.Request.
  frame.
Qed.

Lemma collect_found_appends E service messages found :
  preserves (appends mail_read_only)
    (email_processor.collect_found E service messages found).
Proof.
  revert found. induction messages as [|m rest IH]; intros found; simpl; frame.
Qed.

Lemma search_appends E service query max_results :
  preserves (appends mail_read_only)
    (email_processor.search_messages_with_attachments E service query max_results).
Proof.
  unfold email_processor.search_messages_with_attachments.
  pose proof (collect_found_appends E service). frame.
Qed.

Lemma getitem_Some (data : gmap string json) k v w :
  data !! k = Some v → getitem data k w = (Return v, w).
Proof. unfold getitem. by intros ->. Qed.

(** C1.  A full-pipeline invocation whose search returns no message answers
    with the success payload [{"status": "no_messages_found",
    "downloaded_files": []}]: the file field is the empty list and the payload
    carries nothing for the upload, archive and send fields.  Between the
    start of the invocation and its answer no token is requested from the
    storage provider, nothing is uploaded, no archive is written and no mail
    is sent. *)
Theorem pipeline_no_messages (E : Env) (req : server.RunRequest) (w : world)
    (work_dir : string) (w1 : world) (query : string) (mr : json) (max_results : Z)
    (service : Service) (w2 w3 : world) :
  server.tool req = "orchestrate_full_pipeline" →
  Forall (λ k, is_Some (server.input req !! k))
    ["query"; "max_results"; "onedrive_folder"; "recipient_email"; "zip_name"] →
  server.input req !! "query" = Some (JStr query) →
  server.input req !! "max_results" = Some mr →
  mkdtemp E "mcp_work_" w = (Return work_dir, w1) →
  py_int E mr w1 = (Return max_results, w1) →
  email_processor.build_gmail_service E w1 = (Return service, w2) →
  email_processor.search_messages_with_attachments E service query max_results w2
  = (Return [], w3) →
  let payload := [("status", JStr "no_messages_found"); ("downloaded_files", JList [])] in
  server.run_tool E req w = (Return payload, rmtree_quiet work_dir w3) ∧
  dict_get "downloaded_files" payload = Some (JList []) ∧
  Forall (λ k, dict_get k payload = None) ["uploaded"; "zip_path"; "send_result"] ∧
  ∃ evs, trace (rmtree_quiet work_dir w3) = trace w ++ evs ∧
    Forall (λ ev, is_token_acquisition ev = false ∧ is_storage_upload ev = false ∧
                  is_archive ev = false ∧ is_send ev = false) evs.
Proof.
  intros Htool Hreq Hq Hmr Hmk Hint Hbuild Hsearch payload.
  split; [|split; [done|split; [by repeat constructor|]]].
  - erewrite (run_tool_past_validation E req) by (by rewrite ?Htool).
    rewrite Htool. unfold server.tool_body. simpl (String.eqb _ _).
    cbv iota.
    erewrite bind_Return; [|by apply getitem_Some].
    erewrite bind_Return; [|by apply getitem_Some].
    erewrite bind_Return; [|done].
    apply Forall_cons in Hreq as [_ Hreq]. apply Forall_cons in Hreq as [_ Hreq].
    apply Forall_cons in Hreq as [[v1 Hv1] Hreq].
    apply Forall_cons in Hreq as [[v2 Hv2] Hreq].
    apply Forall_cons in Hreq as [[v3 Hv3] _].
    erewrite bind_Return; [|by apply getitem_Some].
    erewrite bind_Return; [|by apply getitem_Some].
    erewrite bind_Return; [|by apply getitem_Some].
    erewrite bind_Return; [|done].
    erewrite bind_Return; [|done].
    erewrite bind_Return; [|done].
    done.
  - assert (appends mail_read_only w w3) as (evs & Hevs & Hall).
    { trans w1; [|trans w2].
      - apply mkdtemp_inv in Hmk as [(? & ? & ? & ?)|(name & _ & _ & ->)]; [done|].
        exists [EvMkdtemp (path_join (gettempdir E) ("mcp_work_" +:+ name))].
        split; [done|]. by repeat constructor.
      - by eapply build_gmail_service_appends.
      - by eapply search_appends. }
    exists (evs ++ [EvRmtree work_dir]). simpl. rewrite Hevs, (assoc_L (++)).
    split; [done|]. apply Forall_app. split; [done|]. by repeat constructor.
Qed.

Lemma pipeline_no_messages_witness :
  let E := demo.env [] in
  let wd := "/tmp/mcp_work_k3x9q2ab" in
  let w1 := (mkdtemp E "mcp_work_" demo.start).2 in
  let w3 := (email_processor.search_messages_with_attachments E
               {| credentials := Some demo.creds |}
               "has:attachment from:a@example.com" 10 w1).2 in
  server.run_tool E demo.pipeline demo.start
  = (Return [("status", JStr "no_messages_found"); ("downloaded_files", JList [])],
     rmtree_quiet wd w3).
Proof.
  intros E wd w1 w3.
  apply (pipeline_no_messages E demo.pipeline demo.start wd w1
           "has:attachment from:a@example.com" (JInt 10) 10
           {| credentials := Some demo.creds |} w1 w3).
  - reflexivity.
  - repeat constructor; vm_compute; eauto.
  - vm_compute. reflexivity.
  - vm_compute. reflexivity.
  - vm_compute. reflexivity.
  - reflexivity.
  - vm_compute. reflexivity.
  - vm_compute. reflexivity.
Defined.

(** ** C2: a missing local path in the upload tool *)

Lemma upload_local_paths_app E token remote_folder l1 l2 uploaded w :
  server.upload_local_paths E token remote_folder (l1 ++ l2) uploaded w
  = bind (server.upload_local_paths E token remote_folder l1 uploaded)
      (λ uploaded', server.upload_local_paths E token remote_folder l2 uploaded') w.
Proof.
  revert uploaded w. induction l1 as [|lp l1 IH]; intros uploaded w; [done|].
  simpl. rewrite bind_assoc. apply bind_ext. intros s w1.
  rewrite bind_assoc. apply bind_ext. intros b w2.
  destruct (negb b); [done|].
  rewrite bind_assoc. apply bind_ext. intros f w3.
  rewrite bind_assoc. apply bind_ext. intros res w4. apply IH.
Qed.

(** A token is never returned without a request for it having been made. *)
Lemma get_onedrive_access_token_requests E w tok w' :
  onedrive_handler.get_onedrive_access_token E w = (Return tok, w') →
  ∃ evs, trace w' = trace w ++ evs ∧
    Exists (λ ev, is_token_acquisition ev = true) evs.
Proof.
  unfold onedrive_handler.get_onedrive_access_token, onedrive_handler.dict_of,
    type_error, bind, ret, raise, lift, log.
  intros H.
  repeat (simplify_eq/=; try match goal with
    | H : context [match ?x with _ => _ end] |- _ => destruct x eqn:?
    end); simplify_eq/=;
  rewrite <- ?(assoc_L (++)); eexists; (split; [done|]);
    simpl; repeat constructor.
Qed.

(** C2, as the code has it.  In an upload invocation the storage token is
    requested first.  If that succeeds, the paths are taken in order; when the
    paths before a given one have been uploaded and that one, made absolute,
    does not exist, the body raises the status-400 "Local file not found"
    error naming it, which the caller receives wrapped in the status-500 tool
    error.  No upload request is made for the missing path or for any path
    after it: the log ends with the uploads of the earlier paths and the
    removal of the working directory. *)
Theorem upload_missing_path_after_token (E : Env) (req : server.RunRequest) (w : world)
    (work_dir : string) (w1 : world) (token : dict) (w2 : world)
    (remote_folder : json) (pre : list string) (lp : string) (post : list string)
    (uploaded : list json) (w3 : world) :
  server.tool req = "upload_to_onedrive" →
  server.input req !! "local_paths" = Some (JList (JStr <$> pre ++ lp :: post)) →
  server.input req !! "remote_folder_path" = Some remote_folder →
  mkdtemp E "mcp_work_" w = (Return work_dir, w1) →
  onedrive_handler.get_onedrive_access_token E w1 = (Return token, w2) →
  server.upload_local_paths E token remote_folder (JStr <$> pre) [] w2
  = (Return uploaded, w3) →
  let lp' := if negb (isabs lp) then abspath E lp else lp in
  exists_in (fs w3) lp' = false →
  server.run_tool E req w
  = (Raise (HTTPException 500
       ("Tool execution error: " +:+
        py_str E (HTTPException 400 ("Local file not found: " +:+ lp')))),
     rmtree_quiet work_dir w3) ∧
  (∃ evs, trace w2 = trace w1 ++ evs ∧
     Exists (λ ev, is_token_acquisition ev = true) evs) ∧
  trace (rmtree_quiet work_dir w3) = trace w3 ++ [EvRmtree work_dir].
Proof.
  intros Htool Hlps Hrf Hmk Htok Hpre lp' Hlp.
  split; [|split; [by eapply get_onedrive_access_token_requests | done]].
  erewrite (run_tool_past_validation E req ["local_paths"; "remote_folder_path"]);
    [|by rewrite Htool|by repeat constructor; rewrite ?Hlps, ?Hrf|done].
  rewrite Htool. unfold server.tool_body. simpl (String.eqb _ _). cbv iota.
  erewrite bind_Return; [|by apply getitem_Some].
  erewrite bind_Return; [|by apply getitem_Some].
  erewrite bind_Return; [|done].
  erewrite bind_Return; [|done].
  erewrite bind_Raise; [done|].
  rewrite fmap_app, upload_local_paths_app.
  erewrite bind_Return; [|done].
  rewrite fmap_cons. simpl. unfold as_str at 1.
  erewrite bind_Return; [|done].
  fold lp'. unfold path_exists, get_fs.
  erewrite bind_Return; [|by erewrite bind_Return].
  by rewrite Hlp.
Qed.

Lemma upload_missing_path_after_token_witness :
  let E := demo.env [] in
  let wd := "/tmp/mcp_work_k3x9q2ab" in
  let w1 := (mkdtemp E "mcp_work_" demo.start).2 in
  let w2 := (onedrive_handler.get_onedrive_access_token E w1).2 in
  server.run_tool E demo.upload_missing demo.start
  = (Raise (HTTPException 500
       "Tool execution error: 400: Local file not found: /nope.txt"),
     rmtree_quiet wd w2) ∧
  (∃ evs, trace w2 = trace w1 ++ evs ∧
     Exists (λ ev, is_token_acquisition ev = true) evs) ∧
  trace (rmtree_quiet wd w2) = trace w2 ++ [EvRmtree wd].
Proof.
  intros E wd w1 w2.
  apply (upload_missing_path_after_token E demo.upload_missing demo.start wd w1
           [("access_token", JStr "eyJ.demo")] w2 (JStr "Docs") [] "/nope.txt" [] [] w2).
  - reflexivity.
  - vm_compute. reflexivity.
  - vm_compute. reflexivity.
  - vm_compute. reflexivity.
  - vm_compute. reflexivity.
  - reflexivity.
  - vm_compute. reflexivity.
Defined.

(** C2, as stated, fails: the upload of a path that does not exist ends in
    the local-file-not-found error, but the log of the invocation shows the
    client-credentials token request made before it. *)
Lemma upload_missing_path_network_first :
  let res := server.run_tool (demo.env []) demo.upload_missing demo.start in
  res.1 = Raise (HTTPException 500
                   "Tool execution error: 400: Local file not found: /nope.txt") ∧
  trace res.2 = [EvMkdtemp "/tmp/mcp_work_k3x9q2ab"; EvMsalClientCredentials;
                 EvRmtree "/tmp/mcp_work_k3x9q2ab"] ∧
  ¬ Forall (λ ev, is_network ev = false) (trace res.2).
Proof.
  intros res. split; [vm_compute; reflexivity|].
  assert (trace res.2 = [EvMkdtemp "/tmp/mcp_work_k3x9q2ab"; EvMsalClientCredentials;
                         EvRmtree "/tmp/mcp_work_k3x9q2ab"]) as Htr
    by (vm_compute; reflexivity).
  split; [done|]. rewrite Htr. intros Hall.
  apply Forall_cons in Hall as [_ Hall]. apply Forall_cons in Hall as [Hnet _].
  discriminate.
Qed.

(** ** C3: compressing a list that names a missing file *)

Global Instance keeps_paths_preorder : PreOrder keeps_paths.
Proof. split; [by intros w p|]. intros w1 w2 w3 H12 H23 p Hp. auto. Qed.

Lemma exists_in_insert m p nd q :
  exists_in (<[p := nd]> m) q = true ↔ q = p ∨ exists_in m q = true.
Proof.
  unfold exists_in. rewrite !bool_decide_eq_true, lookup_insert_is_Some.
  destruct (decide (p = q)) as [->|Hne].
  - split; intros _; by left.
  - split; [intros [?|[_ ?]]; [done | by right] | intros [->|?]; [done | by right]].
Qed.

Lemma exists_in_insert_present m p nd q :
  exists_in m p = true → exists_in (<[p := nd]> m) q = exists_in m q.
Proof.
  intros Hp. apply eq_true_iff_eq. rewrite exists_in_insert.
  split; [intros [->|?]; done | auto].
Qed.

Lemma keeps_paths_put_fs m' :
  (∀ w p, exists_in (fs w) p = true → exists_in m' p = true) →
  preserves keeps_paths (put_fs m').
Proof. intros Hm w r w' H p Hp. inversion H; subst. simpl. eauto. Qed.

Lemma open_write_inv p data w r w' :
  open_write p data w = (r, w') →
  (∃ e, r = Raise e ∧ w' = w) ∨
  (r = Return tt ∧ w' = World (<[p := File data]> (fs w)) (trace w) ∧
   is_dir_in (fs w) p = false ∧ parent_ok (fs w) p = true).
Proof.
  unfold open_write, bind, get_fs, put_fs, raise.
  destruct (is_dir_in (fs w) p) eqn:Hd; simpl.
  { intros H; inversion H; eauto. }
  destruct (str_empty (basename p)); simpl.
  { intros H; inversion H; eauto. }
  destruct (parent_ok (fs w) p); simpl; [|intros H; inversion H; eauto].
  destruct (String.eqb (basename p) "." || String.eqb (basename p) "..");
    intros H; inversion H; eauto.
Qed.

Lemma open_write_keeps_paths p data : preserves keeps_paths (open_write p data).
Proof.
  intros w r w' Hw q Hq.
  apply open_write_inv in Hw as [(e & _ & ->)|(_ & -> & _)]; [done|].
  simpl. apply exists_in_insert. by right.
Qed.

Lemma makedirs_go_keeps ds :
  preserves keeps_fs (makedirs_go ds) ∧ preserves keeps_paths (makedirs_go ds).
Proof.
  induction ds as [|d ds [IH1 IH2]]; simpl; split; try solve [frame].
  - intros w r w'. unfold bind at 1, get_fs.
    destruct (fs w !! d) as [[|data]|] eqn:Hd.
    + apply IH1.
    + intros H; inversion H; subst. reflexivity.
    + unfold bind, put_fs. intros H. trans (World (<[d := Dir]> (fs w)) (trace w)).
      * by apply keeps_fs_put_fresh.
      * by eapply IH1.
  - intros w r w'. unfold bind at 1, get_fs.
    destruct (fs w !! d) as [[|data]|] eqn:Hd.
    + apply IH2.
    + intros H; inversion H; subst. reflexivity.
    + unfold bind, put_fs. intros H. trans (World (<[d := Dir]> (fs w)) (trace w)).
      * intros q Hq. simpl. apply exists_in_insert. by right.
      * by eapply IH2.
Qed.

Lemma makedirs_inv d w r w' :
  makedirs d w = (r, w') →
  (str_empty d = true ∧ w' = w ∧ ∃ msg, r = Raise (FileNotFoundError msg)) ∨
  (str_empty d = false ∧ makedirs_go (ancestors d) w = (r, w')).
Proof.
  unfold makedirs. destruct (str_empty d); [|by right].
  intros H; inversion H; subst. left. eauto.
Qed.

Lemma makedirs_keeps_fs d : preserves keeps_fs (makedirs d).
Proof.
  intros w r w' [(_ & -> & _)|[_ H]]%makedirs_inv; [reflexivity|].
  by eapply makedirs_go_keeps.
Qed.

Lemma makedirs_keeps_paths d : preserves keeps_paths (makedirs d).
Proof.
  intros w r w' [(_ & -> & _)|[_ H]]%makedirs_inv; [reflexivity|].
  by eapply makedirs_go_keeps.
Qed.

Lemma ZipFile_open_inv E path w zf w' :
  ZipFile_open E path w = (Return zf, w') →
  zf = [] ∧
  w' = World (<[path := File (zip_encode E [])]> (fs w)) (trace w ++ [EvZipOpen path]) ∧
  is_dir_in (fs w) path = false.
Proof.
  unfold ZipFile_open. intros ([] & w1 & Hlog & H)%bind_Return_inv.
  apply bind_Return_inv in H as ([] & w2 & Hopen & H).
  inversion Hlog; subst. inversion H; subst.
  by apply open_write_inv in Hopen as [(e & ? & _)|(_ & -> & ? & _)].
Qed.

(** Writing files that are there into an archive that is open: every write
    succeeds, the archive stays a file and no path appears or disappears. *)
Lemma write_files_existing E out l rest zf w data :
  fs w !! out = Some (File data) →
  Forall (λ p, exists_in (fs w) p = true) l →
  ∃ zf' w' data',
    file_compressor.write_files E out (l ++ rest) zf w
    = file_compressor.write_files E out rest zf' w' ∧
    fs w' !! out = Some (File data') ∧
    (∀ p, exists_in (fs w') p = exists_in (fs w) p) ∧
    (∀ p, p ≠ out → fs w' !! p = fs w !! p).
Proof.
  intros Hout Hl. revert zf w data Hout Hl.
  induction l as [|f l IH]; intros zf w data Hout Hl.
  { by exists zf, w, data. }
  apply Forall_cons in Hl as [Hf Hl].
  assert (exists_in (fs w) out = true) as Hex.
  { unfold exists_in. apply bool_decide_eq_true. by rewrite Hout. }
  pose proof Hf as Hf'. unfold exists_in in Hf'.
  apply bool_decide_eq_true in Hf' as [nd Hnd].
  set (entry := match nd with
                | File d => (basename f, d)
                | Dir => (basename f +:+ "/", EmptyString)
                end).
  set (w1 := World (<[out := File (zip_encode E (zf ++ [entry]))]> (fs w))
               (trace w ++ [EvZipWrite f (basename f)])).
  destruct (IH (zf ++ [entry]) w1 (zip_encode E (zf ++ [entry])))
    as (zf' & w' & data' & Hrun & Hout' & Hsame & Hframe).
  { simpl. apply lookup_insert_eq. }
  { eapply Forall_impl; [exact Hl|]. intros p Hp. simpl.
    by rewrite exists_in_insert_present. }
  exists zf', w', data'. split; [|split; [done|split]].
  - rewrite <- Hrun. simpl.
    unfold path_exists. erewrite bind_Return; [|by erewrite bind_Return].
    rewrite Hf. simpl.
    erewrite bind_Return; [done|].
    unfold zf_write, bind, log, get_fs, put_fs, ret. simpl. by rewrite Hnd.
  - intros p. rewrite Hsame. simpl. by rewrite exists_in_insert_present.
  - intros p Hp. rewrite Hframe by done. simpl. by rewrite lookup_insert_ne.
Qed.

(** C3, as the code has it.  [compress_files] first creates the output
    directory and the archive file, then takes the input paths in order.  If
    those two steps succeed and some input path does not exist once they are
    done, the call fails with a [FileNotFoundError] naming the first such
    path; the archive file has been produced by then and is left at the output
    path. *)
Theorem compress_missing_source (E : Env) (pre : list string) (f : string)
    (post : list string) (output_zip : string) (w w0 : world)
    (zf : list (string * string)) (w1 : world) :
  makedirs (let d := dirname output_zip in if str_empty d then "." else d) w
  = (Return tt, w0) →
  ZipFile_open E output_zip w0 = (Return zf, w1) →
  Forall (λ p, exists_in (fs w1) p = true) pre →
  exists_in (fs w1) f = false →
  ∃ w2 data,
    file_compressor.compress_files E (pre ++ f :: post) output_zip w
    = (Raise (FileNotFoundError ("File does not exist: " +:+ f)), w2) ∧
    fs w2 !! output_zip = Some (File data).
Proof.
  intros Hmk Hopen Hpre Hf.
  pose proof (ZipFile_open_inv _ _ _ _ _ Hopen) as (-> & Hw1 & _).
  destruct (write_files_existing E output_zip pre (f :: post) [] w1 (zip_encode E []))
    as (zf' & w2 & data & Hrun & Hout & Hsame & _); [|done|].
  { subst w1. simpl. apply lookup_insert_eq. }
  exists w2, data. split; [|done].
  unfold file_compressor.compress_files.
  erewrite bind_Return; [|done]. erewrite bind_Return; [|done].
  rewrite Hrun. simpl.
  unfold path_exists. erewrite bind_Return; [|by erewrite bind_Return].
  by rewrite Hsame, Hf.
Qed.

Lemma compress_missing_source_witness :
  let E := demo.env [] in
  ∃ w2 data,
    file_compressor.compress_files E (["token.json"] ++ "gone.txt" :: ["later.txt"])
      "out/files.zip" demo.start
    = (Raise (FileNotFoundError ("File does not exist: " +:+ "gone.txt")), w2) ∧
    fs w2 !! "out/files.zip" = Some (File data).
Proof.
  intros E.
  eapply (compress_missing_source E ["token.json"] "gone.txt" ["later.txt"]
            "out/files.zip" demo.start).
  - vm_compute. reflexivity.
  - vm_compute. reflexivity.
  - repeat constructor.
  - vm_compute. reflexivity.
Defined.

(** C3, as stated, fails: compressing the single missing file "missing.txt"
    into "out.zip" raises the error naming it, and an archive file is at
    "out.zip" afterwards. *)
Lemma compress_missing_leaves_archive :
  let res := file_compressor.compress_files (demo.env []) ["missing.txt"] "out.zip"
               demo.start in
  fs demo.start !! "out.zip" = None ∧
  res.1 = Raise (FileNotFoundError "File does not exist: missing.txt") ∧
  ¬ (fs res.2 !! "out.zip" = None).
Proof.
  intros res. split; [vm_compute; reflexivity|]. split; [vm_compute; reflexivity|].
  intros H. vm_compute in H. discriminate.
Qed.

(** ** C9: the archive of the compress tool is gone when the answer leaves *)

Lemma startswith_app (a b : string) : startswith (a +:+ b) a = true.
Proof.
  induction a as [|c a IH]; [done|]. simpl.
  by rewrite Ascii.eqb_refl, IH.
Qed.

Lemma app_nonempty_l (a b : string) : str_empty a = false → str_empty (a +:+ b) = false.
Proof. by destruct a. Qed.

Lemma dir_prefix_nonempty a : str_empty (dir_prefix a) = false.
Proof.
  unfold dir_prefix. destruct (endswith a "/") eqn:He.
  - by destruct a.
  - by destruct a.
Qed.

Lemma path_join_relative a b :
  str_empty a = false → isabs b = false → path_join a b = dir_prefix a +:+ b.
Proof. unfold path_join. by intros -> ->. Qed.

Lemma under_path_join d rel :
  str_empty d = false → isabs rel = false → under d (path_join d rel) = true.
Proof.
  intros Hd Hrel. rewrite path_join_relative by done.
  unfold under. rewrite startswith_app. apply orb_true_r.
Qed.

Lemma mkdtemp_nonempty E w work_dir w1 :
  mkdtemp E "mcp_work_" w = (Return work_dir, w1) → str_empty work_dir = false.
Proof.
  intros [(? & ? & ? & ?)|(name & _ & Hr & _)]%mkdtemp_inv; [done|].
  inversion Hr. unfold path_join.
  change ("mcp_work_" +:+ name) with (String "m" ("cp_work_" +:+ name)).
  simpl. destruct (str_empty (gettempdir E)); [done|].
  apply app_nonempty_l, dir_prefix_nonempty.
Qed.

Lemma mkdtemp_keeps_paths E prefix : preserves keeps_paths (mkdtemp E prefix).
Proof.
  intros w r w' [(? & _ & _ & ->)|(name & _ & _ & ->)]%mkdtemp_inv p Hp; [done|].
  simpl. apply exists_in_insert. by right.
Qed.

Lemma rmtree_quiet_removes d w p :
  fs w !! d = Some Dir → under d p = true → fs (rmtree_quiet d w) !! p = None.
Proof.
  intros Hd Hp. unfold rmtree_quiet, is_dir_in. simpl. rewrite Hd.
  apply map_lookup_filter_None. right. intros nd _. simpl. by rewrite Hp.
Qed.

Lemma as_str_list_go_strs (paths : list string) w :
  as_str_list_go (JStr <$> paths) w = (Return paths, w).
Proof.
  induction paths as [|p paths IH]; [done|]. simpl.
  erewrite bind_Return; [|done].
  erewrite bind_Return; [|exact IH]. done.
Qed.

Lemma as_str_list_strs (paths : list string) w :
  as_str_list (JList (JStr <$> paths)) w = (Return paths, w).
Proof. unfold as_str_list, as_list. erewrite bind_Return; [|done]. apply as_str_list_go_strs. Qed.

(** ** C5: the uniqueness loop *)

Lemma string_app_cons a (s t : string) : String a s +:+ t = String a (s +:+ t).
Proof. done. Qed.

Lemma string_app_length (s t : string) :
  String.length (s +:+ t) = (String.length s + String.length t)%nat.
Proof. induction s as [|a s IH]; [done|]. rewrite string_app_cons. simpl. by rewrite IH. Qed.

Lemma string_app_inj_r (s1 s2 t : string) : s1 +:+ t = s2 +:+ t → s1 = s2.
Proof.
  revert s2. induction s1 as [|a s1 IH]; intros [|b s2] H.
  - done.
  - apply (f_equal String.length) in H.
    rewrite !string_app_length in H. simpl in H. lia.
  - apply (f_equal String.length) in H.
    rewrite !string_app_length in H. simpl in H. lia.
  - rewrite !string_app_cons in H. injection H as -> H. f_equal. by apply IH.
Qed.

Lemma candidate_inj base ext :
  Inj (=) (=) (λ i : nat, base +:+ "_" +:+ pretty i +:+ ext).
Proof.
  intros i j H. apply (inj (String.app base)) in H.
  apply (inj (String.app "_")) in H. apply string_app_inj_r in H.
  by apply (inj pretty) in H.
Qed.

(** What the loop returns: a free path, which is the first path tried or
    comes after an unbroken run of taken candidates. *)
Lemma unique_loop_Some fuel m base ext p i q :
  email_processor.unique_loop fuel m base ext p i = Some q →
  exists_in m q = false ∧
  ((exists_in m p = false ∧ q = p) ∨
   (exists_in m p = true ∧ ∃ j, (i ≤ j)%nat ∧ q = base +:+ "_" +:+ pretty j +:+ ext ∧
      ∀ k, (i ≤ k < j)%nat → exists_in m (base +:+ "_" +:+ pretty k +:+ ext) = true)).
Proof.
  revert p i. induction fuel as [|fuel IH]; intros p i H; [done|].
  simpl in H. destruct (exists_in m p) eqn:Hp.
  - apply IH in H as [Hq [[Hfree ->]|(Hc & j & Hj & -> & Hrun)]].
    + split; [done|]. right. split; [done|]. exists i. split; [lia|].
      split; [done|]. intros k Hk. lia.
    + split; [done|]. right. split; [done|]. exists j. split; [lia|].
      split; [done|]. intros k Hk.
      destruct (decide (k = i)) as [->|Hne]; [done|]. apply Hrun. lia.
  - inversion H; subst. split; [done|]. by left.
Qed.

(** When the fuel runs out, every candidate tried was taken. *)
Lemma unique_loop_None fuel m base ext p i :
  email_processor.unique_loop (S fuel) m base ext p i = None →
  ∀ k, (i ≤ k < i + fuel)%nat →
    exists_in m (base +:+ "_" +:+ pretty k +:+ ext) = true.
Proof.
  revert p i. induction fuel as [|fuel IH]; intros p i H k Hk; [lia|].
  simpl in H. destruct (exists_in m p) eqn:Hp; [|done].
  destruct (exists_in m (base +:+ "_" +:+ pretty i +:+ ext)) eqn:Hc; [|done].
  destruct (decide (k = i)) as [->|Hne]; [done|].
  apply (IH (base +:+ "_" +:+ pretty i +:+ ext) (S i)); [|lia].
  simpl. by rewrite Hc.
Qed.

(** The loop ends: a directory of [size m] entries cannot hold
    [size m + 1] different candidates. *)
Lemma unique_loop_terminates m base ext p i :
  ∃ q, email_processor.unique_loop (2 + size m) m base ext p i = Some q.
Proof.
  destruct (email_processor.unique_loop (2 + size m) m base ext p i) as [q|] eqn:H;
    [by exists q|].
  exfalso. pose proof (unique_loop_None _ _ _ _ _ _ H) as Hall.
  set (cand := λ k : nat, base +:+ "_" +:+ pretty k +:+ ext) in *.
  set (l := cand <$> seq i (S (size m))).
  assert (NoDup l) as Hnd.
  { apply (NoDup_fmap_2 _ (Inj0 := candidate_inj base ext)), NoDup_seq. }
  assert (list_to_set l ⊆ dom m) as Hsub.
  { intros x Hx. apply elem_of_list_to_set, list_elem_of_fmap in Hx as (k & -> & Hk).
    apply elem_of_seq in Hk. apply elem_of_dom.
    specialize (Hall k ltac:(lia)). unfold exists_in in Hall.
    by apply bool_decide_eq_true in Hall. }
  apply subseteq_size in Hsub.
  rewrite size_list_to_set, size_dom in Hsub by done.
  unfold l in Hsub. rewrite length_fmap, length_seq in Hsub. lia.
Qed.

Lemma unique_path_spec m p :
  let q := email_processor.unique_path m p in
  exists_in m q = false ∧
  ((exists_in m p = false ∧ q = p) ∨
   (exists_in m p = true ∧ ∃ j, (1 ≤ j)%nat ∧ q = numbered p j ∧
      ∀ k, (1 ≤ k < j)%nat → exists_in m (numbered p k) = true)).
Proof.
  unfold email_processor.unique_path, numbered.
  destruct (splitext p) as [base ext].
  destruct (unique_loop_terminates m base ext p 1) as [q Hq]. rewrite Hq. simpl.
  by apply unique_loop_Some in Hq.
Qed.

Lemma unique_path_free m p : m !! email_processor.unique_path m p = None.
Proof.
  pose proof (unique_path_spec m p) as [Hfree _].
  unfold exists_in in Hfree. apply bool_decide_eq_false in Hfree.
  by apply eq_None_not_Some.
Qed.

(** ** C5 and C6: what the download loop writes *)

Lemma saved_as_weaken E service folder w0 w w' w1 path att :
  keeps_fs w0 w → keeps_fs w' w1 →
  saved_as E service folder w w' path att → saved_as E service folder w0 w1 path att.
Proof.
  unfold saved_as, keeps_fs. destruct att as [[mid aid] name].
  intros H0 H1 (data & m & Hget & Hfile & Hm & Hm' & Hfree & Hpath).
  exists data, m. repeat split; [done| |by etrans|by etrans|done..].
  by eapply lookup_weaken.
Qed.

Lemma saved_as_exists E service folder w w' path att :
  saved_as E service folder w w' path att → is_Some (fs w' !! path).
Proof. destruct att as [[mid aid] name]. intros (data & m & _ & -> & _). eauto. Qed.

Lemma saved_as_fresh E service folder w w' path att :
  saved_as E service folder w w' path att → fs w !! path = None.
Proof.
  destruct att as [[mid aid] name]. intros (data & m & _ & _ & Hm & _ & Hfree & _).
  by eapply lookup_weaken_None.
Qed.

Lemma saved_as_all_exist E service folder w w' new atts :
  Forall2 (saved_as E service folder w w') new atts →
  Forall (λ p, is_Some (fs w' !! p)) new.
Proof. induction 1; constructor; [by eapply saved_as_exists | done]. Qed.

Lemma saved_as_all_fresh E service folder w w' new atts :
  Forall2 (saved_as E service folder w w') new atts →
  Forall (λ p, fs w !! p = None) new.
Proof. induction 1; constructor; [by eapply saved_as_fresh | done]. Qed.

(** Two consecutive runs of the loop. *)
Lemma saved_as_app E service folder w w1 w2 new1 new2 atts1 atts2 :
  keeps_fs w w1 → keeps_fs w1 w2 →
  Forall2 (saved_as E service folder w w1) new1 atts1 →
  Forall2 (saved_as E service folder w1 w2) new2 atts2 →
  NoDup new1 → NoDup new2 →
  Forall2 (saved_as E service folder w w2) (new1 ++ new2) (atts1 ++ atts2) ∧
  NoDup (new1 ++ new2).
Proof.
  intros H1 H2 F1 F2 N1 N2. split.
  - apply Forall2_app.
    + eapply Forall2_impl; [exact F1|]. intros p a. by apply saved_as_weaken.
    + eapply Forall2_impl; [exact F2|]. intros p a. by apply saved_as_weaken.
  - apply NoDup_app. split; [done|]. split; [|done].
    intros p Hp1 Hp2.
    apply saved_as_all_exist in F1. apply saved_as_all_fresh in F2.
    rewrite Forall_forall in F1, F2.
    specialize (F1 p Hp1). specialize (F2 p Hp2). rewrite F2 in F1.
    by destruct F1.
Qed.

Lemma attachments_of_parts_cons mid part ps :
  attachments_of_parts mid (part :: ps)
  = attachments_of_parts mid [part] ++ attachments_of_parts mid ps.
Proof. unfold attachments_of_parts. simpl. by rewrite app_nil_r. Qed.

Lemma save_part_spec E service mid folder part saved w saved' w' :
  email_processor.save_part E service mid folder part saved w = (Return saved', w') →
  keeps_fs w w' ∧
  ∃ new, saved' = saved ++ new ∧
    Forall2 (saved_as E service folder w w') new (attachments_of_parts mid [part]) ∧
    NoDup new.
Proof.
  unfold email_processor.save_part, attachments_of_parts. simpl.
  destruct (str_empty (filename part)); simpl.
  { intros H; inversion H; subst. split; [reflexivity|]. exists [].
    rewrite app_nil_r. repeat split; constructor. }
  destruct (attachmentId part) as [aid|]; simpl.
  2: { intros H; inversion H; subst. split; [reflexivity|]. exists [].
       rewrite app_nil_r. repeat split; constructor. }
  intros H.
  apply bind_Return_inv in H as ([] & w1 & Hlog & H).
  apply bind_Return_inv in H as (data & w2 & Hget & H).
  apply bind_Return_inv in H as (m & w3 & Hm & H).
  apply bind_Return_inv in H as ([] & w4 & Hopen & H).
  inversion Hlog; subst w1; clear Hlog.
  unfold lift in Hget. inversion Hget as [[Hdata Hw2]]; subst w2; clear Hget.
  inversion Hm; subst m w3; clear Hm. simpl in *.
  inversion H; subst saved' w4; clear H.
  apply open_write_inv in Hopen as [(e & ? & _)|(_ & -> & _)]; [done|]. simpl.
  set (path := email_processor.unique_path (fs w) (path_join folder (filename part))).
  pose proof (unique_path_free (fs w) (path_join folder (filename part))) as Hfree.
  fold path in Hfree.
  split; [by apply insert_subseteq|].
  exists [path]. split; [done|]. split; [|apply NoDup_singleton].
  constructor; [|constructor].
  exists data, (fs w). simpl. repeat split; try done.
  - apply lookup_insert_eq.
  - by apply insert_subseteq.
Qed.

Lemma save_parts_spec E service mid folder ps saved w saved' w' :
  email_processor.save_parts E service mid folder ps saved w = (Return saved', w') →
  keeps_fs w w' ∧
  ∃ new, saved' = saved ++ new ∧
    Forall2 (saved_as E service folder w w') new (attachments_of_parts mid ps) ∧
    NoDup new.
Proof.
  revert saved w. induction ps as [|part ps IH]; intros saved w H; simpl in H.
  { inversion H; subst. split; [reflexivity|]. exists []. rewrite app_nil_r.
    repeat split; constructor. }
  apply bind_Return_inv in H as (saved1 & w1 & Hpart & H).
  apply save_part_spec in Hpart as (K1 & new1 & -> & F1 & N1).
  apply IH in H as (K2 & new2 & -> & F2 & N2).
  split; [by etrans|]. exists (new1 ++ new2). rewrite (assoc_L (++)).
  split; [done|]. rewrite attachments_of_parts_cons.
  by eapply saved_as_app.
Qed.

Lemma save_messages_spec E service folder messages saved w saved' w' :
  email_processor.save_messages E service folder messages saved w = (Return saved', w') →
  keeps_fs w w' ∧
  ∃ new, saved' = saved ++ new ∧
    Forall2 (saved_as E service folder w w') new (attachments_of messages) ∧
    NoDup new.
Proof.
  revert saved w. induction messages as [|msg messages IH]; intros saved w H; simpl in H.
  { inversion H; subst. split; [reflexivity|]. exists []. rewrite app_nil_r.
    repeat split; constructor. }
  unfold attachments_of. simpl. fold (attachments_of messages).
  destruct (payload msg) as [pl|]; [|done].
  apply bind_Return_inv in H as (saved1 & w1 & Hparts & H).
  apply save_parts_spec in Hparts as (K1 & new1 & -> & F1 & N1).
  apply IH in H as (K2 & new2 & -> & F2 & N2).
  split; [by etrans|]. exists (new1 ++ new2). rewrite (assoc_L (++)).
  split; [done|]. by eapply saved_as_app.
Qed.

Lemma download_spec E service messages folder w files w' :
  email_processor.download_attachments_from_messages E service messages folder w
  = (Return files, w') →
  keeps_fs w w' ∧
  Forall2 (saved_as E service folder w w') files (attachments_of messages) ∧
  NoDup files.
Proof.
  unfold email_processor.download_attachments_from_messages. intros H.
  apply bind_Return_inv in H as ([] & w0 & Hdirs & H).
  apply makedirs_keeps_fs in Hdirs.
  apply save_messages_spec in H as (K & new & -> & F & N). simpl.
  split; [by etrans|]. split; [|done].
  eapply Forall2_impl; [exact F|]. intros p a.
  by apply saved_as_weaken.
Qed.

(** C5.  When the download returns, every attachment it saved went to the
    path the uniqueness loop chose in the directory as it then was: the
    plain target [join(folder, name)] if that was unused, and otherwise
    [base_j ext] for the first [j = 1, 2, ...] whose candidate was unused,
    every lower candidate being taken.  The chosen path was free when it was
    written, so the returned paths are pairwise distinct, none of them existed
    when the invocation started, and every entry the file system held, before
    or during the invocation, is still there unchanged at the end. *)
Theorem download_collisions_resolved (E : Env) (service : Service)
    (messages : list Message) (folder : string) (w : world) (files : list string)
    (w' : world) :
  email_processor.download_attachments_from_messages E service messages folder w
  = (Return files, w') →
  NoDup files ∧
  Forall (λ p, fs w !! p = None) files ∧
  fs w ⊆ fs w' ∧
  Forall2 (λ path att,
      let target := path_join folder att.2 in
      ∃ m, fs w ⊆ m ∧ m ⊆ fs w' ∧ m !! path = None ∧
        ((exists_in m target = false ∧ path = target) ∨
         (exists_in m target = true ∧ ∃ j, (1 ≤ j)%nat ∧ path = numbered target j ∧
            ∀ k, (1 ≤ k < j)%nat → exists_in m (numbered target k) = true)))
    files (attachments_of messages).
Proof.
  intros (K & F & N)%download_spec.
  split; [done|]. split; [by eapply saved_as_all_fresh|]. split; [done|].
  eapply Forall2_impl; [exact F|]. intros path [[mid aid] name].
  intros (data & m & _ & _ & Hm & Hm' & Hfree & Hpath). simpl.
  exists m. repeat split; [done..|]. rewrite Hpath.
  apply unique_path_spec.
Qed.

Lemma download_collisions_resolved_witness :
  let E := demo.env [] in
  let service := {| credentials := Some demo.creds |} in
  let messages := [demo.message "m1" [demo.named "a.txt" "A1"];
                   demo.message "m2" [demo.named "a.txt" "A2"; demo.named "a.txt" "A3"]] in
  let files := ["/tmp/w/a.txt"; "/tmp/w/a_1.txt"; "/tmp/w/a_2.txt"] in
  (email_processor.download_attachments_from_messages E service messages "/tmp/w"
     demo.start).1 = Return files ∧
  NoDup files ∧
  Forall (λ p, fs demo.start !! p = None) files.
Proof.
  intros E service messages files.
  split; [vm_compute; reflexivity|].
  destruct (download_collisions_resolved E service messages "/tmp/w" demo.start files
    (email_processor.download_attachments_from_messages E service messages "/tmp/w"
       demo.start).2) as (Hnd & Hfresh & _).
  - vm_compute. reflexivity.
  - split; assumption.
Defined.

(** *** Where the numbered variants of a path lie *)

Lemma string_app_assoc (a b c : string) : (a +:+ b) +:+ c = a +:+ (b +:+ c).
Proof. induction a as [|x a IH]; [done|]. rewrite !string_app_cons. by rewrite IH. Qed.

Lemma startswith_app_assoc (d x y : string) : startswith ((d +:+ x) +:+ y) d = true.
Proof. rewrite string_app_assoc. apply startswith_app. Qed.

Lemma endswith_split (a t : string) : endswith a t = true → ∃ d, a = d +:+ t.
Proof.
  induction a as [|c a IH]; intros H.
  - destruct t; [by exists EmptyString | done].
  - change (String.eqb (String c a) t || endswith a t = true) in H.
    apply orb_true_iff in H as [H|H].
    + apply String.eqb_eq in H as <-. by exists EmptyString.
    + destruct (IH H) as [d ->]. by exists (String c d).
Qed.

Lemma dir_prefix_split (a : string) : ∃ d, dir_prefix a = d +:+ "/".
Proof.
  unfold dir_prefix. destruct (endswith a "/") eqn:He.
  - by apply endswith_split.
  - by exists a.
Qed.

Lemma split_last_sep_no_sep (r : string) :
  (split_last_sep r).1 = EmptyString → (split_last_sep r).2 = r.
Proof.
  induction r as [|c r IH]; [done|]. simpl.
  destruct (split_last_sep r) as [h t]. destruct h as [|x h]; simpl in *.
  - by destruct (Ascii.eqb c sep).
  - done.
Qed.

(** A prefix that ends with a separator stays in the head of the split. *)
Lemma split_last_sep_dir (d r : string) :
  split_last_sep ((d +:+ "/") +:+ r)
  = ((d +:+ "/") +:+ (split_last_sep r).1, (split_last_sep r).2).
Proof.
  induction d as [|c d IH].
  - change (("" +:+ "/") +:+ r) with (String sep r).
    change (("" +:+ "/") +:+ (split_last_sep r).1)
      with (String sep (split_last_sep r).1).
    simpl. pose proof (split_last_sep_no_sep r) as Hno.
    destruct (split_last_sep r) as [h t]. destruct h as [|x h]; simpl in *.
    + by rewrite Hno.
    + done.
  - rewrite !string_app_cons. simpl. rewrite IH.
    destruct d as [|x d]; done.
Qed.

Lemma splitext_dir (d r : string) :
  ∃ b, (splitext ((d +:+ "/") +:+ r)).1 = (d +:+ "/") +:+ b.
Proof.
  unfold splitext. rewrite split_last_sep_dir.
  destruct (split_last_dot (split_last_sep r).2) as [pre ext].
  destruct (str_empty ext || all_char extsep pre).
  - by exists r.
  - exists ((split_last_sep r).1 +:+ pre). simpl. by rewrite string_app_assoc.
Qed.

(** A relative name joined to a folder, and each numbered variant of the
    result, continues the spelling of the folder. *)
Lemma under_numbered folder name j :
  str_empty folder = false → isabs name = false →
  under folder (numbered (path_join folder name) j) = true.
Proof.
  intros Hf Hn. rewrite path_join_relative by done.
  destruct (dir_prefix_split folder) as [d Hd]. unfold under, numbered.
  rewrite Hd. destruct (splitext_dir d name) as [b Hb].
  destruct (splitext ((d +:+ "/") +:+ name)) as [base ext]. simpl in Hb. subst base.
  rewrite startswith_app_assoc. apply orb_true_r.
Qed.

(** *** Paths that stay inside a directory *)

Lemma components_nonempty (p : string) : components p ≠ [].
Proof.
  induction p as [|c p IH]; [done|]. simpl.
  destruct (Ascii.eqb c sep); [done|]. by destruct (components p).
Qed.

Lemma components_app_sep (a b : string) :
  components (a +:+ String sep b) = components a ++ components b.
Proof.
  induction a as [|c a IH]; [done|]. rewrite string_app_cons. simpl.
  destruct (Ascii.eqb c sep); [by rewrite IH|]. rewrite IH.
  pose proof (components_nonempty a). by destruct (components a).
Qed.

Lemma components_no_sep (s : string) : no_sep s = true → components s = [s].
Proof.
  induction s as [|c s IH]; [done|]. simpl. intros [Hc Hs]%andb_true_iff.
  apply negb_true_iff in Hc. rewrite Hc. by rewrite IH.
Qed.

Lemma no_sep_app (a b : string) : no_sep (a +:+ b) = no_sep a && no_sep b.
Proof.
  induction a as [|c a IH]; [done|]. rewrite string_app_cons. simpl.
  by rewrite IH, andb_assoc.
Qed.

Lemma fold_resolve_grows absolute cs up :
  forallb (λ c, negb (is_up c)) cs = true →
  ∃ ext, fold_left (resolve_step absolute) cs up = ext ++ up ∧
         forallb (λ c, negb (is_up c)) ext = true.
Proof.
  revert up. induction cs as [|c cs IH]; intros up H; [by exists []|].
  simpl in H. apply andb_true_iff in H as [Hc H].
  simpl. unfold resolve_step at 2.
  destruct (str_empty c || String.eqb c "."); [by apply IH|].
  pose proof Hc as Hc'. apply negb_true_iff in Hc'. unfold is_up in Hc'. rewrite Hc'.
  destruct (IH (c :: up) H) as (ext & -> & Hext). exists (ext ++ [c]). split.
  - by rewrite <- (assoc_L (++)).
  - rewrite forallb_app, Hext. simpl. by rewrite Hc.
Qed.

(** What follows a directory's prefix without stepping up stays inside. *)
Lemma inside_dir_prefix d rest :
  str_empty d = false → no_dotdot rest = true →
  inside d (dir_prefix d +:+ rest) = true.
Proof.
  intros Hd Hrest. unfold inside. apply andb_true_iff. split.
  { apply bool_decide_eq_true. destruct d as [|c d]; [done|].
    unfold dir_prefix. by destruct (endswith (String c d) "/"). }
  unfold resolved.
  assert (isabs (dir_prefix d +:+ rest) = isabs d) as ->.
  { destruct d as [|c d]; [done|].
    unfold dir_prefix. by destruct (endswith (String c d) "/"). }
  assert (∃ d', dir_prefix d +:+ rest = d' +:+ String sep rest ∧
            fold_left (resolve_step (isabs d)) (components d) []
            = fold_left (resolve_step (isabs d)) (components d') [])
    as (d' & -> & ->).
  { unfold dir_prefix. destruct (endswith d "/") eqn:He.
    - apply endswith_split in He as [d' ->]. exists d'.
      split; [by rewrite string_app_assoc|].
      change (d' +:+ "/") with (d' +:+ String sep EmptyString).
      rewrite components_app_sep, fold_left_app. done.
    - exists d. split; [by rewrite string_app_assoc|done]. }
  rewrite components_app_sep, fold_left_app.
  destruct (fold_resolve_grows (isabs d) (components rest)
              (fold_left (resolve_step (isabs d)) (components d') []) Hrest)
    as (ext & -> & Hext).
  rewrite rev_app_distr. apply orb_true_iff. left. apply andb_true_iff. split.
  - apply bool_decide_eq_true. by apply prefix_app_r.
  - rewrite drop_app_length. apply forallb_forall. intros c Hc.
    apply in_rev in Hc. by eapply forallb_forall in Hext.
Qed.

Example inside_by_example :
  inside "/tmp/w" "/tmp/w/out.zip" = true ∧
  inside "/tmp/w" "/tmp/w/a/../b.zip" = true ∧
  inside "/tmp/w" "/tmp/w/./sub//c.txt" = true ∧
  inside "/tmp/w" "/tmp/w/../out.zip" = false ∧
  inside "/tmp/w" "/tmp/w2/out.zip" = false ∧
  inside "/tmp/w" "/tmp" = false ∧
  inside "/" "/../etc/passwd" = true ∧
  inside "dl" "dl/a.txt" = true ∧
  inside "dl" "dl/../a.txt" = false ∧
  inside ".." "a.txt" = true ∧
  inside ".." "../.." = false ∧
  inside "dl" "/dl/a.txt" = false.
Proof. repeat split; vm_compute; reflexivity. Qed.

Lemma inside_path_join d rel :
  str_empty d = false → isabs rel = false → no_dotdot rel = true →
  inside d (path_join d rel) = true.
Proof.
  intros Hd Hrel Hno. rewrite path_join_relative by done.
  by apply inside_dir_prefix.
Qed.

Lemma split_last_sep_spec (p : string) :
  p = (split_last_sep p).1 +:+ (split_last_sep p).2 ∧
  no_sep (split_last_sep p).2 = true ∧
  ((split_last_sep p).1 = EmptyString ∨ ∃ h, (split_last_sep p).1 = h +:+ "/").
Proof.
  induction p as [|c p (Happ & Hno & Hhead)]; [by repeat split; try left|].
  simpl. destruct (split_last_sep p) as [h t]. simpl in *.
  destruct h as [|x h].
  - change ("" +:+ t) with t in Happ. subst t.
    destruct (Ascii.eqb c sep) eqn:Hc; simpl.
    + apply Ascii.eqb_eq in Hc as ->. split; [done|]. split; [done|].
      right. by exists EmptyString.
    + rewrite Hc, Hno. by repeat split; try left.
  - simpl. split; [by rewrite Happ|]. split; [done|]. right.
    destruct Hhead as [|[h' Hh']]; [done|]. exists (String c h'). by rewrite Hh'.
Qed.

Lemma string_app_nil_r (s : string) : s +:+ "" = s.
Proof. induction s as [|c s IH]; [done|]. by rewrite string_app_cons, IH. Qed.

Lemma split_last_dot_app (t : string) :
  t = (split_last_dot t).1 +:+ (split_last_dot t).2.
Proof.
  induction t as [|c t IH]; [done|]. simpl.
  destruct (split_last_dot t) as [pre ext]. simpl in *.
  destruct ext as [|x ext].
  - destruct (Ascii.eqb c extsep); [done|]. simpl. by rewrite string_app_nil_r.
  - simpl. by rewrite string_app_cons, <- IH.
Qed.

Lemma pretty_N_go_no_sep (x : N) (s : string) :
  no_sep s = true → no_sep (pretty_N_go x s) = true.
Proof.
  revert s. induction (N.lt_wf_0 x) as [x _ IH]; intros s Hs.
  assert (x = 0 ∨ 0 < x)%N as [->|Hx] by lia; [done|].
  rewrite pretty_N_go_step by done. apply IH; [by apply N.div_lt|].
  simpl. rewrite Hs. unfold pretty_N_char. by repeat case_match.
Qed.

Lemma pretty_nat_no_sep (j : nat) : no_sep (pretty j) = true.
Proof.
  unfold pretty, pretty_nat, pretty, pretty_N.
  destruct (decide (N.of_nat j = 0%N)); [done|]. by apply pretty_N_go_no_sep.
Qed.

Lemma numbered_name_not_dotdot (x y : string) :
  String.eqb (x +:+ "_" +:+ y) ".." = false.
Proof.
  destruct x as [|a [|b [|c x]]]; simpl; try done.
  - by destruct (Ascii.eqb a ".").
  - destruct (Ascii.eqb a "."); [|done]. by destruct (Ascii.eqb b ".").
  - destruct (Ascii.eqb a "."); [|done]. by destruct (Ascii.eqb b ".").
Qed.

(** Changing the last component of a path to a name that is not ".." brings
    no step up into it. *)
Lemma no_dotdot_last (h t q : string) :
  h = EmptyString ∨ (∃ h', h = h' +:+ "/") →
  no_sep t = true → no_sep q = true → String.eqb q ".." = false →
  no_dotdot (h +:+ t) = true → no_dotdot (h +:+ q) = true.
Proof.
  unfold no_dotdot, is_up. intros [->|[h' ->]] Ht Hq Hne; simpl.
  - intros _. change ("" +:+ q) with q.
    rewrite (components_no_sep q Hq). simpl. by rewrite Hne.
  - rewrite !string_app_assoc.
    change ("/" +:+ t) with (String sep t). change ("/" +:+ q) with (String sep q).
    rewrite !components_app_sep, !forallb_app.
    intros [H _]%andb_true_iff. rewrite H.
    rewrite (components_no_sep q Hq). simpl. by rewrite Hne.
Qed.

(** The numbered variants of a path keep its directory and bring no step up
    into what follows it. *)
Lemma numbered_rest (d name : string) (j : nat) :
  ∃ rest, numbered ((d +:+ "/") +:+ name) j = (d +:+ "/") +:+ rest ∧
          (no_dotdot name = true → no_dotdot rest = true).
Proof.
  unfold numbered, splitext. rewrite split_last_sep_dir.
  destruct (split_last_sep_spec name) as (Hname & Hno & Hhead).
  pose proof (split_last_dot_app (split_last_sep name).2) as Ht.
  destruct (split_last_sep name) as [h t]. simpl in *.
  destruct (split_last_dot t) as [pre ext]. simpl in Ht.
  assert (no_sep pre = true ∧ no_sep ext = true) as [Hpre Hext].
  { rewrite Ht, no_sep_app in Hno. by apply andb_true_iff in Hno. }
  destruct (str_empty ext || all_char extsep pre).
  - exists (h +:+ t +:+ "_" +:+ pretty j +:+ ""). split.
    + by rewrite Hname, !string_app_assoc.
    + rewrite Hname. apply no_dotdot_last; try done.
      * by rewrite !no_sep_app, Hno, pretty_nat_no_sep.
      * apply numbered_name_not_dotdot.
  - exists (h +:+ pre +:+ "_" +:+ pretty j +:+ ext). split.
    + by rewrite !string_app_assoc.
    + rewrite Hname. apply no_dotdot_last; try done.
      * by rewrite !no_sep_app, Hpre, Hext, pretty_nat_no_sep.
      * apply numbered_name_not_dotdot.
Qed.

Lemma inside_numbered folder name j :
  str_empty folder = false → isabs name = false → no_dotdot name = true →
  inside folder (numbered (path_join folder name) j) = true.
Proof.
  intros Hf Hn Hno. rewrite path_join_relative by done.
  destruct (dir_prefix_split folder) as [d Hd].
  destruct (numbered_rest d name j) as (rest & Hnum & Hrest).
  rewrite Hd, Hnum, <- Hd. apply inside_dir_prefix; auto.
Qed.

(** C6, as the code has it.  When the download returns, its list of paths
    matches, one for one and in order, the parts that have both a file name and
    an [attachmentId]: for each of them the payload was fetched and is the
    content of the file at the returned path, which is [join(folder, name)] or
    one of its numbered variants.  That path leads inside the folder whenever
    the part's file name is a relative one with no ".." component; an absolute
    name replaces the folder and a name that steps up can leave it, and for
    those nothing is said.  Named parts without an [attachmentId] are passed
    over. *)
Theorem download_writes_attachment_parts (E : Env) (service : Service)
    (messages : list Message) (folder : string) (w : world) (files : list string)
    (w' : world) :
  email_processor.download_attachments_from_messages E service messages folder w
  = (Return files, w') →
  length files = length (attachments_of messages) ∧
  Forall2 (λ path att,
      let '(mid, aid, name) := att in
      ∃ data, attachments_get E service mid aid = Return data ∧
        fs w' !! path = Some (File data) ∧
        (path = path_join folder name ∨
         ∃ j, (1 ≤ j)%nat ∧ path = numbered (path_join folder name) j) ∧
        (isabs name = false → no_dotdot name = true → inside folder path = true))
    files (attachments_of messages).
Proof.
  intros H.
  assert (str_empty folder = false) as Hfolder.
  { unfold email_processor.download_attachments_from_messages in H.
    apply bind_Return_inv in H as ([] & w0 & Hdirs & _).
    by apply makedirs_inv in Hdirs as [(_ & _ & ? & ?)|[? _]]. }
  apply download_spec in H as (K & F & N).
  split; [by eapply Forall2_length|].
  eapply Forall2_impl; [exact F|]. intros path [[mid aid] name].
  intros (data & m & Hget & Hfile & _ & _ & _ & Hpath).
  exists data. split; [done|]. split; [done|]. rewrite Hpath.
  destruct (unique_path_spec m (path_join folder name))
    as [_ [[_ ->]|(_ & j & Hj & -> & _)]].
  - split; [by left|]. by apply inside_path_join.
  - split; [right; eauto|]. by apply inside_numbered.
Qed.

Lemma download_writes_attachment_parts_witness :
  let E := demo.env [] in
  let service := {| credentials := Some demo.creds |} in
  let messages := [demo.message "m1" [demo.named "a.txt" "A1"; demo.inline "b.txt"];
                   demo.message "m2" [demo.named "a.txt" "A2"]] in
  let res := email_processor.download_attachments_from_messages E service messages
               "/tmp/w" demo.start in
  res.1 = Return ["/tmp/w/a.txt"; "/tmp/w/a_1.txt"] ∧
  length ["/tmp/w/a.txt"; "/tmp/w/a_1.txt"] = length (attachments_of messages).
Proof.
  intros E service messages res.
  split; [vm_compute; reflexivity|].
  apply (download_writes_attachment_parts E service messages "/tmp/w" demo.start
           ["/tmp/w/a.txt"; "/tmp/w/a_1.txt"] res.2).
  vm_compute. reflexivity.
Defined.

(** C6, as stated, fails on both counts.  Take a message with two named
    parts: "b.txt", which carries its data inline, without an [attachmentId],
    and "/tmp/x.txt", an attachment with an absolute name.  The download
    returns one path for the two named parts, writes no file for "b.txt", and
    writes the other at "/tmp/x.txt", outside the destination "/tmp/w". *)
Lemma download_skips_inline_named_part :
  let messages := [demo.message "m1" [demo.inline "b.txt"; demo.named "/tmp/x.txt" "A9"]] in
  let res := email_processor.download_attachments_from_messages (demo.env [])
               {| credentials := Some demo.creds |} messages "/tmp/w" demo.start in
  length (named_parts messages) = 2%nat ∧
  res.1 = Return ["/tmp/x.txt"] ∧
  fs res.2 !! "/tmp/w/b.txt" = None ∧
  inside "/tmp/w" "/tmp/x.txt" = false ∧
  ¬ (∃ files, res.1 = Return files ∧ length files = length (named_parts messages)).
Proof.
  intros messages res. split; [reflexivity|].
  assert (res.1 = Return ["/tmp/x.txt"]) as Hres by (vm_compute; reflexivity).
  split; [done|]. split; [vm_compute; reflexivity|]. split; [reflexivity|].
  intros (files & Hfiles & Hlen). rewrite Hres in Hfiles.
  inversion Hfiles; subst files. discriminate.
Qed.

(** A relative name can leave the destination as well.  In a world that
    knows where the spelling "/tmp/w/.." leads, the attachment named
    "../escape.txt" is written through "/tmp/w/../escape.txt", and that is
    "/tmp/escape.txt", next to the destination "/tmp/w". *)
Example download_name_steps_up :
  let messages := [demo.message "m1" [demo.named "../escape.txt" "A7"]] in
  let disk := <["/tmp/w/.." := Dir]> (<["/tmp/w" := Dir]> demo.disk) in
  let res := email_processor.download_attachments_from_messages (demo.env [])
               {| credentials := Some demo.creds |} messages "/tmp/w" (World disk []) in
  res.1 = Return ["/tmp/w/../escape.txt"] ∧
  is_Some (fs res.2 !! "/tmp/w/../escape.txt") ∧
  resolved "/tmp/w/../escape.txt" = ["tmp"; "escape.txt"] ∧
  inside "/tmp/w" "/tmp/w/../escape.txt" = false.
Proof. repeat split; try (vm_compute; reflexivity). vm_compute. eauto. Qed.

(** ** C9: the archive of the compression tool *)

(** C9, as the code has it.  Take a [compress_files] invocation with a
    relative [output_zip] that has no ".." component, whose input files all
    exist, and for which the working directory, the output directory and the
    archive file can be created.  The body of the tool returns
    [{"zip_path": p}], where [p] is [output_zip] joined to the working
    directory and leads inside it, and it leaves the archive as a file at [p].
    The invocation answers with that payload once the working directory has
    been removed: in the world the caller gets back nothing is left at or
    below the working directory, and no file is at the reported [p]. *)
Theorem compress_tool_zip_removed (E : Env) (req : server.RunRequest) (w : world)
    (paths : list string) (oz work_dir : string) (w1 w0 : world)
    (zf : list (string * string)) (w1' : world) :
  server.tool req = "compress_files" →
  server.input req !! "local_paths" = Some (JList (JStr <$> paths)) →
  server.input req !! "output_zip" = Some (JStr oz) →
  isabs oz = false →
  no_dotdot oz = true →
  Forall (λ p, exists_in (fs w) p = true) paths →
  mkdtemp E "mcp_work_" w = (Return work_dir, w1) →
  let zip_path := path_join work_dir oz in
  makedirs (let d := dirname zip_path in if str_empty d then "." else d) w1
  = (Return tt, w0) →
  ZipFile_open E zip_path w0 = (Return zf, w1') →
  ∃ w2 data,
    server.tool_body E (server.tool req) (server.input req) work_dir w1
    = (Return [("zip_path", JStr zip_path)], w2) ∧
    server.run_tool E req w
    = (Return [("zip_path", JStr zip_path)], rmtree_quiet work_dir w2) ∧
    inside work_dir zip_path = true ∧
    fs w2 !! zip_path = Some (File data) ∧
    (∀ p, under work_dir p = true → fs (rmtree_quiet work_dir w2) !! p = None) ∧
    fs (rmtree_quiet work_dir w2) !! zip_path = None.
Proof.
  intros Htool Hlps Hoz Hrel Hup Hpaths Hmk zip_path Hdirs Hopen.
  pose proof (mkdtemp_nonempty _ _ _ _ Hmk) as Hwd.
  assert (under work_dir zip_path = true) as Hunder by by apply under_path_join.
  pose proof (ZipFile_open_inv _ _ _ _ _ Hopen) as (-> & Hw1' & Hnodir).
  assert (fs w0 !! work_dir = Some Dir) as Hwd0.
  { apply makedirs_keeps_fs in Hdirs. eapply lookup_weaken; [|exact Hdirs].
    apply mkdtemp_inv in Hmk as [(? & ? & ? & ?)|(name & _ & Hr & ->)]; [done|].
    inversion Hr. simpl. apply lookup_insert_eq. }
  assert (work_dir ≠ zip_path) as Hne.
  { intros Heq. unfold is_dir_in in Hnodir. by rewrite <- Heq, Hwd0 in Hnodir. }
  assert (Forall (λ p, exists_in (fs w1') p = true) paths) as Hpaths'.
  { eapply Forall_impl; [exact Hpaths|]. intros p Hp.
    assert (keeps_paths w w1') as Hk; [|by apply Hk].
    trans w1; [by eapply mkdtemp_keeps_paths|].
    trans w0; [by eapply makedirs_keeps_paths|].
    subst w1'. intros q Hq. simpl. apply exists_in_insert. by right. }
  destruct (write_files_existing E zip_path paths [] [] w1' (zip_encode E []))
    as (zf' & w2 & data & Hrun & Hout & _ & Hframe); [|done|].
  { subst w1'. simpl. apply lookup_insert_eq. }
  rewrite app_nil_r in Hrun. simpl in Hrun.
  assert (fs w2 !! work_dir = Some Dir) as Hwd2.
  { rewrite Hframe by done. subst w1'. simpl. by rewrite lookup_insert_ne. }
  assert (server.tool_body E (server.tool req) (server.input req) work_dir w1
          = (Return [("zip_path", JStr zip_path)], w2)) as Hbody.
  { rewrite Htool. unfold server.tool_body. simpl (String.eqb _ _). cbv iota.
    erewrite bind_Return; [|by apply getitem_Some].
    erewrite bind_Return; [|by apply getitem_Some].
    erewrite bind_Return; [|done].
    rewrite Hrel. simpl negb. cbv iota. fold zip_path.
    erewrite bind_Return; [|by apply as_str_list_strs].
    erewrite bind_Return; [done|].
    unfold file_compressor.compress_files.
    erewrite bind_Return; [|done]. erewrite bind_Return; [|done]. done. }
  exists w2, data. split; [done|]. split; [|split; [|split; [done|split]]].
  - erewrite (run_tool_past_validation E req ["local_paths"; "output_zip"]);
      [|by rewrite Htool|by repeat constructor; rewrite ?Hlps, ?Hoz|done].
    by rewrite Hbody.
  - by apply inside_path_join.
  - intros p Hp. by apply rmtree_quiet_removes.
  - by apply rmtree_quiet_removes.
Qed.

Lemma compress_tool_zip_removed_witness :
  let E := demo.env [] in
  let req := demo.request "compress_files"
               [("local_paths", JList (JStr <$> ["token.json"]));
                ("output_zip", JStr "out.zip")] in
  let wd := "/tmp/mcp_work_k3x9q2ab" in
  ∃ w2 data,
    server.tool_body E (server.tool req) (server.input req) wd
      (mkdtemp E "mcp_work_" demo.start).2
    = (Return [("zip_path", JStr (path_join wd "out.zip"))], w2) ∧
    server.run_tool E req demo.start
    = (Return [("zip_path", JStr (path_join wd "out.zip"))], rmtree_quiet wd w2) ∧
    inside wd (path_join wd "out.zip") = true ∧
    fs w2 !! path_join wd "out.zip" = Some (File data) ∧
    (∀ p, under wd p = true → fs (rmtree_quiet wd w2) !! p = None) ∧
    fs (rmtree_quiet wd w2) !! path_join wd "out.zip" = None.
Proof.
  intros E req wd.
  eapply (compress_tool_zip_removed E req demo.start ["token.json"] "out.zip" wd).
  - reflexivity.
  - vm_compute. reflexivity.
  - vm_compute. reflexivity.
  - reflexivity.
  - reflexivity.
  - repeat constructor.
  - vm_compute. reflexivity.
  - vm_compute. reflexivity.
  - vm_compute. reflexivity.
Defined.

(** C9, as stated, fails for a relative [output_zip] that steps up.  With
    "../out.zip" and an input file that exists, the tool answers with the
    success payload, and the [zip_path] it reports is
    "/tmp/mcp_work_k3x9q2ab/../out.zip": that is "/tmp/out.zip", a place next
    to the working directory "/tmp/mcp_work_k3x9q2ab", not inside it. *)
Lemma compress_tool_zip_escapes :
  let E := demo.env [] in
  let req := demo.request "compress_files"
               [("local_paths", JList [JStr "token.json"]);
                ("output_zip", JStr "../out.zip")] in
  let wd := "/tmp/mcp_work_k3x9q2ab" in
  let zip_path := "/tmp/mcp_work_k3x9q2ab/../out.zip" in
  isabs "../out.zip" = false ∧
  exists_in (fs demo.start) "token.json" = true ∧
  (mkdtemp E "mcp_work_" demo.start).1 = Return wd ∧
  (server.run_tool E req demo.start).1 = Return [("zip_path", JStr zip_path)] ∧
  resolved zip_path = ["tmp"; "out.zip"] ∧
  resolved wd = ["tmp"; "mcp_work_k3x9q2ab"] ∧
  inside wd zip_path = false ∧
  ¬ (∃ p, (server.run_tool E req demo.start).1 = Return [("zip_path", JStr p)] ∧
          inside wd p = true).
Proof.
  intros E req wd zip_path.
  assert ((server.run_tool E req demo.start).1 = Return [("zip_path", JStr zip_path)])
    as Hres by (vm_compute; reflexivity).
  repeat (split; [by vm_compute|]).
  intros (p & Hp & Hin). rewrite Hres in Hp. by inversion Hp; subst p.
Qed.

(** * Further properties of the code *)

(** ** The search *)

Lemma collect_found_spec E service ids found0 w found w' :
  email_processor.collect_found E service ids found0 w = (Return found, w') →
  ∃ msgs,
    Forall2 (λ i m, messages_get E service i = Return m) ids msgs ∧
    found = found0 ++ filter (λ m, search_keeps m = true) msgs ∧
    trace w' = trace w ++ (EvGmailGet <$> ids) ∧
    fs w' = fs w.
Proof.
  revert found0 w. induction ids as [|i ids IH]; intros found0 w H; simpl in H.
  { inversion H; subst. exists []. rewrite !app_nil_r. by repeat split. }
  apply bind_Return_inv in H as ([] & w1 & Hlog & H).
  apply bind_Return_inv in H as (msg & w2 & Hget & H).
  inversion Hlog; subst w1; clear Hlog.
  unfold lift in Hget. inversion Hget as [[Hmsg Hw2]]; subst w2; clear Hget.
  apply IH in H as (msgs & Hall & -> & Htr & Hfs). simpl in *.
  exists (msg :: msgs). split; [by constructor|]. split; [|split; [|done]].
  - rewrite filter_cons.
    destruct (decide (search_keeps msg = true)) as [Hk|Hk];
      unfold search_keeps in Hk;
      destruct (payload msg) as [pl|]; try done;
      destruct (parts pl) as [ps|]; try done;
      destruct (email_processor.has_attachment ps); try done.
    by rewrite <- (assoc_L (++)).
  - rewrite Htr, <- (assoc_L (++)). done.
Qed.

Lemma search_spec (E : Env) (service : Service) (query : string)
    (max_results : Z) (w : world) (found : list Message) (w' : world) :
  email_processor.search_messages_with_attachments E service query max_results w
  = (Return found, w') →
  ∃ ids msgs,
    messages_list E service query max_results = Return ids ∧
    Forall2 (λ i m, messages_get E service i = Return m) ids msgs ∧
    found = filter (λ m, search_keeps m = true) msgs ∧
    trace w' = trace w ++ EvGmailList query max_results :: (EvGmailGet <$> ids) ∧
    fs w' = fs w.
Proof.
  unfold email_processor.search_messages_with_attachments, try_except.
  destruct (bind _ _ w) as [[found1|e] w1] eqn:Hrun.
  2: { destruct e; intros H; inversion H. }
  intros H; inversion H; subst found1 w1; clear H.
  apply bind_Return_inv in Hrun as ([] & w1 & Hlog & Hrun).
  apply bind_Return_inv in Hrun as (ids & w2 & Hlist & Hrun).
  inversion Hlog; subst w1; clear Hlog.
  unfold lift in Hlist. inversion Hlist as [[Hids Hw2]]; subst w2; clear Hlist.
  apply collect_found_spec in Hrun as (msgs & Hall & -> & Htr & Hfs). simpl in *.
  exists ids, msgs. repeat split; try done.
  by rewrite Htr, <- (assoc_L (++)).
Qed.


(** X1.  A search that returns does one list call and then one full fetch
    per listed id, in order, and nothing else; it returns, in the same order,
    exactly the fetched messages that have a payload with a parts list holding
    a named part, and leaves the file system as it was. *)
Theorem search_returns_filtered (E : Env) (service : Service) (query : string)
    (max_results : Z) (w : world) (found : list Message) (w' : world) :
  email_processor.search_messages_with_attachments E service query max_results w
  = (Return found, w') →
  ∃ ids msgs,
    messages_list E service query max_results = Return ids ∧
    Forall2 (λ i m, messages_get E service i = Return m) ids msgs ∧
    found = filter (λ m, search_keeps m = true) msgs ∧
    trace w' = trace w ++ EvGmailList query max_results :: (EvGmailGet <$> ids) ∧
    fs w' = fs w.
Proof. apply search_spec. Qed.

Lemma search_returns_filtered_witness :
  let mailbox := [demo.message "m1" [demo.named "a.txt" "A1"];
                  demo.message "m2" [demo.inline ""];
                  {| msg_id := "m3"; payload := None |};
                  demo.message "m4" [demo.inline "b.txt"]] in
  let E := demo.env mailbox in
  let service := {| credentials := Some demo.creds |} in
  ∃ ids msgs,
    messages_list E service "q" 10 = Return ids ∧
    Forall2 (λ i m, messages_get E service i = Return m) ids msgs ∧
    [demo.message "m1" [demo.named "a.txt" "A1"]; demo.message "m4" [demo.inline "b.txt"]]
    = filter (λ m, search_keeps m = true) msgs ∧
    trace (email_processor.search_messages_with_attachments E service "q" 10
             demo.start).2
    = trace demo.start ++ EvGmailList "q" 10 :: (EvGmailGet <$> ids) ∧
    fs (email_processor.search_messages_with_attachments E service "q" 10
          demo.start).2 = fs demo.start.
Proof.
  intros mailbox E service.
  apply (search_returns_filtered E service "q" 10 demo.start).
  vm_compute. reflexivity.
Defined.

(** X2.  Whatever a search raises, it is not an [HttpError]: a provider
    error met while listing or fetching leaves as a [RuntimeError] whose text
    starts with "Gmail API error during search: ", and every other exception
    passes through unchanged. *)
Theorem search_wraps_provider_errors (E : Env) (service : Service) (query : string)
    (max_results : Z) (w : world) (e : exn) (w' : world) :
  email_processor.search_messages_with_attachments E service query max_results w
  = (Raise e, w') →
  (∀ m, e ≠ HttpError m) ∧
  ∃ e0,
    bind (log (EvGmailList query max_results))
      (λ _, bind (lift (messages_list E service query max_results))
              (λ ids, email_processor.collect_found E service ids [])) w
    = (Raise e0, w') ∧
    match e0 with
    | HttpError m => e = RuntimeError ("Gmail API error during search: " +:+ m)
    | _ => e = e0
    end.
Proof.
  unfold email_processor.search_messages_with_attachments, try_except.
  destruct (bind _ _ w) as [[found1|e0] w1] eqn:Hrun; [by intros H; inversion H|].
  destruct e0; intros H; inversion H; subst; (split; [done|]); eexists; split; done.
Qed.

Lemma search_wraps_provider_errors_witness :
  let E := scenario.env [] (Raise (HttpError "503 Service Unavailable"))
             (Return []) (Return scenario.created) "s3cret" in
  let service := {| credentials := None |} in
  let res := email_processor.search_messages_with_attachments E service "q" 10
               demo.start in
  res.1 = Raise (RuntimeError
                   "Gmail API error during search: 503 Service Unavailable") ∧
  ∀ m, RuntimeError "Gmail API error during search: 503 Service Unavailable"
       ≠ HttpError m.
Proof.
  intros E service res. split; [vm_compute; reflexivity|].
  apply (search_wraps_provider_errors E service "q" 10 demo.start _ res.2).
  vm_compute. reflexivity.
Defined.

(** ** The download: one fetch per attachment part *)

Lemma save_part_trace E service mid folder part saved w saved' w' :
  email_processor.save_part E service mid folder part saved w = (Return saved', w') →
  trace w' = trace w ++ fetch_events (attachments_of_parts mid [part]).
Proof.
  unfold email_processor.save_part, attachments_of_parts, fetch_events. simpl.
  destruct (str_empty (filename part)); simpl.
  { intros H; inversion H; subst. by rewrite app_nil_r. }
  destruct (attachmentId part) as [aid|]; simpl.
  2: { intros H; inversion H; subst. by rewrite app_nil_r. }
  intros H.
  apply bind_Return_inv in H as ([] & w1 & Hlog & H).
  apply bind_Return_inv in H as (data & w2 & Hget & H).
  apply bind_Return_inv in H as (m & w3 & Hm & H).
  apply bind_Return_inv in H as ([] & w4 & Hopen & H).
  inversion Hlog; subst w1; clear Hlog.
  unfold lift in Hget. inversion Hget; subst w2; clear Hget.
  inversion Hm; subst m w3; clear Hm.
  inversion H; subst saved' w4; clear H.
  by apply open_write_inv in Hopen as [(e & ? & _)|(_ & -> & _)].
Qed.

Lemma save_parts_trace E service mid folder ps saved w saved' w' :
  email_processor.save_parts E service mid folder ps saved w = (Return saved', w') →
  trace w' = trace w ++ fetch_events (attachments_of_parts mid ps).
Proof.
  revert saved w. induction ps as [|part ps IH]; intros saved w H; simpl in H.
  { inversion H; subst. by rewrite app_nil_r. }
  apply bind_Return_inv in H as (saved1 & w1 & Hpart & H).
  apply save_part_trace in Hpart. apply IH in H.
  rewrite attachments_of_parts_cons. unfold fetch_events in *.
  by rewrite fmap_app, (assoc_L (++)), <- Hpart.
Qed.

Lemma save_messages_trace E service folder messages saved w saved' w' :
  email_processor.save_messages E service folder messages saved w = (Return saved', w') →
  trace w' = trace w ++ fetch_events (attachments_of messages).
Proof.
  revert saved w. induction messages as [|msg messages IH]; intros saved w H; simpl in H.
  { inversion H; subst. by rewrite app_nil_r. }
  unfold attachments_of. simpl. fold (attachments_of messages).
  destruct (payload msg) as [pl|]; [|done].
  apply bind_Return_inv in H as (saved1 & w1 & Hparts & H).
  apply save_parts_trace in Hparts. apply IH in H.
  unfold fetch_events in *. by rewrite fmap_app, (assoc_L (++)), <- Hparts.
Qed.

Lemma makedirs_go_trace ds w r w' : makedirs_go ds w = (r, w') → trace w' = trace w.
Proof.
  revert w. induction ds as [|d ds IH]; intros w H; simpl in H; [by inversion H|].
  unfold bind at 1, get_fs in H. destruct (fs w !! d) as [[|data]|].
  - by apply IH.
  - by inversion H.
  - unfold bind, put_fs in H. by apply IH in H.
Qed.

Lemma makedirs_trace d w r w' : makedirs d w = (r, w') → trace w' = trace w.
Proof.
  intros [(_ & -> & _)|[_ H]]%makedirs_inv; [done|]. by eapply makedirs_go_trace.
Qed.

(** X3.  A download that returns has asked the provider for exactly the
    attachments it saved: one fetch for each part that has a file name and an
    [attachmentId], in the order of the messages and of their parts, and no
    other call. *)
Theorem download_fetches_each_attachment_once (E : Env) (service : Service)
    (messages : list Message) (folder : string) (w : world) (files : list string)
    (w' : world) :
  email_processor.download_attachments_from_messages E service messages folder w
  = (Return files, w') →
  trace w' = trace w ++ fetch_events (attachments_of messages).
Proof.
  unfold email_processor.download_attachments_from_messages. intros H.
  apply bind_Return_inv in H as ([] & w0 & Hdirs & H).
  apply makedirs_trace in Hdirs. apply save_messages_trace in H. congruence.
Qed.

Lemma download_fetches_each_attachment_once_witness :
  let E := demo.env [] in
  let service := {| credentials := Some demo.creds |} in
  let messages := [demo.message "m1" [demo.named "a.txt" "A1"; demo.inline "b.txt"];
                   demo.message "m2" [demo.named "a.txt" "A2"]] in
  trace (email_processor.download_attachments_from_messages E service messages
           "/tmp/w" demo.start).2
  = trace demo.start ++ [EvGmailAttachment "m1" "A1"; EvGmailAttachment "m2" "A2"].
Proof.
  intros E service messages.
  apply (download_fetches_each_attachment_once E service messages "/tmp/w" demo.start
           ["/tmp/w/a.txt"; "/tmp/w/a_1.txt"]).
  vm_compute. reflexivity.
Defined.

(** ** Reading the disk *)

Lemma path_exists_run p w : path_exists p w = (Return (exists_in (fs w) p), w).
Proof. done. Qed.

Lemma open_read_run p w :
  open_read p w
  = (match fs w !! p with
     | Some (File data) => Return data
     | Some Dir =>
         Raise (OtherError "IsADirectoryError" (errno_msg "[Errno 21] Is a directory" p))
     | None =>
         Raise (FileNotFoundError (errno_msg "[Errno 2] No such file or directory" p))
     end, w).
Proof. unfold open_read, bind, get_fs. by destruct (fs w !! p) as [[|data]|]. Qed.

Lemma exists_in_Some (m : gmap string node) p nd : m !! p = Some nd → exists_in m p = true.
Proof. intros H. unfold exists_in. apply bool_decide_eq_true. by rewrite H. Qed.

Lemma exists_in_None (m : gmap string node) p : m !! p = None → exists_in m p = false.
Proof.
  intros H. unfold exists_in. apply bool_decide_eq_false. rewrite H. by intros [? ?].
Qed.

(** ** Sending *)

(** X4.  Every run of [send_message_with_attachment] leaves the file system
    as it was and ends in one of six ways.  If the attachment path does not
    exist, it raises "Attachment not found".  If the headers and the text part
    of the message cannot be made, the error of their construction leaves as
    it is, before the file is opened.  If the path is a directory, the read
    fails.  If the message with the file's content cannot be serialized, that
    error leaves as it is.  In these four the world is untouched: no
    submission is made.  Otherwise exactly one submission is made, of the
    message built from the file's content, and the result is [{"id": ...}]
    with the id of the provider's answer ([None] when the answer has none), or,
    whatever the submission raised, a [RuntimeError]
    "Failed to send message: ..." carrying its text. *)
Theorem send_outcomes (E : Env) (service : Service) (to subject body_text file_path : string)
    (w : world) (r : outcome dict) (w' : world) :
  email_processor.send_message_with_attachment E service to subject body_text file_path w
  = (r, w') →
  fs w' = fs w ∧
  ((fs w !! file_path = None ∧ w' = w ∧
    r = Raise (FileNotFoundError ("Attachment not found: " +:+ file_path))) ∨
   (is_Some (fs w !! file_path) ∧ w' = w ∧
    ∃ e, mime_head E to subject body_text = Raise e ∧ r = Raise e) ∨
   (mime_head E to subject body_text = Return tt ∧
    ((fs w !! file_path = Some Dir ∧ w' = w ∧
      ∃ msg, r = Raise (OtherError "IsADirectoryError" msg)) ∨
     (∃ content,
        fs w !! file_path = Some (File content) ∧
        match mime_raw E to subject body_text (basename file_path) content with
        | Raise e => w' = w ∧ r = Raise e
        | Return raw =>
            trace w' = trace w ++ [EvGmailSend to subject file_path] ∧
            ((∃ sent, messages_send E service raw = Return sent ∧
                r = Return [("id", default JNull (dict_get "id" sent))]) ∨
             (∃ e, messages_send E service raw = Raise e ∧
                r = Raise (RuntimeError ("Failed to send message: " +:+ py_str E e))))
        end)))).
Proof.
  unfold email_processor.send_message_with_attachment. intros H.
  erewrite bind_Return in H by apply path_exists_run.
  destruct (fs w !! file_path) as [nd|] eqn:Hf.
  2: { rewrite (exists_in_None _ _ Hf) in H. simpl in H.
       inversion H; subst. split; [done|]. by left. }
  rewrite (exists_in_Some _ _ _ Hf) in H. simpl in H.
  destruct (mime_head E to subject body_text) as [[]|e0] eqn:Hhead.
  2: { erewrite bind_Raise in H by done. inversion H; subst.
       split; [done|]. right; left. eauto. }
  erewrite bind_Return in H by done.
  destruct nd as [|content].
  { erewrite bind_Raise in H by (by rewrite open_read_run, Hf).
    inversion H; subst. split; [done|]. right; right.
    split; [done|]. left. eauto. }
  erewrite bind_Return in H by (by rewrite open_read_run, Hf).
  destruct (mime_raw E to subject body_text (basename file_path) content)
    as [raw|e1] eqn:Hraw.
  2: { erewrite bind_Raise in H by done. inversion H; subst.
       split; [done|]. right; right. split; [done|].
       right. exists content. split; [done|]. by rewrite Hraw. }
  erewrite bind_Return in H by done.
  unfold try_except, bind, log, lift, ret, raise in H. simpl in H.
  destruct (messages_send E service raw) as [sent|e] eqn:Hsend;
    inversion H; subst; simpl; (split; [done|]);
    right; right; (split; [done|]);
    right; exists content; (split; [done|]); rewrite Hraw;
    (split; [done|]); eauto.
Qed.

Lemma send_outcomes_witness :
  let E := demo.env [] in
  let service := {| credentials := Some demo.creds |} in
  let to := "b@example.com" +:+ demo.line_feed +:+ "Bcc: c@example.com" in
  let res := email_processor.send_message_with_attachment E service to
               "Files: out" "See attached zip." "token.json" demo.start in
  res = (Raise (OtherError "HeaderWriteError" "folded header contains newline"),
         demo.start) ∧
  fs res.2 = fs demo.start.
Proof.
  intros E service to res. split; [vm_compute; reflexivity|].
  apply (send_outcomes E service to "Files: out" "See attached zip."
           "token.json" demo.start res.1 res.2).
  apply surjective_pairing.
Defined.

(** ** The upload of one file *)

Lemma upload_file_Return_inv (E : Env) (token_response : dict)
    (local_path remote_path : string) (w : world) (res : json) (w' : world) :
  onedrive_handler.upload_file_to_onedrive_path E token_response local_path remote_path w
  = (Return res, w') →
  ∃ access_token data resp,
    dict_get "access_token" token_response = Some access_token ∧
    truthy access_token = true ∧
    fs w !! local_path = Some (File data) ∧
    requests_put E (graph_url remote_path) access_token data = Return resp ∧
    (status_code resp = 200 ∨ status_code resp = 201) ∧
    json_body resp = Return res ∧
    w' = World (fs w) (trace w ++ [EvGraphPut (graph_url remote_path)]).
Proof.
  unfold onedrive_handler.upload_file_to_onedrive_path. fold (graph_url remote_path).
  destruct (dict_get "access_token" token_response) as [at_|] eqn:Hat; simpl; [|done].
  destruct (truthy at_) eqn:Htr; simpl; [|done]. intros H.
  apply bind_Return_inv in H as (data & w1 & Hread & H).
  rewrite open_read_run in Hread.
  destruct (fs w !! local_path) as [[|data']|] eqn:Hf; inversion Hread; subst data' w1.
  unfold bind, log, lift, ret, raise in H. simpl in H.
  destruct (requests_put E _ at_ data) as [resp|e] eqn:Hput; [|done].
  destruct (bool_decide (status_code resp = 200)) eqn:H200;
    destruct (bool_decide (status_code resp = 201)) eqn:H201; simpl in H; try done;
    destruct (json_body resp) as [j|e] eqn:Hj; inversion H; subst;
    exists at_, data, resp; repeat split; try done;
    try (left; by apply bool_decide_eq_true in H200);
    try (right; by apply bool_decide_eq_true in H201).
Qed.


(** X5.  When [upload_file_to_onedrive_path] returns a descriptor, the token
    answer held a non-empty access token, the local path was a regular file,
    and one PUT was made, to the Graph address of the remote path, with that
    token and exactly the content of the file; the provider answered 200 or
    201 and the descriptor is the JSON body of its answer.  The file system is
    unchanged. *)
Theorem upload_sends_file_content (E : Env) (token_response : dict)
    (local_path remote_path : string) (w : world) (res : json) (w' : world) :
  onedrive_handler.upload_file_to_onedrive_path E token_response local_path remote_path w
  = (Return res, w') →
  ∃ access_token data resp,
    dict_get "access_token" token_response = Some access_token ∧
    truthy access_token = true ∧
    fs w !! local_path = Some (File data) ∧
    requests_put E (graph_url remote_path) access_token data = Return resp ∧
    (status_code resp = 200 ∨ status_code resp = 201) ∧
    json_body resp = Return res ∧
    w' = World (fs w) (trace w ++ [EvGraphPut (graph_url remote_path)]).
Proof. apply upload_file_Return_inv. Qed.

Lemma upload_sends_file_content_witness :
  let E := demo.env [] in
  ∃ access_token data resp,
    dict_get "access_token" [("access_token", JStr "eyJ.demo")] = Some access_token ∧
    truthy access_token = true ∧
    fs demo.start !! "token.json" = Some (File data) ∧
    requests_put E (graph_url "Docs/token.json") access_token data = Return resp ∧
    (status_code resp = 200 ∨ status_code resp = 201) ∧
    json_body resp = Return (JObj []) ∧
    (onedrive_handler.upload_file_to_onedrive_path E [("access_token", JStr "eyJ.demo")]
       "token.json" "Docs/token.json" demo.start).2
    = World (fs demo.start) (trace demo.start ++ [EvGraphPut (graph_url "Docs/token.json")]).
Proof.
  intros E.
  apply (upload_sends_file_content E [("access_token", JStr "eyJ.demo")]
           "token.json" "Docs/token.json" demo.start).
  vm_compute. reflexivity.
Defined.

(** X6.  Every failure of [upload_file_to_onedrive_path] leaves the file
    system unchanged and is of one of these kinds: "Missing access token",
    raised before the file is read or any request is made, when the token
    answer has no access token or an empty one; an error from reading the
    local file, again before any request; an exception of the request itself;
    "OneDrive upload failed: <status> - <body>" when the provider answers
    with a status other than 200 and 201; or an error from decoding the body
    of a successful answer. *)
Theorem upload_failures (E : Env) (token_response : dict)
    (local_path remote_path : string) (w : world) (e : exn) (w' : world) :
  onedrive_handler.upload_file_to_onedrive_path E token_response local_path remote_path w
  = (Raise e, w') →
  fs w' = fs w ∧
  let access_token := default JNull (dict_get "access_token" token_response) in
  ((truthy access_token = false ∧ e = RuntimeError "Missing access token" ∧ w' = w) ∨
   (truthy access_token = true ∧ ¬ (∃ data, fs w !! local_path = Some (File data)) ∧
    w' = w) ∨
   (truthy access_token = true ∧ ∃ data,
      fs w !! local_path = Some (File data) ∧
      trace w' = trace w ++ [EvGraphPut (graph_url remote_path)] ∧
      match requests_put E (graph_url remote_path) access_token data with
      | Raise e0 => e = e0
      | Return resp =>
          if bool_decide (status_code resp = 200) || bool_decide (status_code resp = 201)
          then json_body resp = Raise e
          else e = RuntimeError ("OneDrive upload failed: " +:+ pretty (status_code resp)
                                 +:+ " - " +:+ text resp)
      end)).
Proof.
  unfold onedrive_handler.upload_file_to_onedrive_path. fold (graph_url remote_path).
  simpl.
  destruct (truthy (default JNull (dict_get "access_token" token_response))) eqn:Htr; simpl.
  2: { intros H; inversion H; subst. split; [done|]. by left. }
  intros H.
  destruct (fs w !! local_path) as [[|data]|] eqn:Hf.
  - erewrite bind_Raise in H by (by rewrite open_read_run, Hf).
    inversion H; subst. split; [done|]. right; left.
    split; [done|]. split; [|done]. by intros [? ?].
  - erewrite bind_Return in H by (by rewrite open_read_run, Hf).
    unfold bind, log, lift, ret, raise in H. simpl in H.
    destruct (requests_put E _ _ data) as [resp|e0] eqn:Hput.
    + destruct (bool_decide (status_code resp = 200) || bool_decide (status_code resp = 201))
        eqn:Hst; simpl in H.
      * destruct (json_body resp) as [j|e1] eqn:Hj; inversion H; subst.
        split; [done|]. right; right. split; [done|]. exists data.
        split; [done|]. split; [done|]. by rewrite Hput, Hst.
      * inversion H; subst.
        split; [done|]. right; right. split; [done|]. exists data.
        split; [done|]. split; [done|]. by rewrite Hput, Hst.
    + inversion H; subst.
      split; [done|]. right; right. split; [done|]. exists data.
      split; [done|]. split; [done|]. by rewrite Hput.
  - erewrite bind_Raise in H by (by rewrite open_read_run, Hf).
    inversion H; subst. split; [done|]. right; left.
    split; [done|]. split; [|done]. by intros [? ?].
Qed.

Lemma upload_failures_witness :
  let E := scenario.env [] (Return []) (Return [])
             (Return {| status_code := 507; text := "Insufficient Storage";
                        json_body := Return JNull |}) "s3cret" in
  let res := onedrive_handler.upload_file_to_onedrive_path E
               [("access_token", JStr "eyJ.demo")] "token.json" "Docs/token.json"
               demo.start in
  res.1 = Raise (RuntimeError "OneDrive upload failed: 507 - Insufficient Storage") ∧
  fs res.2 = fs demo.start.
Proof.
  intros E res. split; [vm_compute; reflexivity|].
  apply (upload_failures E [("access_token", JStr "eyJ.demo")] "token.json"
           "Docs/token.json" demo.start
           (RuntimeError "OneDrive upload failed: 507 - Insufficient Storage") res.2).
  vm_compute. reflexivity.
Defined.

(** ** The storage token *)

(** Opens a run of one of the credential functions into its cases. *)
Ltac open_runs :=
  repeat (simplify_eq/=; try match goal with
    | H : context [match ?x with _ => _ end] |- _ => destruct x eqn:?
    end); simplify_eq/=.

(** X7.  A token answer returned by [get_onedrive_access_token] always has
    an "access_token" entry: an answer without one, from whichever grant, is
    turned into the error "Could not obtain access token". *)
Theorem onedrive_token_has_access_token (E : Env) (w : world) (tok : dict) (w' : world) :
  onedrive_handler.get_onedrive_access_token E w = (Return tok, w') →
  dict_has "access_token" tok = true.
Proof.
  unfold onedrive_handler.get_onedrive_access_token, onedrive_handler.dict_of,
    type_error, bind, ret, raise, lift, log.
  intros H. open_runs; by apply negb_false_iff.
Qed.

Lemma onedrive_token_has_access_token_witness :
  let E := scenario.env [] (Return []) (Return []) (Return scenario.created) "" in
  (onedrive_handler.get_onedrive_access_token E demo.start).1
  = Return [("access_token", JStr "eyJ.user")] ∧
  dict_has "access_token" [("access_token", JStr "eyJ.user")] = true.
Proof.
  intros E. split; [vm_compute; reflexivity|].
  apply (onedrive_token_has_access_token E demo.start _
           (onedrive_handler.get_onedrive_access_token E demo.start).2).
  vm_compute. reflexivity.
Defined.

(** X8.  The grant is chosen by the client secret alone.  With a secret
    configured, no run of [get_onedrive_access_token] starts or completes a
    device-code flow; without one, no run asks for a client-credentials
    token.  This holds whatever the outcome of the run. *)
Theorem onedrive_grant_follows_secret (E : Env) (w : world) (r : outcome dict)
    (w' : world) :
  onedrive_handler.get_onedrive_access_token E w = (r, w') →
  ∃ evs, trace w' = trace w ++ evs ∧
    if str_empty (config.MSFT_CLIENT_SECRET (settings E))
    then Forall (λ ev, ev ≠ EvMsalClientCredentials) evs
    else Forall (λ ev, ev ≠ EvMsalDeviceInit ∧ ev ≠ EvMsalDeviceAcquire) evs.
Proof.
  unfold onedrive_handler.get_onedrive_access_token, onedrive_handler.dict_of,
    type_error, bind, ret, raise, lift, log.
  intros H.
  destruct (str_empty (config.MSFT_CLIENT_SECRET (settings E))) eqn:Hs;
    simpl in H; open_runs;
    rewrite <- ?(assoc_L (++)); eexists;
    (split; [first [done | symmetry; apply app_nil_r]|]);
    simpl; repeat constructor; done.
Qed.

Lemma onedrive_grant_follows_secret_witness :
  let E := scenario.env [] (Return []) (Return []) (Return scenario.created) "" in
  let res := onedrive_handler.get_onedrive_access_token E demo.start in
  trace res.2 = [EvMsalDeviceInit; EvMsalDeviceAcquire] ∧
  ∃ evs, trace res.2 = trace demo.start ++ evs ∧
    Forall (λ ev, ev ≠ EvMsalClientCredentials) evs.
Proof.
  intros E res. split; [vm_compute; reflexivity|].
  apply (onedrive_grant_follows_secret E demo.start res.1 res.2).
  apply surjective_pairing.
Defined.

(** X9.  When the application knows an account and the silent acquisition
    answers with a non-empty token answer that has an access token, that
    answer is returned as it is after the one silent call: no grant flow is
    run. *)
Theorem onedrive_silent_token_reused (E : Env) (w : world) (a : json)
    (accounts : list json) (d : dict) :
  get_accounts E = a :: accounts →
  acquire_token_silent E = Return (Some d) →
  d ≠ [] →
  dict_has "access_token" d = true →
  onedrive_handler.get_onedrive_access_token E w
  = (Return d, World (fs w) (trace w ++ [EvMsalSilent])).
Proof.
  intros Hacc Hsilent Hd Hat.
  unfold onedrive_handler.get_onedrive_access_token, onedrive_handler.dict_of,
    bind, ret, raise, lift, log.
  rewrite Hacc, Hsilent. simpl. destruct d as [|kv d]; [done|]. simpl.
  by rewrite Hat.
Qed.

Lemma onedrive_silent_token_reused_witness :
  let E := scenario.signed_in (demo.env []) (Some [("access_token", JStr "eyJ.cached")])
             demo.creds in
  onedrive_handler.get_onedrive_access_token E demo.start
  = (Return [("access_token", JStr "eyJ.cached")],
     World (fs demo.start) (trace demo.start ++ [EvMsalSilent])).
Proof.
  intros E.
  by apply (onedrive_silent_token_reused E demo.start (JStr "user@example.com") []).
Defined.

(** ** The mail credentials *)

(** X10.  No run of [build_gmail_service] performs a token refresh: the
    refresh is attempted through the name [Request], which the module does not
    define, so the attempt fails before the call and the failure is swallowed.
    The only outside call a run can make is one local authorization flow. *)
Theorem gmail_service_never_refreshes (E : Env) (w : world) (r : outcome Service)
    (w' : world) :
  email_processor.build_gmail_service E w = (r, w') →
  trace w' = trace w ∨ trace w' = trace w ++ [EvOAuthLocalFlow].
Proof.
  unfold email_processor.build_gmail_service, email_processor.from_authorized_user_file,
    email_processor.from_client_secrets_file, email_processor.Request,
    path_exists, open_read, open_write, try_except,
    bind, ret, raise, lift, log, get_fs, put_fs.
  intros H. open_runs; eauto.
Qed.

Lemma gmail_service_never_refreshes_witness :
  let E := scenario.signed_in (demo.env []) None scenario.stale in
  let res := email_processor.build_gmail_service E scenario.token_and_secrets in
  res.1 = Return {| credentials := Some demo.creds |} ∧
  (trace res.2 = trace scenario.token_and_secrets ∨
   trace res.2 = trace scenario.token_and_secrets ++ [EvOAuthLocalFlow]).
Proof.
  intros E res. split; [vm_compute; reflexivity|].
  apply (gmail_service_never_refreshes E scenario.token_and_secrets res.1 res.2).
  apply surjective_pairing.
Defined.

(** X11.  With a token file whose credentials are valid, the service is
    built on exactly those credentials and the world is untouched: no flow, no
    call, no write. *)
Theorem gmail_service_valid_token_reused (E : Env) (w : world) (info : string)
    (c : Credentials) :
  fs w !! config.GOOGLE_TOKEN_FILE (settings E) = Some (File info) →
  from_authorized_user_info E info = Return c →
  valid c = true →
  email_processor.build_gmail_service E w = (Return {| credentials := Some c |}, w).
Proof.
  intros Hf Hc Hv.
  unfold email_processor.build_gmail_service, email_processor.from_authorized_user_file.
  erewrite bind_Return by apply path_exists_run.
  rewrite (exists_in_Some _ _ _ Hf).
  erewrite bind_Return.
  2: { erewrite bind_Return.
       2: { erewrite bind_Return by (by rewrite open_read_run, Hf).
            unfold lift. by rewrite Hc. }
       done. }
  simpl. rewrite Hv. simpl. by erewrite bind_Return.
Qed.

Lemma gmail_service_valid_token_reused_witness :
  email_processor.build_gmail_service (demo.env []) demo.start
  = (Return {| credentials := Some demo.creds |}, demo.start).
Proof.
  by apply (gmail_service_valid_token_reused (demo.env []) demo.start "{token: ya29.demo}").
Defined.



(** X13.  With no token file on disk, a service is only ever built through
    the local authorization flow: the client secrets file is read, one flow is
    run, and the credentials it yields are both the ones the service carries
    and the content, serialized, of the token file written before the service
    is returned. *)
Theorem gmail_service_first_use (E : Env) (w : world) (service : Service) (w' : world) :
  fs w !! config.GOOGLE_TOKEN_FILE (settings E) = None →
  email_processor.build_gmail_service E w = (Return service, w') →
  ∃ cfg flow c,
    fs w !! config.GOOGLE_CREDENTIALS_FILE (settings E) = Some (File cfg) ∧
    from_client_config E cfg = Return flow ∧
    run_local_server E flow = Return c ∧
    service = {| credentials := Some c |} ∧
    w' = World (<[config.GOOGLE_TOKEN_FILE (settings E) := File (to_json E c)]> (fs w))
           (trace w ++ [EvOAuthLocalFlow]).
Proof.
  intros Htok.
  unfold email_processor.build_gmail_service, email_processor.from_authorized_user_file,
    email_processor.from_client_secrets_file, email_processor.Request,
    path_exists, open_read, open_write, try_except, exists_in,
    bind, ret, raise, lift, log, get_fs, put_fs.
  rewrite Htok. simpl.
  intros H. open_runs. eauto 10.
Qed.

Lemma gmail_service_first_use_witness :
  let E := demo.env [] in
  ∃ cfg flow c,
    fs scenario.with_secrets !! config.GOOGLE_CREDENTIALS_FILE (settings E)
    = Some (File cfg) ∧
    from_client_config E cfg = Return flow ∧
    run_local_server E flow = Return c ∧
    {| credentials := Some demo.creds |} = {| credentials := Some c |} ∧
    (email_processor.build_gmail_service E scenario.with_secrets).2
    = World (<[config.GOOGLE_TOKEN_FILE (settings E) := File (to_json E c)]>
               (fs scenario.with_secrets))
        (trace scenario.with_secrets ++ [EvOAuthLocalFlow]).
Proof.
  intros E.
  apply (gmail_service_first_use E scenario.with_secrets).
  - vm_compute. reflexivity.
  - vm_compute. reflexivity.
Defined.

(** ** The archive *)

Lemma zf_write_run E out zf f arcname w nd :
  fs w !! f = Some nd →
  zf_write E out zf f arcname w
  = (Return (zf ++ [match nd with
                    | File data => (arcname, data)
                    | Dir => (arcname +:+ "/", EmptyString)
                    end]),
     World (<[out := File (zip_encode E
                (zf ++ [match nd with
                        | File data => (arcname, data)
                        | Dir => (arcname +:+ "/", EmptyString)
                        end]))]> (fs w))
       (trace w ++ [EvZipWrite f arcname])).
Proof.
  intros Hf. unfold zf_write, bind, log, get_fs, put_fs, ret. simpl. by rewrite Hf.
Qed.

(** Writing regular files other than the archive itself: the archive ends
    up holding one more entry per file, named by its base name. *)
Lemma write_files_entries E out paths zf w :
  fs w !! out = Some (File (zip_encode E zf)) →
  Forall (λ p, p ≠ out ∧ ∃ data, fs w !! p = Some (File data)) paths →
  ∃ w2,
    file_compressor.write_files E out paths zf w = (Return tt, w2) ∧
    fs w2 !! out = Some (File (zip_encode E (zf ++ (file_entry (fs w) <$> paths)))) ∧
    (∀ p, p ≠ out → fs w2 !! p = fs w !! p) ∧
    trace w2 = trace w ++ ((λ f, EvZipWrite f (basename f)) <$> paths).
Proof.
  revert zf w. induction paths as [|f paths IH]; intros zf w Hout Hall.
  { exists w. simpl. rewrite !app_nil_r. done. }
  apply Forall_cons in Hall as [[Hne [data Hf]] Hall].
  set (w1 := World (<[out := File (zip_encode E (zf ++ [(basename f, data)]))]> (fs w))
               (trace w ++ [EvZipWrite f (basename f)])).
  destruct (IH (zf ++ [(basename f, data)]) w1) as (w2 & Hrun & Hout2 & Hframe & Htr).
  { simpl. apply lookup_insert_eq. }
  { eapply Forall_impl; [exact Hall|]. intros p [Hp [d Hd]]. split; [done|].
    exists d. simpl. by rewrite lookup_insert_ne. }
  exists w2. split; [|split; [|split]].
  - simpl. erewrite bind_Return by apply path_exists_run.
    rewrite (exists_in_Some _ _ _ Hf). simpl.
    erewrite bind_Return by (by apply zf_write_run). done.
  - assert (file_entry (fs w1) <$> paths = file_entry (fs w) <$> paths) as Heq.
    { apply Forall_fmap_ext_1. eapply Forall_impl; [exact Hall|].
      intros p [Hp _]. unfold file_entry. simpl. by rewrite lookup_insert_ne. }
    rewrite Hout2, Heq, fmap_cons, <- (assoc_L (++)).
    unfold file_entry at 2. by rewrite Hf.
  - intros p Hp. rewrite Hframe by done. simpl. by rewrite lookup_insert_ne.
  - rewrite Htr. simpl. by rewrite <- (assoc_L (++)).
Qed.

(** X14.  When the output directory and the archive file can be created
    and every input is a regular file other than the archive itself,
    [compress_files] succeeds and leaves at the output path an archive with
    exactly one entry per input, in the order given, each named by the base
    name of its file and holding the file's content.  Whatever was at the
    output path before is replaced, and nothing else is touched after the
    directories are made. *)
Theorem compress_archive_entries (E : Env) (paths : list string) (output_zip : string)
    (w w0 : world) (zf : list (string * string)) (w1 : world) :
  makedirs (let d := dirname output_zip in if str_empty d then "." else d) w
  = (Return tt, w0) →
  ZipFile_open E output_zip w0 = (Return zf, w1) →
  Forall (λ p, p ≠ output_zip ∧ ∃ data, fs w !! p = Some (File data)) paths →
  ∃ w2,
    file_compressor.compress_files E paths output_zip w = (Return tt, w2) ∧
    fs w2 !! output_zip = Some (File (zip_encode E (file_entry (fs w) <$> paths))) ∧
    (∀ p, p ≠ output_zip → fs w2 !! p = fs w0 !! p) ∧
    trace w2 = trace w ++ EvZipOpen output_zip
                 :: ((λ f, EvZipWrite f (basename f)) <$> paths).
Proof.
  intros Hdirs Hopen Hall.
  pose proof (ZipFile_open_inv _ _ _ _ _ Hopen) as (-> & Hw1 & _).
  pose proof (makedirs_keeps_fs _ _ _ _ Hdirs) as Hk.
  pose proof (makedirs_trace _ _ _ _ Hdirs) as Htr0.
  destruct (write_files_entries E output_zip paths [] w1) as (w2 & Hrun & Hout & Hframe & Htr).
  { subst w1. simpl. apply lookup_insert_eq. }
  { eapply Forall_impl; [exact Hall|]. intros p [Hp [d Hd]]. split; [done|].
    exists d. subst w1. simpl. rewrite lookup_insert_ne by done.
    by eapply lookup_weaken. }
  exists w2. split; [|split; [|split]].
  - unfold file_compressor.compress_files.
    erewrite bind_Return by done. erewrite bind_Return by done. done.
  - assert (file_entry (fs w1) <$> paths = file_entry (fs w) <$> paths) as Heq.
    { apply Forall_fmap_ext_1. eapply Forall_impl; [exact Hall|].
      intros p [Hp [d Hd]]. unfold file_entry. subst w1. simpl.
      rewrite lookup_insert_ne by done.
      by rewrite Hd, (lookup_weaken _ _ _ _ Hd Hk). }
    by rewrite Hout, Heq.
  - intros p Hp. rewrite Hframe by done. subst w1. simpl. by rewrite lookup_insert_ne.
  - rewrite Htr. subst w1. simpl. rewrite Htr0, <- (assoc_L (++)). done.
Qed.

Lemma compress_archive_entries_witness :
  let E := demo.env [] in
  let w := World {[ "/in/a.txt" := File "alpha"; "/in/b.txt" := File "beta";
                    "out.zip" := File "stale" ]} [] in
  ∃ w2,
    file_compressor.compress_files E ["/in/a.txt"; "/in/b.txt"] "out.zip" w
    = (Return tt, w2) ∧
    fs w2 !! "out.zip"
    = Some (File (zip_encode E [("a.txt", "alpha"); ("b.txt", "beta")])).
Proof.
  intros E w.
  destruct (compress_archive_entries E ["/in/a.txt"; "/in/b.txt"] "out.zip" w
              (makedirs "." w).2 [] (ZipFile_open E "out.zip" (makedirs "." w).2).2)
    as (w2 & Hrun & Hout & _).
  - vm_compute. reflexivity.
  - vm_compute. reflexivity.
  - repeat constructor; try done; eexists; vm_compute; reflexivity.
  - exists w2. split; [done|]. rewrite Hout. vm_compute. reflexivity.
Defined.

(** *** What the archive step leaves alone *)

Lemma write_files_frame E out paths zf w data r w' :
  fs w !! out = Some (File data) →
  file_compressor.write_files E out paths zf w = (r, w') →
  (∀ q, q ≠ out → fs w' !! q = fs w !! q) ∧ ∃ data', fs w' !! out = Some (File data').
Proof.
  revert zf w data. induction paths as [|f paths IH]; intros zf w data Hout H; simpl in H.
  { inversion H; subst. eauto. }
  erewrite bind_Return in H by apply path_exists_run.
  destruct (fs w !! f) as [nd|] eqn:Hf.
  - rewrite (exists_in_Some _ _ _ Hf) in H. simpl in H.
    erewrite bind_Return in H by (by apply zf_write_run).
    eapply IH in H as [Hframe Hout']; [|simpl; apply lookup_insert_eq].
    split; [|done]. intros q Hq. rewrite Hframe by done. simpl.
    by rewrite lookup_insert_ne.
  - rewrite (exists_in_None _ _ Hf) in H. simpl in H.
    inversion H; subst. eauto.
Qed.

Lemma compress_files_frame E paths out w r w' :
  file_compressor.compress_files E paths out w = (r, w') →
  ∀ p nd, fs w !! p = Some nd → p ≠ out ∨ nd = Dir → fs w' !! p = Some nd.
Proof.
  unfold file_compressor.compress_files. intros H p nd Hp Hcase.
  apply bind_inv in H as [([] & w0 & Hdirs & H)|(e & Hdirs & _)].
  2: { apply makedirs_keeps_fs in Hdirs. by eapply lookup_weaken. }
  apply makedirs_keeps_fs in Hdirs.
  pose proof (lookup_weaken _ _ _ _ Hp Hdirs) as Hp0.
  apply bind_inv in H as [(zf & w1 & Hopen & H)|(e & Hopen & _)].
  - pose proof (ZipFile_open_inv _ _ _ _ _ Hopen) as (-> & Hw1 & Hnodir).
    assert (p ≠ out) as Hne.
    { destruct Hcase as [?| ->]; [done|]. intros ->.
      unfold is_dir_in in Hnodir. by rewrite Hp0 in Hnodir. }
    eapply write_files_frame in H as [Hframe _].
    2: { subst w1. simpl. apply lookup_insert_eq. }
    rewrite Hframe by done. subst w1. simpl. by rewrite lookup_insert_ne.
  - unfold ZipFile_open in Hopen.
    apply bind_inv in Hopen as [([] & w1 & Hlog & Hopen)|(e' & Hlog & _)];
      [|by inversion Hlog].
    inversion Hlog; subst w1; clear Hlog.
    apply bind_inv in Hopen as [([] & w2 & Hopen & Hret)|(e' & Hopen & _)];
      [by inversion Hret|].
    by apply open_write_inv in Hopen as [(? & _ & ->)|(? & _)].
Qed.

(** X15.  Whatever its outcome, [compress_files] leaves every entry that
    existed before the call as it was, except the file at the output path; a
    directory is never replaced, not even one at the output path. *)
Theorem compress_touches_only_output (E : Env) (paths : list string) (output_zip : string)
    (w : world) (r : outcome unit) (w' : world) :
  file_compressor.compress_files E paths output_zip w = (r, w') →
  ∀ p nd, fs w !! p = Some nd → p ≠ output_zip ∨ nd = Dir → fs w' !! p = Some nd.
Proof. apply compress_files_frame. Qed.

Lemma compress_touches_only_output_witness :
  let res := file_compressor.compress_files (demo.env []) ["token.json"; "gone.txt"]
               "/tmp" demo.start in
  fs res.2 !! "/tmp" = Some Dir ∧ fs res.2 !! "token.json" = fs demo.start !! "token.json".
Proof.
  intros res. split.
  - apply (compress_touches_only_output (demo.env []) ["token.json"; "gone.txt"] "/tmp"
             demo.start res.1 res.2); [apply surjective_pairing| |by right].
    vm_compute. reflexivity.
  - vm_compute. reflexivity.
Defined.

(** ** The working directory is always cleaned up *)

Global Instance keeps_dirs_preorder : PreOrder keeps_dirs.
Proof. split; [by intros w p|]. intros w1 w2 w3 H12 H23 p Hp. auto. Qed.

Lemma keeps_fs_keeps_dirs w w' : keeps_fs w w' → keeps_dirs w w'.
Proof. intros H p Hp. by eapply lookup_weaken. Qed.

Lemma keeps_dirs_log ev : preserves keeps_dirs (log ev).
Proof. intros w r w' H p Hp. by inversion H; subst. Qed.

Lemma open_write_keeps_dirs p data : preserves keeps_dirs (open_write p data).
Proof.
  intros w r w' H q Hq.
  apply open_write_inv in H as [(e & _ & ->)|(_ & -> & Hnodir & _)]; [done|].
  simpl. rewrite lookup_insert_ne; [done|]. intros ->.
  unfold is_dir_in in Hnodir. by rewrite Hq in Hnodir.
Qed.

Lemma makedirs_keeps_dirs d : preserves keeps_dirs (makedirs d).
Proof. intros w r w' H. by apply keeps_fs_keeps_dirs, (makedirs_keeps_fs d w r). Qed.

Lemma compress_files_keeps_dirs E paths out :
  preserves keeps_dirs (file_compressor.compress_files E paths out).
Proof. intros w r w' H p Hp. eapply compress_files_frame; eauto. Qed.

Global Hint Resolve keeps_dirs_log open_write_keeps_dirs makedirs_keeps_dirs
  compress_files_keeps_dirs : frame.

Lemma build_gmail_service_keeps_dirs E :
  preserves keeps_dirs (email_processor.build_gmail_service E).
Proof.
  unfold email_processor.build_gmail_service, email_processor.from_authorized_user_file,
    email_processor.from_client_secrets_file, email_processor.Request.
  frame.
Qed.

Lemma collect_found_keeps_dirs E service messages found :
  preserves keeps_dirs (email_processor.collect_found E service messages found).
Proof. revert found. induction messages as [|m rest IH]; intros found; simpl; frame. Qed.

Lemma search_keeps_dirs E service query max_results :
  preserves keeps_dirs
    (email_processor.search_messages_with_attachments E service query max_results).
Proof.
  unfold email_processor.search_messages_with_attachments.
  pose proof (collect_found_keeps_dirs E service). frame.
Qed.

Lemma save_parts_keeps_dirs E service mid folder ps saved :
  preserves keeps_dirs (email_processor.save_parts E service mid folder ps saved).
Proof.
  revert saved. induction ps as [|part ps IH]; intros saved; simpl; [frame|].
  apply preserves_bind; [apply _| |done].
  unfold email_processor.save_part. frame.
Qed.

Lemma save_messages_keeps_dirs E service folder messages saved :
  preserves keeps_dirs (email_processor.save_messages E service folder messages saved).
Proof.
  revert saved. induction messages as [|msg rest IH]; intros saved; simpl; [frame|].
  pose proof (save_parts_keeps_dirs E service (msg_id msg) folder). frame.
Qed.

Lemma download_keeps_dirs E service messages folder :
  preserves keeps_dirs
    (email_processor.download_attachments_from_messages E service messages folder).
Proof.
  unfold email_processor.download_attachments_from_messages.
  pose proof (save_messages_keeps_dirs E service folder messages). frame.
Qed.

Lemma send_keeps_dirs E service to subject body_text file_path :
  preserves keeps_dirs
    (email_processor.send_message_with_attachment E service to subject body_text file_path).
Proof. unfold email_processor.send_message_with_attachment. frame. Qed.

Lemma get_token_keeps_dirs E :
  preserves keeps_dirs (onedrive_handler.get_onedrive_access_token E).
Proof.
  unfold onedrive_handler.get_onedrive_access_token, onedrive_handler.dict_of. frame.
Qed.

Lemma upload_file_keeps_dirs E token lp rp :
  preserves keeps_dirs (onedrive_handler.upload_file_to_onedrive_path E token lp rp).
Proof. unfold onedrive_handler.upload_file_to_onedrive_path. frame. Qed.

Lemma upload_local_paths_keeps_dirs E token rf lps uploaded :
  preserves keeps_dirs (server.upload_local_paths E token rf lps uploaded).
Proof.
  revert uploaded. induction lps as [|lp lps IH]; intros uploaded; simpl; [frame|].
  pose proof (upload_file_keeps_dirs E token). frame.
Qed.

Lemma upload_files_keeps_dirs E token rf files uploaded :
  preserves keeps_dirs (server.upload_files E token rf files uploaded).
Proof.
  revert uploaded. induction files as [|f files IH]; intros uploaded; simpl; [frame|].
  pose proof (upload_file_keeps_dirs E token). frame.
Qed.

Lemma as_str_list_go_frame R `{!PreOrder R} l : preserves R (as_str_list_go l).
Proof. induction l as [|v l IH]; simpl; frame. Qed.

Lemma as_str_list_frame R `{!PreOrder R} v : preserves R (as_str_list v).
Proof. unfold as_str_list. pose proof (as_str_list_go_frame R). frame. Qed.

Lemma tool_body_keeps_dirs E tool data work_dir :
  preserves keeps_dirs (server.tool_body E tool data work_dir).
Proof.
  unfold server.tool_body.
  pose proof (build_gmail_service_keeps_dirs E).
  pose proof (search_keeps_dirs E).
  pose proof (download_keeps_dirs E).
  pose proof (send_keeps_dirs E).
  pose proof (get_token_keeps_dirs E).
  pose proof (upload_local_paths_keeps_dirs E).
  pose proof (upload_files_keeps_dirs E).
  pose proof (as_str_list_frame keeps_dirs).
  frame.
Qed.

(** X16.  Once validation has passed and the working directory has been
    created, every invocation, whichever tool it names and whether its body
    returns or raises, hands back a world in which nothing is left at or below
    the working directory. *)
Theorem workspace_always_removed (E : Env) (req : server.RunRequest)
    (required : list string) (w : world) (work_dir : string) (w1 : world)
    (r : outcome dict) (w' : world) :
  server.tool_required (server.tool req) server.TOOL_DEFINITIONS = Some required →
  Forall (λ k, is_Some (server.input req !! k)) required →
  mkdtemp E "mcp_work_" w = (Return work_dir, w1) →
  server.run_tool E req w = (r, w') →
  ∀ p, under work_dir p = true → fs w' !! p = None.
Proof.
  intros Htool Hreq Hmk Hrun p Hp.
  rewrite (run_tool_past_validation E req required w work_dir w1) in Hrun by done.
  assert (fs w1 !! work_dir = Some Dir) as Hwd.
  { apply mkdtemp_inv in Hmk as [(? & ? & ? & ?)|(name & _ & Hr & ->)]; [done|].
    inversion Hr. simpl. apply lookup_insert_eq. }
  destruct (server.tool_body E (server.tool req) (server.input req) work_dir w1)
    as [r2 w2] eqn:Hbody.
  apply tool_body_keeps_dirs in Hbody. apply Hbody in Hwd.
  destruct r2; inversion Hrun; subst; by apply rmtree_quiet_removes.
Qed.

Lemma workspace_always_removed_witness :
  let mailbox := [demo.message "m1" [demo.named "a.txt" "A1"]] in
  let E := scenario.env mailbox (Return ["m1"]) (Return [])
             (Return {| status_code := 507; text := "Insufficient Storage";
                        json_body := Return JNull |}) "s3cret" in
  let res := server.run_tool E demo.pipeline demo.start in
  res.1 = Raise (HTTPException 500
            "Tool execution error: OneDrive upload failed: 507 - Insufficient Storage") ∧
  fs res.2 !! "/tmp/mcp_work_k3x9q2ab/a.txt" = None.
Proof.
  intros mailbox E res. split; [vm_compute; reflexivity|].
  apply (workspace_always_removed E demo.pipeline
           ["query"; "max_results"; "onedrive_folder"; "recipient_email"; "zip_name"]
           demo.start "/tmp/mcp_work_k3x9q2ab" (mkdtemp E "mcp_work_" demo.start).2
           res.1 res.2).
  - reflexivity.
  - repeat constructor; vm_compute; eauto.
  - vm_compute. reflexivity.
  - apply surjective_pairing.
  - vm_compute. reflexivity.
Defined.

(** ** The upload loops *)

Lemma as_str_inv v w s w' : as_str v w = (Return s, w') → v = JStr s ∧ w' = w.
Proof. destruct v; intros H; by inversion H. Qed.

Lemma getitem_inv (data : gmap string json) k w v w' :
  getitem data k w = (Return v, w') → data !! k = Some v ∧ w' = w.
Proof. unfold getitem. destruct (data !! k); intros H; by inversion H. Qed.

Lemma upload_local_paths_spec E token folder paths uploaded w ups w' :
  server.upload_local_paths E token (JStr folder) (JStr <$> paths) uploaded w
  = (Return ups, w') →
  ∃ new,
    ups = uploaded ++ new ∧
    Forall2 (λ lp res, ∃ access_token data resp,
        dict_get "access_token" token = Some access_token ∧
        fs w !! absolute E lp = Some (File data) ∧
        requests_put E (graph_url (server.remote_path_of folder (absolute E lp)))
          access_token data = Return resp ∧
        json_body resp = Return res) paths new ∧
    fs w' = fs w ∧
    trace w' = trace w ++
      ((λ lp, EvGraphPut (graph_url (server.remote_path_of folder (absolute E lp))))
         <$> paths).
Proof.
  revert uploaded w. induction paths as [|lp paths IH]; intros uploaded w H.
  { inversion H; subst. exists []. rewrite !app_nil_r. repeat split; constructor. }
  rewrite fmap_cons in H. simpl in H.
  erewrite bind_Return in H by done. fold (absolute E lp) in H.
  erewrite bind_Return in H by apply path_exists_run.
  destruct (exists_in (fs w) (absolute E lp)); simpl in H; [|done].
  erewrite bind_Return in H by done.
  apply bind_Return_inv in H as (res & w1 & Hup & H).
  apply upload_file_Return_inv in Hup
    as (at_ & data & resp & Hat & _ & Hf & Hput & _ & Hj & ->).
  apply IH in H as (new & -> & Hall & Hfs & Htr). simpl in *.
  exists (res :: new). split; [by rewrite <- (assoc_L (++))|]. split; [|split; [done|]].
  - constructor; [|done]. exists at_, data, resp. done.
  - rewrite Htr, <- (assoc_L (++)). done.
Qed.

(** X17.  When the upload loop of the upload tool returns, it has made
    exactly one PUT per local path, in order, each to the remote folder joined
    with the base name of the path made absolute; every such path was a
    regular file whose content was what the PUT carried, and the list returned
    holds the provider's descriptor for each path, in the same order.  The
    file system is unchanged. *)
Theorem upload_tool_one_put_per_path (E : Env) (token : dict) (folder : string)
    (paths : list string) (w : world) (ups : list json) (w' : world) :
  server.upload_local_paths E token (JStr folder) (JStr <$> paths) [] w
  = (Return ups, w') →
  Forall2 (λ lp res, ∃ access_token data resp,
      dict_get "access_token" token = Some access_token ∧
      fs w !! absolute E lp = Some (File data) ∧
      requests_put E (graph_url (server.remote_path_of folder (absolute E lp)))
        access_token data = Return resp ∧
      json_body resp = Return res) paths ups ∧
  fs w' = fs w ∧
  trace w' = trace w ++
    ((λ lp, EvGraphPut (graph_url (server.remote_path_of folder (absolute E lp))))
       <$> paths).
Proof. intros (new & -> & H)%upload_local_paths_spec. done. Qed.

Lemma upload_tool_one_put_per_path_witness :
  let E := demo.env [] in
  let token := [("access_token", JStr "eyJ.demo")] in
  let w := World {[ "/srv/app/a.txt" := File "alpha"; "/in/b c.txt" := File "beta" ]} [] in
  let res := server.upload_local_paths E token (JStr "Docs") (JStr <$> ["a.txt"; "/in/b c.txt"])
               [] w in
  res.1 = Return [JObj []; JObj []] ∧
  trace res.2
  = trace w ++
      [EvGraphPut "https://graph.microsoft.com/v1.0/me/drive/root:/Docs/a.txt:/content";
       EvGraphPut "https://graph.microsoft.com/v1.0/me/drive/root:/Docs/b c.txt:/content"].
Proof.
  intros E token w res. split; [vm_compute; reflexivity|].
  destruct (upload_tool_one_put_per_path E token "Docs" ["a.txt"; "/in/b c.txt"] w
              [JObj []; JObj []] res.2) as (_ & _ & Htr).
  - vm_compute. reflexivity.
  - rewrite Htr. vm_compute. reflexivity.
Defined.

Lemma upload_files_length E token rf files uploaded w ups w' :
  server.upload_files E token rf files uploaded w = (Return ups, w') →
  length ups = (length uploaded + length files)%nat.
Proof.
  revert uploaded w. induction files as [|f files IH]; intros uploaded w H; simpl in H.
  { inversion H; subst. simpl. lia. }
  apply bind_Return_inv in H as (folder & w1 & _ & H).
  apply bind_Return_inv in H as (res & w2 & _ & H).
  apply IH in H. rewrite H, length_app. simpl. lia.
Qed.

(** ** What the tools answer *)

Lemma endswith_refl (t : string) : endswith t t = true.
Proof. destruct t; simpl; [done|]. by rewrite Ascii.eqb_refl, String.eqb_refl. Qed.

Lemma endswith_app (a x t : string) : endswith x t = true → endswith (a +:+ x) t = true.
Proof.
  intros H. induction a as [|c a IH]; [done|].
  rewrite string_app_cons.
  change (String.eqb (String c (a +:+ x)) t || endswith (a +:+ x) t = true).
  rewrite IH. apply orb_true_r.
Qed.

Lemma endswith_path_join (d x t : string) :
  endswith x t = true → endswith (path_join d x) t = true.
Proof.
  intros H. unfold path_join. destruct (isabs x); [done|].
  destruct (str_empty d); [done|]. by apply endswith_app.
Qed.

Lemma under_unique_path m folder name :
  str_empty folder = false → isabs name = false →
  under folder (email_processor.unique_path m (path_join folder name)) = true.
Proof.
  intros Hf Hn.
  destruct (unique_path_spec m (path_join folder name))
    as [_ [[_ ->]|(_ & j & _ & -> & _)]].
  - by apply under_path_join.
  - by apply under_numbered.
Qed.

(** X18.  A full-pipeline invocation that answers with a payload answers
    either with the no-messages payload or with the four fields
    [downloaded_files], [uploaded], [zip_path] and [send_result], in that
    order, where: the downloaded paths are pairwise distinct; [uploaded] has
    one descriptor per downloaded file; and [zip_path] is the requested
    [zip_name], with ".zip" appended unless it already ends so, joined to the
    working directory, so that it always ends in ".zip". *)
Theorem pipeline_success_payload (E : Env) (req : server.RunRequest)
    (required : list string) (w : world) (work_dir : string) (w1 : world)
    (payload : dict) (w' : world) :
  server.tool req = "orchestrate_full_pipeline" →
  server.tool_required (server.tool req) server.TOOL_DEFINITIONS = Some required →
  Forall (λ k, is_Some (server.input req !! k)) required →
  mkdtemp E "mcp_work_" w = (Return work_dir, w1) →
  server.run_tool E req w = (Return payload, w') →
  payload = [("status", JStr "no_messages_found"); ("downloaded_files", JList [])] ∨
  ∃ files uploaded zip_name send_res,
    server.input req !! "zip_name" = Some (JStr zip_name) ∧
    let zip_path := path_join work_dir
          (if endswith zip_name ".zip" then zip_name else zip_name +:+ ".zip") in
    payload = [("downloaded_files", server.paths_json files);
               ("uploaded", JList uploaded);
               ("zip_path", JStr zip_path);
               ("send_result", JObj send_res)] ∧
    NoDup files ∧
    length uploaded = length files ∧
    endswith zip_path ".zip" = true.
Proof.
  intros Htool Hreqd Hreq Hmk Hrun.
  rewrite (run_tool_past_validation E req required w work_dir w1) in Hrun by done.
  destruct (server.tool_body E (server.tool req) (server.input req) work_dir w1)
    as [[payload'|e] w2] eqn:Hbody; inversion Hrun; subst payload' w'; clear Hrun.
  rewrite Htool in Hbody. unfold server.tool_body in Hbody.
  simpl (String.eqb _ _) in Hbody. cbv iota in Hbody.
  apply bind_Return_inv in Hbody as (query & u1 & _ & H).
  apply bind_Return_inv in H as (mr & u2 & _ & H).
  apply bind_Return_inv in H as (max_results & u3 & _ & H).
  apply bind_Return_inv in H as (onedrive_folder & u4 & _ & H).
  apply bind_Return_inv in H as (recipient & u5 & _ & H).
  apply bind_Return_inv in H as (zip_name & u6 & Hzn & H).
  apply getitem_inv in Hzn as [Hzn _].
  apply bind_Return_inv in H as (service & u7 & _ & H).
  apply bind_Return_inv in H as (q & u8 & _ & H).
  apply bind_Return_inv in H as (messages & u9 & _ & H).
  destruct messages as [|msg messages]; [left; by inversion H|right].
  apply bind_Return_inv in H as (files & u10 & Hdl & H).
  apply bind_Return_inv in H as (token & u11 & _ & H).
  apply bind_Return_inv in H as (uploaded & u12 & Hup & H).
  apply bind_Return_inv in H as (zn & u13 & Hzs & H).
  apply as_str_inv in Hzs as [-> _].
  apply bind_Return_inv in H as ([] & u14 & _ & H).
  apply bind_Return_inv in H as (rcp & u15 & _ & H).
  apply bind_Return_inv in H as (send_res & u16 & _ & H).
  inversion H; subst; clear H.
  exists files, uploaded, zn, send_res. split; [done|]. simpl.
  split; [done|]. split; [by apply download_spec in Hdl as (_ & _ & ?)|].
  split; [by apply upload_files_length in Hup|].
  apply endswith_path_join. destruct (endswith zn ".zip") eqn:Hz; [done|].
  apply endswith_app, endswith_refl.
Qed.

Lemma pipeline_success_payload_witness :
  let mailbox := [demo.message "m1" [demo.named "a.txt" "A1"];
                  demo.message "m2" [demo.named "a.txt" "A2"]] in
  let E := demo.env mailbox in
  let res := server.run_tool E demo.pipeline demo.start in
  res.1 = Return
    [("downloaded_files",
      server.paths_json ["/tmp/mcp_work_k3x9q2ab/a.txt"; "/tmp/mcp_work_k3x9q2ab/a_1.txt"]);
     ("uploaded", JList [JObj []; JObj []]);
     ("zip_path", JStr "/tmp/mcp_work_k3x9q2ab/out.zip");
     ("send_result", JObj [("id", JStr "sent-1")])] ∧
  (∀ payload, res.1 = Return payload →
     payload = [("status", JStr "no_messages_found"); ("downloaded_files", JList [])] ∨
     ∃ files uploaded zip_name send_res,
       server.input demo.pipeline !! "zip_name" = Some (JStr zip_name) ∧
       let zip_path := path_join "/tmp/mcp_work_k3x9q2ab"
             (if endswith zip_name ".zip" then zip_name else zip_name +:+ ".zip") in
       payload = [("downloaded_files", server.paths_json files);
                  ("uploaded", JList uploaded);
                  ("zip_path", JStr zip_path);
                  ("send_result", JObj send_res)] ∧
       NoDup files ∧
       length uploaded = length files ∧
       endswith zip_path ".zip" = true).
Proof.
  intros mailbox E res. split; [vm_compute; reflexivity|].
  intros payload Hres.
  apply (pipeline_success_payload E demo.pipeline
           ["query"; "max_results"; "onedrive_folder"; "recipient_email"; "zip_name"]
           demo.start "/tmp/mcp_work_k3x9q2ab" (mkdtemp E "mcp_work_" demo.start).2
           payload res.2).
  - reflexivity.
  - reflexivity.
  - repeat constructor; vm_compute; eauto.
  - vm_compute. reflexivity.
  - rewrite <- Hres. apply surjective_pairing.
Defined.

Lemma inside_unique_path m folder name :
  str_empty folder = false → isabs name = false → no_dotdot name = true →
  inside folder (email_processor.unique_path m (path_join folder name)) = true.
Proof.
  intros Hf Hn Hno.
  destruct (unique_path_spec m (path_join folder name))
    as [_ [[_ ->]|(_ & j & _ & -> & _)]].
  - by apply inside_path_join.
  - by apply inside_numbered.
Qed.

(** X19.  Take a search-and-download invocation that answers with a payload,
    and the messages the search of that invocation found.  The payload is the
    single field [downloaded_files], with one path for each attachment part of
    those messages, in order.  Every such path that comes from a relative
    attachment name with no ".." component led inside the working directory,
    and leads to nothing in the world the caller gets back: the file it named
    went with the working directory. *)
Theorem search_tool_paths_removed (E : Env) (req : server.RunRequest) (w : world)
    (work_dir : string) (w1 : world) (query : string) (mr : json) (max_results : Z)
    (service : Service) (w2 : world) (messages : list Message) (w3 : world)
    (payload : dict) (w' : world) :
  server.tool req = "search_and_download_attachments" →
  server.input req !! "query" = Some (JStr query) →
  server.input req !! "max_results" = Some mr →
  mkdtemp E "mcp_work_" w = (Return work_dir, w1) →
  py_int E mr w1 = (Return max_results, w1) →
  email_processor.build_gmail_service E w1 = (Return service, w2) →
  email_processor.search_messages_with_attachments E service query max_results w2
  = (Return messages, w3) →
  server.run_tool E req w = (Return payload, w') →
  ∃ files,
    payload = [("downloaded_files", server.paths_json files)] ∧
    Forall2 (λ path att,
        isabs att.2 = false → no_dotdot att.2 = true →
        inside work_dir path = true ∧ fs w' !! path = None)
      files (attachments_of messages).
Proof.
  intros Htool Hq Hmr Hmk Hint Hbuild Hsearch Hrun.
  pose proof (mkdtemp_nonempty _ _ _ _ Hmk) as Hne.
  assert (fs w1 !! work_dir = Some Dir) as Hwd.
  { apply mkdtemp_inv in Hmk as [(? & ? & ? & ?)|(name & _ & Hr & ->)]; [done|].
    inversion Hr. simpl. apply lookup_insert_eq. }
  rewrite (run_tool_past_validation E req ["query"; "max_results"] w work_dir w1)
    in Hrun; [|by rewrite Htool|by repeat constructor; rewrite ?Hq, ?Hmr|done].
  destruct (server.tool_body E (server.tool req) (server.input req) work_dir w1)
    as [[payload'|e] u] eqn:Hbody; inversion Hrun; subst payload' w'; clear Hrun.
  pose proof (tool_body_keeps_dirs _ _ _ _ _ _ _ Hbody _ Hwd) as Hwd2.
  rewrite Htool in Hbody. unfold server.tool_body in Hbody.
  simpl (String.eqb _ _) in Hbody. cbv iota in Hbody.
  erewrite bind_Return in Hbody by (by apply getitem_Some).
  erewrite bind_Return in Hbody by (by apply getitem_Some).
  erewrite bind_Return in Hbody by done.
  erewrite bind_Return in Hbody by done.
  erewrite bind_Return in Hbody by done.
  erewrite bind_Return in Hbody by done.
  destruct messages as [|msg messages].
  { inversion Hbody; subst. exists []. split; [done|]. constructor. }
  apply bind_Return_inv in Hbody as (files & u7 & Hdl & H).
  inversion H; subst; clear H.
  exists files. split; [done|].
  apply download_spec in Hdl as (_ & F & _).
  eapply Forall2_impl; [exact F|]. intros path [[mid aid] name].
  intros (data & m & _ & _ & _ & _ & _ & ->) Hrel Hno. simpl in Hrel, Hno.
  split; [by apply inside_unique_path|].
  apply rmtree_quiet_removes; [done|]. by apply under_unique_path.
Qed.

Lemma search_tool_paths_removed_witness :
  let mailbox := [demo.message "m1" [demo.named "a.txt" "A1"];
                  demo.message "m2" [demo.named "a.txt" "A2"]] in
  let E := demo.env mailbox in
  let req := demo.request "search_and_download_attachments"
               [("query", JStr "has:attachment"); ("max_results", JInt 10)] in
  let res := server.run_tool E req demo.start in
  let files := ["/tmp/mcp_work_k3x9q2ab/a.txt"; "/tmp/mcp_work_k3x9q2ab/a_1.txt"] in
  res.1 = Return [("downloaded_files", server.paths_json files)] ∧
  ∃ files',
    [("downloaded_files", server.paths_json files)]
    = [("downloaded_files", server.paths_json files')] ∧
    Forall2 (λ path att,
        isabs att.2 = false → no_dotdot att.2 = true →
        inside "/tmp/mcp_work_k3x9q2ab" path = true ∧ fs res.2 !! path = None)
      files' (attachments_of mailbox).
Proof.
  intros mailbox E req res files. split; [vm_compute; reflexivity|].
  apply (search_tool_paths_removed E req demo.start "/tmp/mcp_work_k3x9q2ab"
           (mkdtemp E "mcp_work_" demo.start).2 "has:attachment" (JInt 10) 10
           {| credentials := Some demo.creds |}
           (mkdtemp E "mcp_work_" demo.start).2 mailbox
           (email_processor.search_messages_with_attachments E
              {| credentials := Some demo.creds |} "has:attachment" 10
              (mkdtemp E "mcp_work_" demo.start).2).2).
  - reflexivity.
  - vm_compute. reflexivity.
  - vm_compute. reflexivity.
  - vm_compute. reflexivity.
  - vm_compute. reflexivity.
  - vm_compute. reflexivity.
  - vm_compute. reflexivity.
  - vm_compute. reflexivity.
Defined.

(** ** The stages of the pipeline come in order *)

Lemma same_rank_sorted n evs :
  Forall (λ ev, stage_rank ev = n) evs →
  StronglySorted (λ a b, stage_rank a ≤ stage_rank b)%nat evs.
Proof.
  induction 1 as [|ev evs Hev Hall IH]; constructor; [done|].
  eapply Forall_impl; [exact Hall|]. intros ev' Hev'. simpl in *. lia.
Qed.

Lemma from_stage_of_appends {A} n (c : py A) :
  preserves (appends (λ ev, stage_rank ev = n)) c → preserves (from_stage n) c.
Proof.
  intros Hc w r w' H. destruct (Hc w r w' H) as (evs & Htr & Hall).
  exists evs. split; [done|]. split; [by eapply same_rank_sorted|].
  eapply Forall_impl; [exact Hall|]. intros ev Hev. simpl in *. lia.
Qed.

(** A step of stage [n'] followed by steps from stage [m] on. *)
Lemma from_stage_bind {A B} n n' m (c : py A) (k : A → py B) :
  (n ≤ n')%nat → (n' ≤ m)%nat →
  preserves (appends (λ ev, stage_rank ev = n')) c →
  (∀ a, preserves (from_stage m) (k a)) →
  preserves (from_stage n) (bind c k).
Proof.
  intros Hn Hm Hc Hk w r w' [(a & w1 & H1 & H2)|(e & H1 & _)]%bind_inv.
  - destruct (Hc _ _ _ H1) as (evs1 & Htr1 & Hall1).
    destruct (Hk a _ _ _ H2) as (evs2 & Htr2 & Hsort2 & Hall2).
    exists (evs1 ++ evs2). rewrite Htr2, Htr1, (assoc_L (++)). split; [done|]. split.
    + apply StronglySorted_app_2; [|by eapply same_rank_sorted|done].
      intros x1 x2 Hx1 Hx2. rewrite Forall_forall in Hall1, Hall2.
      specialize (Hall1 x1 Hx1). specialize (Hall2 x2 Hx2). simpl in *. lia.
    + apply Forall_app. split.
      * eapply Forall_impl; [exact Hall1|]. intros ev Hev. simpl in *. lia.
      * eapply Forall_impl; [exact Hall2|]. intros ev Hev. simpl in *. lia.
  - apply (from_stage_of_appends n' c Hc) in H1 as (evs & Htr & Hsort & Hall).
    exists evs. split; [done|]. split; [done|].
    eapply Forall_impl; [exact Hall|]. intros ev Hev. simpl in *. lia.
Qed.

Lemma makedirs_appends P d : preserves (appends P) (makedirs d).
Proof.
  intros w r w' H. apply makedirs_trace in H. exists []. by rewrite app_nil_r.
Qed.
Global Hint Resolve makedirs_appends : frame.

Lemma build_gmail_service_stage E :
  preserves (appends (λ ev, stage_rank ev = 0%nat)) (email_processor.build_gmail_service E).
Proof.
  unfold email_processor.build_gmail_service, email_processor.from_authorized_user_file,
    email_processor.from_client_secrets_file, email_processor.Request.
  frame.
Qed.

Lemma collect_found_stage E service messages found :
  preserves (appends (λ ev, stage_rank ev = 0%nat))
    (email_processor.collect_found E service messages found).
Proof. revert found. induction messages as [|m rest IH]; intros found; simpl; frame. Qed.

Lemma search_stage E service query max_results :
  preserves (appends (λ ev, stage_rank ev = 0%nat))
    (email_processor.search_messages_with_attachments E service query max_results).
Proof.
  unfold email_processor.search_messages_with_attachments.
  pose proof (collect_found_stage E service). frame.
Qed.

Lemma save_parts_stage E service mid folder ps saved :
  preserves (appends (λ ev, stage_rank ev = 1%nat))
    (email_processor.save_parts E service mid folder ps saved).
Proof.
  revert saved. induction ps as [|part ps IH]; intros saved; simpl; [frame|].
  apply preserves_bind; [apply _| |done].
  unfold email_processor.save_part. frame.
Qed.

Lemma save_messages_stage E service folder messages saved :
  preserves (appends (λ ev, stage_rank ev = 1%nat))
    (email_processor.save_messages E service folder messages saved).
Proof.
  revert saved. induction messages as [|msg rest IH]; intros saved; simpl; [frame|].
  pose proof (save_parts_stage E service (msg_id msg) folder). frame.
Qed.

Lemma download_stage E service messages folder :
  preserves (appends (λ ev, stage_rank ev = 1%nat))
    (email_processor.download_attachments_from_messages E service messages folder).
Proof.
  unfold email_processor.download_attachments_from_messages.
  pose proof (save_messages_stage E service folder messages). frame.
Qed.

Lemma get_token_stage E :
  preserves (appends (λ ev, stage_rank ev = 2%nat))
    (onedrive_handler.get_onedrive_access_token E).
Proof.
  unfold onedrive_handler.get_onedrive_access_token, onedrive_handler.dict_of. frame.
Qed.

Lemma upload_files_stage E token rf files uploaded :
  preserves (appends (λ ev, stage_rank ev = 3%nat))
    (server.upload_files E token rf files uploaded).
Proof.
  revert uploaded. induction files as [|f files IH]; intros uploaded; simpl; [frame|].
  apply preserves_bind; [apply _|frame|intros folder].
  apply preserves_bind; [apply _| |done].
  unfold onedrive_handler.upload_file_to_onedrive_path. frame.
Qed.

Lemma write_files_stage E out paths zf :
  preserves (appends (λ ev, stage_rank ev = 4%nat))
    (file_compressor.write_files E out paths zf).
Proof.
  revert zf. induction paths as [|f paths IH]; intros zf; simpl; [frame|].
  apply preserves_bind; [apply _|frame|intros ex]. destruct (negb ex); [frame|].
  apply preserves_bind; [apply _| |done]. unfold zf_write. frame.
Qed.

Lemma compress_files_stage E paths out :
  preserves (appends (λ ev, stage_rank ev = 4%nat))
    (file_compressor.compress_files E paths out).
Proof.
  unfold file_compressor.compress_files, ZipFile_open.
  pose proof (write_files_stage E out paths). frame.
Qed.

Lemma send_stage E service to subject body_text file_path :
  preserves (appends (λ ev, stage_rank ev = 5%nat))
    (email_processor.send_message_with_attachment E service to subject body_text file_path).
Proof. unfold email_processor.send_message_with_attachment. frame. Qed.

Lemma pipeline_body_from_stage E data work_dir :
  preserves (from_stage 0)
    (server.tool_body E "orchestrate_full_pipeline" data work_dir).
Proof.
  unfold server.tool_body. simpl (String.eqb _ _). cbv iota.
  apply (from_stage_bind 0 0 0); [lia|lia|frame|intros query].
  apply (from_stage_bind 0 0 0); [lia|lia|frame|intros mr].
  apply (from_stage_bind 0 0 0); [lia|lia|frame|intros max_results].
  apply (from_stage_bind 0 0 0); [lia|lia|frame|intros onedrive_folder].
  apply (from_stage_bind 0 0 0); [lia|lia|frame|intros recipient].
  apply (from_stage_bind 0 0 0); [lia|lia|frame|intros zip_name].
  apply (from_stage_bind 0 0 0); [lia|lia|apply build_gmail_service_stage|intros service].
  apply (from_stage_bind 0 0 0); [lia|lia|frame|intros q].
  apply (from_stage_bind 0 0 0); [lia|lia|apply search_stage|intros messages].
  destruct messages as [|msg messages]; [apply (from_stage_of_appends 0); frame|].
  apply (from_stage_bind 0 1 1); [lia|lia|apply download_stage|intros files].
  apply (from_stage_bind 1 2 2); [lia|lia|apply get_token_stage|intros token].
  apply (from_stage_bind 2 3 3); [lia|lia|apply upload_files_stage|intros uploaded].
  apply (from_stage_bind 3 3 3); [lia|lia|frame|intros zn].
  apply (from_stage_bind 3 4 4); [lia|lia|apply compress_files_stage|intros []].
  apply (from_stage_bind 4 4 4); [lia|lia|frame|intros rcp].
  apply (from_stage_bind 4 5 5); [lia|lia|apply send_stage|intros send_res].
  apply (from_stage_of_appends 5). frame.
Qed.

(** X20.  In a full-pipeline invocation the outside calls come strictly in
    the order of the stages, whatever the outcome: between the creation and
    the removal of the working directory, first the calls that read the
    mailbox, then the attachment fetches, then the storage token, then the
    uploads, then the archive, then the mail.  No call of an earlier stage
    ever follows a call of a later one, and a stage that fails is followed by
    nothing but the removal of the working directory. *)
Theorem pipeline_stages_in_order (E : Env) (req : server.RunRequest)
    (required : list string) (w : world) (work_dir : string) (w1 : world)
    (r : outcome dict) (w' : world) :
  server.tool req = "orchestrate_full_pipeline" →
  server.tool_required (server.tool req) server.TOOL_DEFINITIONS = Some required →
  Forall (λ k, is_Some (server.input req !! k)) required →
  mkdtemp E "mcp_work_" w = (Return work_dir, w1) →
  server.run_tool E req w = (r, w') →
  ∃ evs,
    trace w' = trace w ++ [EvMkdtemp work_dir] ++ evs ++ [EvRmtree work_dir] ∧
    StronglySorted (λ a b, stage_rank a ≤ stage_rank b)%nat evs.
Proof.
  intros Htool Hreqd Hreq Hmk Hrun.
  rewrite (run_tool_past_validation E req required w work_dir w1) in Hrun by done.
  assert (trace w1 = trace w ++ [EvMkdtemp work_dir]) as Htr1.
  { apply mkdtemp_inv in Hmk as [(? & ? & ? & ?)|(name & _ & Hr & ->)]; [done|].
    by inversion Hr. }
  destruct (server.tool_body E (server.tool req) (server.input req) work_dir w1)
    as [r2 w2] eqn:Hbody.
  rewrite Htool in Hbody.
  apply pipeline_body_from_stage in Hbody as (evs & Htr & Hsort & _).
  assert (w' = rmtree_quiet work_dir w2) as -> by (by destruct r2; inversion Hrun).
  exists evs. simpl. rewrite Htr, Htr1, <- !(assoc_L (++)). done.
Qed.

Lemma pipeline_stages_in_order_witness :
  let mailbox := [demo.message "m1" [demo.named "a.txt" "A1"];
                  demo.message "m2" [demo.named "b.txt" "B1"]] in
  let E := scenario.env mailbox (Return ["m1"; "m2"]) (Return [])
             (Return {| status_code := 507; text := "Insufficient Storage";
                        json_body := Return JNull |}) "s3cret" in
  let res := server.run_tool E demo.pipeline demo.start in
  trace res.2
  = [EvMkdtemp "/tmp/mcp_work_k3x9q2ab";
     EvGmailList "has:attachment from:a@example.com" 10;
     EvGmailGet "m1"; EvGmailGet "m2";
     EvGmailAttachment "m1" "A1"; EvGmailAttachment "m2" "B1";
     EvMsalClientCredentials;
     EvGraphPut "https://graph.microsoft.com/v1.0/me/drive/root:/Docs/a.txt:/content";
     EvRmtree "/tmp/mcp_work_k3x9q2ab"] ∧
  ∃ evs,
    trace res.2 = trace demo.start ++ [EvMkdtemp "/tmp/mcp_work_k3x9q2ab"] ++ evs
                  ++ [EvRmtree "/tmp/mcp_work_k3x9q2ab"] ∧
    StronglySorted (λ a b, stage_rank a ≤ stage_rank b)%nat evs.
Proof.
  intros mailbox E res. split; [vm_compute; reflexivity|].
  apply (pipeline_stages_in_order E demo.pipeline
           ["query"; "max_results"; "onedrive_folder"; "recipient_email"; "zip_name"]
           demo.start "/tmp/mcp_work_k3x9q2ab" (mkdtemp E "mcp_work_" demo.start).2
           res.1 res.2).
  - reflexivity.
  - reflexivity.
  - repeat constructor; vm_compute; eauto.
  - vm_compute. reflexivity.
  - apply surjective_pairing.
Defined.

(** ** Remote paths *)

Lemma replace_char_absent a b s :
  a ≠ b → contains (replace_char a b s) (String a EmptyString) = false.
Proof.
  intros Hab. induction s as [|c s IH]; [done|].
  simpl. rewrite IH, orb_false_r, andb_true_r.
  destruct (Ascii.eqb c a) eqn:Hc.
  - apply Ascii.eqb_neq. congruence.
  - done.
Qed.

(** X21.  The remote path the upload loops hand to the storage provider
    never contains a backslash, whatever the folder and the local path:
    every backslash of the joined path is turned into a forward slash. *)
Theorem remote_path_has_no_backslash (folder path : string) :
  contains (server.remote_path_of folder path) (String backslash EmptyString) = false.
Proof. unfold server.remote_path_of. by apply replace_char_absent. Qed.
